(** * A shallow embedding of the kbjorklu/chess engine

    The development follows the JavaScript sources file by file:
    [chess.js] (module [Chess]), [bitboard.js] (module [Bitboard]),
    [zobrist.js] (module [Zobrist]), [move.js] (module [Move]),
    [position.js] (module [Position]) and [ai.js] (module [AI]).

    Numbers.  The program computes with small integers only.  The numbers
    it stores in a bitboard, a hash key, a move or a position are modelled
    by Rocq's machine integers ([int], 63 bits, two's complement for the
    negative ones): the 32-bit halves of [Chess.Bitboard] and
    [Chess.Zobrist], which JavaScript coerces with [>>> 0] (written out as
    a mask, [Js.toUint32]), square indices, shift distances, piece codes,
    move kinds and packed moves.  Node counts and scores are in [Z].

    Arrays.  The arrays [bitboards] and [pieces] of a position and the
    precomputed tables are primitive arrays; the three history stacks are
    lists whose head is the entry pushed last.

    Mutation.  Methods that mutate [this] become functions that return the
    new value; methods of [Chess.Position] that may raise return a
    [result]. *)

From Stdlib Require Import ZArith List Bool Lia Uint63 Sint63 PArray.
From Stdlib Require Import ZifyUint63 ZifySint63.
Import ListNotations.
Local Open Scope uint63_scope.

(** ** Outcomes of the embedded methods *)

(** [TypeError]: JavaScript raises a [TypeError] (a method call on
    [undefined], as in [KING_MOVEMENTS[64].dup()]).
    [Unmodelled]: the program would go on with [undefined] stored in a
    numeric field; such states are outside the embedding.
    [OutOfFuel]: the recursion of the search was cut by the bound that
    the embedding puts on its depth. *)
Inductive result (A : Type) : Type :=
| Ok (a : A)
| TypeError
| Unmodelled
| OutOfFuel.
Arguments Ok {A} a.
Arguments TypeError {A}.
Arguments Unmodelled {A}.
Arguments OutOfFuel {A}.

Definition bind {A B : Type} (r : result A) (k : A -> result B) : result B :=
  match r with
  | Ok a => k a
  | TypeError => TypeError
  | Unmodelled => Unmodelled
  | OutOfFuel => OutOfFuel
  end.

Notation "'let*' x ':=' e 'in' k" := (bind e (fun x => k))
  (at level 10, x name, e at level 100, k at level 200).
Notation "'let*' ' pat ':=' e 'in' k" :=
  (bind e (fun x => match x with pat => k end))
  (at level 10, pat pattern, e at level 100, k at level 200).

(** The array literal [[x0, x1, ...]]; reading outside it gives [d]. *)
Definition arrayOf {A : Type} (l : list A) (d : A) : array A :=
  snd (fold_left (fun '(i, a) x => (i + 1, a.[i <- x])) l
                 (0, PArray.make (of_Z (Z.of_nat (List.length l))) d)).

(** ** JavaScript operators on integers *)
Module Js.

(** [x >>> 0] *)
Definition toUint32 (x : int) : int := x land 0xFFFFFFFF.
(** [~x]; every use is followed by [&] with a 32-bit value or by [>>> 0] *)
Definition not (x : int) : int := x lxor max_int.
(** [-x] *)
Definition neg (x : int) : int := 0 - x.
(** [a < b] and [a <= b] on numbers that may be negative *)
Definition lt (a b : int) : bool := PrimInt63.ltsb a b.
Definition le (a b : int) : bool := PrimInt63.lesb a b.
(** A number used as a condition. *)
Definition truthy (x : int) : bool := negb (x =? 0).
(** The count of a shift is taken modulo 32. *)
Definition count (v : int) : int := v land 31.

End Js.

(** ** chess.js *)
Module Chess.

Definition RANKS : int := 8.
Definition LAST_RANK : int := RANKS - 1.
Definition FILES : int := 8.
Definition LAST_FILE : int := FILES - 1.

(** [Chess.Piece] *)
Module Piece.
Definition PAWN : int := 0.
Definition KNIGHT : int := 1.
Definition BISHOP : int := 2.
Definition ROOK : int := 3.
Definition QUEEN : int := 4.
Definition KING : int := 5.
End Piece.

(** [Chess.PieceColor] *)
Inductive PieceColor : Type := WHITE | BLACK.

(** The number behind a [Chess.PieceColor]. *)
Definition code (c : PieceColor) : int :=
  match c with WHITE => 0 | BLACK => 1 end.

Definition getRank (index : int) : int := Js.toUint32 index >> 3.
Definition getFile (index : int) : int := index land 7.
Definition getIndex (rank file : int) : int := file + rank * FILES.
Definition isLight (rank file : int) : bool := Js.truthy ((rank + file) mod 2).

(** [color ^ 1] *)
Definition getOtherPieceColor (color : PieceColor) : PieceColor :=
  match color with WHITE => BLACK | BLACK => WHITE end.

End Chess.

(** ** bitboard.js *)
Module Bitboard.

Record t : Type := mk { low : int; high : int }.

(** The constructor [Chess.Bitboard(low, high)]. *)
Definition make (l h : int) : t := mk (Js.toUint32 l) (Js.toUint32 h).

Definition popcnt32 (v : int) : int :=
  let v := Js.toUint32 v in
  let v := v - ((v >> 1) land 0x55555555) in
  let v := (v land 0x33333333) + ((v >> 2) land 0x33333333) in
  Js.toUint32 (((v + (v >> 4)) land 0xF0F0F0F) * 0x1010101) >> 24.

Definition popLowestBit32 (v : int) : int :=
  let v := Js.toUint32 v in
  Js.toUint32 (v land (v - 1)).

Definition getLowestBitPosition32 (v : int) : int :=
  let v := Js.toUint32 v in
  popcnt32 ((v land Js.neg v) - 1).

Definition popcnt (b : t) : int := popcnt32 (low b) + popcnt32 (high b).

Definition popLowestBit (b : t) : t :=
  if Js.truthy (low b) then mk (popLowestBit32 (low b)) (high b)
  else mk (low b) (popLowestBit32 (high b)).

Definition getLowestBitPosition (b : t) : int :=
  if Js.truthy (low b) then getLowestBitPosition32 (low b)
  else 32 + getLowestBitPosition32 (high b).

(** [extractLowestBitPosition] returns the index and leaves the popped
    board in [this]. *)
Definition extractLowestBitPosition (b : t) : int * t :=
  (getLowestBitPosition b, popLowestBit b).

Definition isEmpty (b : t) : bool := negb (Js.truthy (low b)) && negb (Js.truthy (high b)).

Definition isClear (b : t) (index : int) : bool :=
  let index := Js.toUint32 index in
  if index <? 32 then negb (Js.truthy (low b land (1 << Js.count index)))
  else negb (Js.truthy (high b land (1 << Js.count (index - 32)))).

Definition isSet (b : t) (index : int) : bool := negb (isClear b index).

Definition setBit (b : t) (index : int) : t :=
  let index := Js.toUint32 index in
  if index <? 32 then mk (Js.toUint32 (low b lor (1 << Js.count index))) (high b)
  else mk (low b) (Js.toUint32 (high b lor (1 << Js.count (index - 32)))).

Definition clearBit (b : t) (index : int) : t :=
  let index := Js.toUint32 index in
  if index <? 32 then mk (Js.toUint32 (low b land Js.not (1 << Js.count index))) (high b)
  else mk (low b) (Js.toUint32 (high b land Js.not (1 << Js.count (index - 32)))).

Definition and_ (b other : t) : t :=
  mk (Js.toUint32 (low b land low other)) (Js.toUint32 (high b land high other)).

Definition and_not (b other : t) : t :=
  mk (Js.toUint32 (low b land Js.not (low other)))
     (Js.toUint32 (high b land Js.not (high other))).

Definition or_ (b other : t) : t :=
  mk (Js.toUint32 (low b lor low other)) (Js.toUint32 (high b lor high other)).

Definition xor_ (b other : t) : t :=
  mk (Js.toUint32 (low b lxor low other)) (Js.toUint32 (high b lxor high other)).

Definition not_ (b : t) : t :=
  mk (Js.toUint32 (Js.not (low b))) (Js.toUint32 (Js.not (high b))).

Definition shl (b : t) (v : int) : t :=
  let v := Js.toUint32 v in
  if 31 <? v then mk 0 (Js.toUint32 (low b << Js.count (v - 32)))
  else if 0 <? v then
    mk (Js.toUint32 (low b << Js.count v))
       (Js.toUint32 ((high b << Js.count v) lor (Js.toUint32 (low b) >> Js.count (32 - v))))
  else b.

Definition shr (b : t) (v : int) : t :=
  let v := Js.toUint32 v in
  if 31 <? v then mk (Js.toUint32 (high b) >> Js.count (v - 32)) 0
  else if 0 <? v then
    mk (Js.toUint32 ((Js.toUint32 (low b) >> Js.count v) lor (high b << Js.count (32 - v))))
       (Js.toUint32 (high b) >> Js.count v)
  else b.

Definition shiftLeft (b : t) (v : int) : t :=
  if Js.lt 63 v || Js.lt v (Js.neg 63) then mk 0 0
  else if Js.lt 0 v then shl b v
  else if Js.lt v 0 then shr b (Js.neg v)
  else b.

Definition isEqual (b other : t) : bool :=
  (low b =? low other) && (high b =? high other).

Definition dup (b : t) : t := make (low b) (high b).

Definition makeZero : t := make 0 0.
Definition makeOne : t := make 0xFFFFFFFF 0xFFFFFFFF.
Definition makeLightSquares : t := make 0x55AA55AA 0x55AA55AA.
Definition makeDarkSquares : t := make 0xAA55AA55 0xAA55AA55.
Definition makeFile (file : int) : t := shl (make 0x01010101 0x01010101) file.
Definition makeRank (rank : int) : t := shl (make 0xFF 0) (rank * 8).
Definition makeIndex (index : int) : t := setBit makeZero index.

Definition ZERO : t := Eval vm_compute in makeZero.
Definition ONE : t := Eval vm_compute in makeOne.
Definition LIGHT_SQUARES : t := Eval vm_compute in makeLightSquares.
Definition DARK_SQUARES : t := Eval vm_compute in makeDarkSquares.

(** The array that a loop [for (i = 0; i < n; ++i) b.push(f(i))] builds. *)
Fixpoint pushAll (f : int -> t) (n : nat) (i : int) (b : array t) : array t :=
  match n with
  | O => b
  | S n' => pushAll f n' (i + 1) b.[i <- f i]
  end.

Definition makeFiles : array t := pushAll makeFile 8 0 (PArray.make 8 ZERO).
Definition makeRanks : array t := pushAll makeRank 8 0 (PArray.make 8 ZERO).

Definition FILES : array t := Eval vm_compute in makeFiles.
Definition RANKS : array t := Eval vm_compute in makeRanks.

Definition makeKnightMovement (index : int) : t :=
  let b := setBit makeZero index in
  let l1 := and_not (shr (dup b) 1) FILES.[7] in
  let l2 := and_not (and_not (shr (dup b) 2) FILES.[7]) FILES.[6] in
  let r1 := and_not (shl (dup b) 1) FILES.[0] in
  let r2 := and_not (and_not (shl (dup b) 2) FILES.[0]) FILES.[1] in
  let v1 := or_ l2 r2 in
  let v2 := or_ l1 r1 in
  or_ (or_ (or_ (shl (dup v1) 8) (shr v1 8)) (shl (dup v2) 16)) (shr v2 16).

Definition makeKnightMovements : array t :=
  pushAll makeKnightMovement 64 0 (PArray.make 64 ZERO).

Definition makeKingMovement (index : int) : t :=
  let b := setBit makeZero index in
  let c := or_ (and_not (shr (dup b) 1) FILES.[7]) (and_not (shl (dup b) 1) FILES.[0]) in
  let u := shr (or_ (dup b) c) 8 in
  let d := shl (or_ (dup b) c) 8 in
  or_ (or_ c u) d.

Definition makeKingMovements : array t :=
  pushAll makeKingMovement 64 0 (PArray.make 64 ZERO).

Definition KNIGHT_MOVEMENTS : array t := Eval vm_compute in makeKnightMovements.
Definition KING_MOVEMENTS : array t := Eval vm_compute in makeKingMovements.

(** [TABLE[index].dup()]: a [TypeError] outside the table. *)
Definition lookup (table : array t) (index : int) : result t :=
  if index <? PArray.length table then Ok (dup table.[index]) else TypeError.

(** The loop [while (!bb.isEmpty()) { i = bb.extractLowestBitPosition(); ... }]
    visits these indices, in this order.  A board has at most 64 bits, so
    64 rounds empty it. *)
Fixpoint extractLoop (fuel : nat) (b : t) : list int :=
  match fuel with
  | O => []
  | S fuel' =>
      if isEmpty b then []
      else let '(index, b') := extractLowestBitPosition b in
           index :: extractLoop fuel' b'
  end.

Definition extractAll (b : t) : list int := extractLoop 64 b.

End Bitboard.

(** ** zobrist.js *)
Module Zobrist.

Record t : Type := mk { low : int; high : int }.

(** The constructor [Chess.Zobrist(low, high)]. *)
Definition make (l h : int) : t := mk (Js.toUint32 l) (Js.toUint32 h).

Module Count.
Definition TURN : int := 1 * 2.
Definition PIECE_COLOR_SQUARE : int := 6 * 2 * 64 * 2.
Definition CASTLING_RIGHTS : int := 16 * 2.
Definition EN_PASSANT_FILE : int := 8 * 2.
End Count.

Module Position.
Definition TURN : int := 0.
Definition PIECE_COLOR_SQUARE : int := Count.TURN.
Definition CASTLING_RIGHTS : int := Count.TURN + Count.PIECE_COLOR_SQUARE.
Definition EN_PASSANT_FILE : int :=
    Count.TURN + Count.PIECE_COLOR_SQUARE + Count.CASTLING_RIGHTS.
End Position.

Definition dup (z : t) : t := make (low z) (high z).

Definition isEqual (z zobrist : t) : bool :=
  (low z =? low zobrist) && (high z =? high zobrist).

Section WithRandomValues.

(** [Chess.Zobrist.RANDOM_VALUES], drawn from [Math.random] when the
    script is loaded: [RANDOM_VALUES i] is the entry at index [i]. *)
Variable RANDOM_VALUES : int -> int.

Definition update (z : t) (position : int) : t :=
  mk (Js.toUint32 (low z lxor RANDOM_VALUES position))
     (Js.toUint32 (high z lxor RANDOM_VALUES (position + 1))).

Definition updateTurn (z : t) : t := update z Position.TURN.

Definition updatePieceColorSquare (z : t) (piece : int) (color : Chess.PieceColor)
    (index : int) : t :=
  update z (Position.PIECE_COLOR_SQUARE + piece + Chess.code color * 6 + index * 6 * 2).

Definition updatePieceColorBitboard (z : t) (piece : int) (color : Chess.PieceColor)
    (bitboard : Bitboard.t) : t :=
  fold_left (fun z index => updatePieceColorSquare z piece color index)
            (Bitboard.extractAll (Bitboard.dup bitboard)) z.

Definition updateCastlingRights (z : t) (castlingRights : int) : t :=
  update z (Position.CASTLING_RIGHTS + castlingRights).

Definition updateEnPassantFile (z : t) (enPassantFile : int) : t :=
  update z (Position.EN_PASSANT_FILE + enPassantFile).

Definition updateEnPassantSquare (z : t) (enPassantSquare : int) : t :=
  if Js.le 0 enPassantSquare
  then updateEnPassantFile z (Chess.getFile enPassantSquare)
  else z.

End WithRandomValues.
End Zobrist.

(** ** move.js *)
Module Move.

(** A move is its packed [value]. *)
Record t : Type := mk { value : int }.

Module Kind.
Definition POSITIONAL : int := 0.
Definition DOUBLE_PAWN_PUSH : int := 1.
Definition KING_CASTLE : int := 2.
Definition QUEEN_CASTLE : int := 3.
Definition CAPTURE : int := 4.
Definition EN_PASSANT_CAPTURE : int := 5.
Definition KNIGHT_PROMOTION : int := 8.
Definition BISHOP_PROMOTION : int := 9.
Definition ROOK_PROMOTION : int := 10.
Definition QUEEN_PROMOTION : int := 11.
Definition KNIGHT_PROMOTION_CAPTURE : int := 12.
Definition BISHOP_PROMOTION_CAPTURE : int := 13.
Definition ROOK_PROMOTION_CAPTURE : int := 14.
Definition QUEEN_PROMOTION_CAPTURE : int := 15.
End Kind.

(** [capturedPiece | 0]: [null] is stored as pawn. *)
Definition orZero (capturedPiece : option int) : int :=
  match capturedPiece with Some c => c | None => 0 end.

(** The constructor [Chess.Move(from, to, kind, piece, capturedPiece)]. *)
Definition make (from to kind piece : int) (capturedPiece : option int) : t :=
  mk ((to land 0x3F)
      lor ((from land 0x3F) << 6)
      lor ((kind land 0xF) << 12)
      lor ((piece land 0x7) << 16)
      lor ((orZero capturedPiece land 0x7) << 19)).

Definition getTo (m : t) : int := value m land 0x3F.
Definition getFrom (m : t) : int := (value m >> 6) land 0x3F.
Definition getKind (m : t) : int := (value m >> 12) land 0xF.
Definition getPiece (m : t) : int := (value m >> 16) land 0x7.
Definition isCapture (m : t) : bool := Js.truthy (getKind m land 4).
Definition getCapturedPiece (m : t) : int := (value m >> 19) land 0x7.
Definition isPromotion (m : t) : bool := Js.truthy (getKind m land 8).
Definition isCastle (m : t) : bool :=
  (getKind m =? Kind.KING_CASTLE) || (getKind m =? Kind.QUEEN_CASTLE).

Definition getPromotedPiece (m : t) : int :=
  if isPromotion m then Chess.Piece.KNIGHT + (getKind m land 3)
  else Chess.Piece.PAWN.

Definition getCaptureSquare (m : t) : int :=
  if negb (getKind m =? Kind.EN_PASSANT_CAPTURE) then getTo m
  else getTo m + (if getFrom m <? getTo m then Js.neg Chess.FILES else Chess.FILES).

End Move.

(** ** position.js *)
Module Position.
Import Chess.

(** [halfMoveClock] is the property that [unmakeMove] creates; it is
    absent ([None]) in a new position. *)
Record t : Type := mk {
  hashKey : Zobrist.t;
  bitboards : array Bitboard.t;
  pieces : array (option int);
  turn : PieceColor;
  castlingRights : int;
  enPassantSquare : int;
  halfmoveClock : int;
  madeMoves : list Move.t;
  irreversibleHistory : list int;
  hashHistory : list Zobrist.t;
  halfMoveClock : option int
}.

Definition setHashKey (p : t) (h : Zobrist.t) : t :=
  mk h (bitboards p) (pieces p) (turn p) (castlingRights p) (enPassantSquare p)
     (halfmoveClock p) (madeMoves p) (irreversibleHistory p) (hashHistory p)
     (halfMoveClock p).
Definition setBitboards (p : t) (b : array Bitboard.t) : t :=
  mk (hashKey p) b (pieces p) (turn p) (castlingRights p) (enPassantSquare p)
     (halfmoveClock p) (madeMoves p) (irreversibleHistory p) (hashHistory p)
     (halfMoveClock p).
Definition setPieces (p : t) (l : array (option int)) : t :=
  mk (hashKey p) (bitboards p) l (turn p) (castlingRights p) (enPassantSquare p)
     (halfmoveClock p) (madeMoves p) (irreversibleHistory p) (hashHistory p)
     (halfMoveClock p).
Definition setTurn (p : t) (c : PieceColor) : t :=
  mk (hashKey p) (bitboards p) (pieces p) c (castlingRights p) (enPassantSquare p)
     (halfmoveClock p) (madeMoves p) (irreversibleHistory p) (hashHistory p)
     (halfMoveClock p).
Definition setCastlingRights (p : t) (r : int) : t :=
  mk (hashKey p) (bitboards p) (pieces p) (turn p) r (enPassantSquare p)
     (halfmoveClock p) (madeMoves p) (irreversibleHistory p) (hashHistory p)
     (halfMoveClock p).
Definition setEnPassantSquare (p : t) (s : int) : t :=
  mk (hashKey p) (bitboards p) (pieces p) (turn p) (castlingRights p) s
     (halfmoveClock p) (madeMoves p) (irreversibleHistory p) (hashHistory p)
     (halfMoveClock p).
Definition setHalfmoveClock (p : t) (c : int) : t :=
  mk (hashKey p) (bitboards p) (pieces p) (turn p) (castlingRights p) (enPassantSquare p)
     c (madeMoves p) (irreversibleHistory p) (hashHistory p) (halfMoveClock p).
Definition setMadeMoves (p : t) (l : list Move.t) : t :=
  mk (hashKey p) (bitboards p) (pieces p) (turn p) (castlingRights p) (enPassantSquare p)
     (halfmoveClock p) l (irreversibleHistory p) (hashHistory p) (halfMoveClock p).
Definition setIrreversibleHistory (p : t) (l : list int) : t :=
  mk (hashKey p) (bitboards p) (pieces p) (turn p) (castlingRights p) (enPassantSquare p)
     (halfmoveClock p) (madeMoves p) l (hashHistory p) (halfMoveClock p).
Definition setHashHistory (p : t) (l : list Zobrist.t) : t :=
  mk (hashKey p) (bitboards p) (pieces p) (turn p) (castlingRights p) (enPassantSquare p)
     (halfmoveClock p) (madeMoves p) (irreversibleHistory p) l (halfMoveClock p).
Definition setHalfMoveClock (p : t) (c : option int) : t :=
  mk (hashKey p) (bitboards p) (pieces p) (turn p) (castlingRights p) (enPassantSquare p)
     (halfmoveClock p) (madeMoves p) (irreversibleHistory p) (hashHistory p) c.

Definition ANY_WHITE : int := Piece.KING + 1.
Definition ANY_BLACK : int := ANY_WHITE + 1.
Definition ROOK_INDICES : array int := Eval vm_compute in arrayOf [7; 63; 0; 56] 0.

Definition SLIDING_MASKS : array Bitboard.t :=
  Eval vm_compute in
  arrayOf [Bitboard.not_ (Bitboard.makeFile LAST_FILE); Bitboard.ONE;
           Bitboard.not_ (Bitboard.makeFile 0)] Bitboard.ZERO.

Inductive Status : Type :=
| NORMAL
| CHECKMATE
| STALEMATE_DRAW
| FIFTY_MOVE_RULE_DRAW
| THREEFOLD_REPETITION_RULE_DRAW
| INSUFFICIENT_MATERIAL_DRAW.

(** The in-place update of the board [this.bitboards[i]]. *)
Definition setBitboard (p : t) (i : int) (b : Bitboard.t) : t :=
  setBitboards p (bitboards p).[i <- b].

Definition getColorBitboard (p : t) (color : PieceColor) : Bitboard.t :=
  (bitboards p).[ANY_WHITE + code color].

Definition getPieceBitboard (p : t) (piece : int) : Bitboard.t :=
  (bitboards p).[piece].

Definition getPieceColorBitboard (p : t) (piece : int) (color : PieceColor) : Bitboard.t :=
  Bitboard.and_ (Bitboard.dup (bitboards p).[piece]) (getColorBitboard p color).

Definition getKingPosition (p : t) (color : PieceColor) : int :=
  Bitboard.getLowestBitPosition (getPieceColorBitboard p Piece.KING color).

Definition getOccupiedBitboard (p : t) : Bitboard.t :=
  Bitboard.or_ (Bitboard.dup (bitboards p).[ANY_WHITE]) (bitboards p).[ANY_BLACK].

Definition getEmptyBitboard (p : t) : Bitboard.t :=
  Bitboard.not_ (getOccupiedBitboard p).

Definition getTurnColor (p : t) : PieceColor := turn p.

(** The loop over the piece codes [PAWN .. KING]. *)
Definition findPieceAtOrNull (p : t) (index : int) : option int :=
  find (fun piece => Bitboard.isSet (getPieceBitboard p piece) index)
       [Piece.PAWN; Piece.KNIGHT; Piece.BISHOP; Piece.ROOK; Piece.QUEEN; Piece.KING].

(** [this.pieces[index]]; outside the table [undefined] reads as [null]
    where the program uses it ([capturedPiece | 0]). *)
Definition getPieceAtOrNull (p : t) (index : int) : option int :=
  (pieces p).[index].

(** [this.pieces[index] = x], for the squares of the board. *)
Definition setPieceAt (p : t) (index : int) (x : option int) : t :=
  setPieces p (pieces p).[index <- x].

(** [this.pieces.length = 0], then 64 times [push]. *)
Fixpoint pushPieces (p : t) (n : nat) (index : int) (a : array (option int))
    : array (option int) :=
  match n with
  | O => a
  | S n' => pushPieces p n' (index + 1) a.[index <- findPieceAtOrNull p index]
  end.

Definition fillPiecesFromBitboards (p : t) : t :=
  setPieces p (pushPieces p 64 0 (PArray.make 64 None)).

Definition makePawnAttackMask (color : PieceColor) (pawns : Bitboard.t) : Bitboard.t :=
  let white := match color with WHITE => true | BLACK => false end in
  let attacks1 :=
    Bitboard.shiftLeft (Bitboard.and_not (Bitboard.dup pawns) Bitboard.FILES.[0])
                       (if white then 7 else Js.neg 9) in
  let attacks2 :=
    Bitboard.shiftLeft (Bitboard.and_not (Bitboard.dup pawns) Bitboard.FILES.[LAST_FILE])
                       (if white then 9 else Js.neg 7) in
  Bitboard.or_ attacks1 attacks2.

(** The [for] loop of [makeSlidingAttackMask]: the condition masks
    [fromBB] and tests it, the body adds it to [bb], the step removes the
    blocked bits and shifts.  Every round moves the bits one step, so
    they leave the board within 8 rounds; 64 are allowed. *)
Fixpoint slidingLoop (fuel : nat) (fromBB bb occupied mask : Bitboard.t) (direction : int)
    : Bitboard.t :=
  match fuel with
  | O => bb
  | S fuel' =>
      let fromBB := Bitboard.and_ fromBB mask in
      if Bitboard.isEmpty fromBB then bb
      else slidingLoop fuel'
             (Bitboard.shiftLeft (Bitboard.and_not fromBB occupied) direction)
             (Bitboard.or_ bb fromBB) occupied mask direction
  end.

Definition makeSlidingAttackMask (fromBB occupied : Bitboard.t)
    (rankDirection fileDirection : int) : Bitboard.t :=
  let bb := Bitboard.makeZero in
  let direction := rankDirection * FILES + fileDirection in
  let mask := SLIDING_MASKS.[1 + fileDirection] in
  slidingLoop 64 (Bitboard.shiftLeft fromBB direction) bb occupied mask direction.

Definition makeBishopAttackMask (fromBB occupied : Bitboard.t) : Bitboard.t :=
  Bitboard.or_ (Bitboard.or_ (Bitboard.or_
    (makeSlidingAttackMask (Bitboard.dup fromBB) occupied 1 1)
    (makeSlidingAttackMask (Bitboard.dup fromBB) occupied 1 (Js.neg 1)))
    (makeSlidingAttackMask (Bitboard.dup fromBB) occupied (Js.neg 1) 1))
    (makeSlidingAttackMask (Bitboard.dup fromBB) occupied (Js.neg 1) (Js.neg 1)).

Definition makeRookAttackMask (fromBB occupied : Bitboard.t) : Bitboard.t :=
  Bitboard.or_ (Bitboard.or_ (Bitboard.or_
    (makeSlidingAttackMask (Bitboard.dup fromBB) occupied 0 1)
    (makeSlidingAttackMask (Bitboard.dup fromBB) occupied 0 (Js.neg 1)))
    (makeSlidingAttackMask (Bitboard.dup fromBB) occupied 1 0))
    (makeSlidingAttackMask (Bitboard.dup fromBB) occupied (Js.neg 1) 0).

Definition isAttacked (p : t) (color : PieceColor) (index : int) : result bool :=
  let pawns := getPieceColorBitboard p Piece.PAWN color in
  if Bitboard.isSet (makePawnAttackMask color pawns) index then Ok true else
  let knights := getPieceColorBitboard p Piece.KNIGHT color in
  let* km := Bitboard.lookup Bitboard.KNIGHT_MOVEMENTS index in
  if negb (Bitboard.isEmpty (Bitboard.and_ km knights)) then Ok true else
  let king := getPieceColorBitboard p Piece.KING color in
  let* gm := Bitboard.lookup Bitboard.KING_MOVEMENTS index in
  if negb (Bitboard.isEmpty (Bitboard.and_ gm king)) then Ok true else
  let occupied := getOccupiedBitboard p in
  let queens := getPieceColorBitboard p Piece.QUEEN color in
  let bq := Bitboard.or_ (Bitboard.dup (getPieceColorBitboard p Piece.BISHOP color)) queens in
  if Bitboard.isSet (makeBishopAttackMask bq occupied) index then Ok true else
  let rq := Bitboard.or_ (Bitboard.dup (getPieceColorBitboard p Piece.ROOK color)) queens in
  if Bitboard.isSet (makeRookAttackMask rq occupied) index then Ok true else
  Ok false.

Definition isKingInCheck (p : t) : result bool :=
  isAttacked p (getOtherPieceColor (getTurnColor p)) (getKingPosition p (getTurnColor p)).

Definition getCastlingIndex (color : PieceColor) (kingSide : bool) : int :=
  code color + (if kingSide then 0 else 2).

Definition getCastlingRookSquare (color : PieceColor) (kingSide : bool) : int :=
  ROOK_INDICES.[getCastlingIndex color kingSide].

Definition hasCastlingRight (p : t) (color : PieceColor) (kingSide : bool) : bool :=
  Js.truthy (castlingRights p land (1 << Js.count (getCastlingIndex color kingSide))).

Definition isCastlingLegal (p : t) (color : PieceColor) (kingSide : bool) : result bool :=
  let otherColor := getOtherPieceColor color in
  let direction := if kingSide then 1 else Js.neg 1 in
  let kingPosition := match color with WHITE => 4 | BLACK => 60 end in
  let* a0 := isAttacked p otherColor kingPosition in
  if a0 then Ok false else
  let* a1 := isAttacked p otherColor (kingPosition + direction) in
  if a1 then Ok false else
  let* a2 := isAttacked p otherColor (kingPosition + 2 * direction) in
  Ok (negb a2).

Definition canCastle (p : t) (color : PieceColor) (kingSide onlyLegal : bool) : result bool :=
  if negb (hasCastlingRight p color kingSide) then Ok false else
  let direction := if kingSide then 1 else Js.neg 1 in
  let kingPosition := match color with WHITE => 4 | BLACK => 60 end in
  let occupied := getOccupiedBitboard p in
  if Bitboard.isSet occupied (kingPosition + direction)
     || Bitboard.isSet occupied (kingPosition + 2 * direction) then Ok false else
  if negb kingSide && Bitboard.isSet occupied (kingPosition + 3 * direction) then Ok false else
  if onlyLegal then
    let* legal := isCastlingLegal p color kingSide in
    if negb legal then Ok false else Ok true
  else Ok true.

Definition getEnPassantSquare (p : t) : int := enPassantSquare p.
Definition canEnPassant (p : t) : bool := Js.le 0 (getEnPassantSquare p).

Definition isFiftyMoveRuleDraw (p : t) : bool := Js.le 100 (halfmoveClock p).

(** [hashHistory.reduce(...)] counts the entries equal to the current
    key, from the oldest to the newest. *)
Definition isThreefoldRepetitionRuleDraw (p : t) : bool :=
  let currentHashKey := hashKey p in
  (3 <=? fold_left (fun previousValue currentValue =>
                      previousValue
                      + (if Zobrist.isEqual currentValue currentHashKey then 1 else 0))
                   (rev (hashHistory p)) 0)%Z.

Definition isInsufficientMaterialDraw (p : t) : bool :=
  if negb (Bitboard.isEmpty (getPieceBitboard p Piece.PAWN)) then false else
  if negb (Bitboard.isEmpty (getPieceBitboard p Piece.ROOK)) then false else
  if negb (Bitboard.isEmpty (getPieceBitboard p Piece.QUEEN)) then false else
  let whiteCount := Bitboard.popcnt (getColorBitboard p WHITE) in
  let blackCount := Bitboard.popcnt (getColorBitboard p BLACK) in
  if whiteCount + blackCount <? 4 then true else
  if negb (Bitboard.isEmpty (getPieceBitboard p Piece.KNIGHT)) then false else
  let bishops := getPieceBitboard p Piece.BISHOP in
  if Bitboard.isEqual (Bitboard.and_ (Bitboard.dup bishops) Bitboard.LIGHT_SQUARES) bishops
     || Bitboard.isEqual (Bitboard.and_ (Bitboard.dup bishops) Bitboard.DARK_SQUARES) bishops
  then true else false.

Definition isDraw (p : t) : bool :=
  isFiftyMoveRuleDraw p || isThreefoldRepetitionRuleDraw p || isInsufficientMaterialDraw p.

(** [for (...) r.push(f(x))] where [f] may raise. *)
Fixpoint mapM {A B : Type} (f : A -> result B) (l : list A) : result (list B) :=
  match l with
  | [] => Ok []
  | x :: l' => let* y := f x in let* ys := mapM f l' in Ok (y :: ys)
  end.

(** [addPawnMoves] inside [generateMoves] *)
Definition addPawnMoves (p : t) (toMask : Bitboard.t) (movement kind : int) : list Move.t :=
  map (fun index => Move.make (index - movement) index kind Piece.PAWN (getPieceAtOrNull p index))
      (Bitboard.extractAll toMask).

(** [addPawnPromotions] inside [generateMoves] *)
Definition addPawnPromotions (p : t) (toMask : Bitboard.t) (movement : int) (capture : bool)
    : list Move.t :=
  addPawnMoves p (Bitboard.dup toMask) movement
    (if capture then Move.Kind.QUEEN_PROMOTION_CAPTURE else Move.Kind.QUEEN_PROMOTION)
  ++ addPawnMoves p (Bitboard.dup toMask) movement
    (if capture then Move.Kind.ROOK_PROMOTION_CAPTURE else Move.Kind.ROOK_PROMOTION)
  ++ addPawnMoves p (Bitboard.dup toMask) movement
    (if capture then Move.Kind.BISHOP_PROMOTION_CAPTURE else Move.Kind.BISHOP_PROMOTION)
  ++ addPawnMoves p (Bitboard.dup toMask) movement
    (if capture then Move.Kind.KNIGHT_PROMOTION_CAPTURE else Move.Kind.KNIGHT_PROMOTION).

(** [addNormalMoves] inside [generateMoves] *)
Definition addNormalMoves (p : t) (opponentBB : Bitboard.t) (from : int) (toMask : Bitboard.t)
    (piece : int) : list Move.t :=
  map (fun to => Move.make from to
                   (if Bitboard.isSet opponentBB to then Move.Kind.CAPTURE
                    else Move.Kind.POSITIONAL)
                   piece (getPieceAtOrNull p to))
      (Bitboard.extractAll toMask).

(** The pawn part of [generateMoves] (it cannot raise). *)
Definition generatePawnMoves (p : t) (onlyCaptures : bool) : list Move.t :=
  let turnColor := getTurnColor p in
  let black := match turnColor with WHITE => false | BLACK => true end in
  let opponentBB := getColorBitboard p (getOtherPieceColor turnColor) in
  let occupied := getOccupiedBitboard p in
  let fileDirection := 1 - 2 * code turnColor in
  let rankDirection := FILES * fileDirection in
  let turnPawns := getPieceColorBitboard p Piece.PAWN turnColor in
  let lastRow := Bitboard.RANKS.[if black then 0 else LAST_RANK] in
  let pushes :=
    if negb onlyCaptures then
      let doublePawnPushed :=
        Bitboard.and_not
          (Bitboard.and_not
            (Bitboard.shiftLeft
              (Bitboard.and_ (Bitboard.dup turnPawns) Bitboard.RANKS.[if black then 6 else 1])
              (2 * rankDirection))
            occupied)
          (Bitboard.shiftLeft (Bitboard.dup occupied) rankDirection) in
      let positionalPawnMoved :=
        Bitboard.and_not (Bitboard.shiftLeft (Bitboard.dup turnPawns) rankDirection) occupied in
      addPawnMoves p doublePawnPushed (2 * rankDirection) Move.Kind.DOUBLE_PAWN_PUSH
      ++ addPawnMoves p (Bitboard.and_not (Bitboard.dup positionalPawnMoved) lastRow)
           rankDirection Move.Kind.POSITIONAL
      ++ addPawnPromotions p (Bitboard.and_ (Bitboard.dup positionalPawnMoved) lastRow)
           rankDirection false
    else [] in
  let leftFile := Bitboard.FILES.[if black then LAST_FILE else 0] in
  let leftCaptureMovement := rankDirection - fileDirection in
  let pawnLeftCaptured :=
    Bitboard.and_
      (Bitboard.shiftLeft (Bitboard.and_not (Bitboard.dup turnPawns) leftFile) leftCaptureMovement)
      opponentBB in
  let rightFile := Bitboard.FILES.[if black then 0 else LAST_FILE] in
  let rightCaptureMovement := rankDirection + fileDirection in
  let pawnRightCaptured :=
    Bitboard.and_
      (Bitboard.shiftLeft (Bitboard.and_not (Bitboard.dup turnPawns) rightFile) rightCaptureMovement)
      opponentBB in
  let captures :=
    addPawnMoves p (Bitboard.and_not (Bitboard.dup pawnLeftCaptured) lastRow)
      leftCaptureMovement Move.Kind.CAPTURE
    ++ addPawnPromotions p (Bitboard.and_ (Bitboard.dup pawnLeftCaptured) lastRow)
         leftCaptureMovement true
    ++ addPawnMoves p (Bitboard.and_not (Bitboard.dup pawnRightCaptured) lastRow)
         rightCaptureMovement Move.Kind.CAPTURE
    ++ addPawnPromotions p (Bitboard.and_ (Bitboard.dup pawnRightCaptured) lastRow)
         rightCaptureMovement true in
  let enPassant :=
    if canEnPassant p then
      let pawnLeftEnPassant :=
        Bitboard.shiftLeft
          (Bitboard.and_not
            (Bitboard.and_ (Bitboard.makeIndex (getEnPassantSquare p + fileDirection)) turnPawns)
            leftFile)
          leftCaptureMovement in
      let pawnRightEnPassant :=
        Bitboard.shiftLeft
          (Bitboard.and_not
            (Bitboard.and_ (Bitboard.makeIndex (getEnPassantSquare p - fileDirection)) turnPawns)
            rightFile)
          rightCaptureMovement in
      addPawnMoves p pawnLeftEnPassant leftCaptureMovement Move.Kind.EN_PASSANT_CAPTURE
      ++ addPawnMoves p pawnRightEnPassant rightCaptureMovement Move.Kind.EN_PASSANT_CAPTURE
    else [] in
  pushes ++ captures ++ enPassant.

Definition generateMoves (p : t) (onlyCaptures : bool) : result (list Move.t) :=
  let turnColor := getTurnColor p in
  let opponentBB := getColorBitboard p (getOtherPieceColor turnColor) in
  let occupied := getOccupiedBitboard p in
  let pawnMoves := generatePawnMoves p onlyCaptures in
  let mask := Bitboard.not_ (Bitboard.dup (getColorBitboard p turnColor)) in
  let mask := if onlyCaptures then Bitboard.and_ mask opponentBB else mask in
  let turnKnights := Bitboard.dup (getPieceColorBitboard p Piece.KNIGHT turnColor) in
  let* knightMoves :=
    mapM (fun knightPosition =>
            let* km := Bitboard.lookup Bitboard.KNIGHT_MOVEMENTS knightPosition in
            Ok (addNormalMoves p opponentBB knightPosition (Bitboard.and_ km mask) Piece.KNIGHT))
         (Bitboard.extractAll turnKnights) in
  let turnQueens := Bitboard.dup (getPieceColorBitboard p Piece.QUEEN turnColor) in
  let queenMoves :=
    map (fun queenPosition =>
           addNormalMoves p opponentBB queenPosition
             (Bitboard.and_
               (Bitboard.or_ (makeBishopAttackMask (Bitboard.makeIndex queenPosition) occupied)
                             (makeRookAttackMask (Bitboard.makeIndex queenPosition) occupied))
               mask)
             Piece.QUEEN)
        (Bitboard.extractAll turnQueens) in
  let turnBishops := Bitboard.dup (getPieceColorBitboard p Piece.BISHOP turnColor) in
  let bishopMoves :=
    map (fun bishopPosition =>
           addNormalMoves p opponentBB bishopPosition
             (Bitboard.and_ (makeBishopAttackMask (Bitboard.makeIndex bishopPosition) occupied) mask)
             Piece.BISHOP)
        (Bitboard.extractAll turnBishops) in
  let turnRooks := Bitboard.dup (getPieceColorBitboard p Piece.ROOK turnColor) in
  let rookMoves :=
    map (fun rookPosition =>
           addNormalMoves p opponentBB rookPosition
             (Bitboard.and_ (makeRookAttackMask (Bitboard.makeIndex rookPosition) occupied) mask)
             Piece.ROOK)
        (Bitboard.extractAll turnRooks) in
  let kingPosition := getKingPosition p turnColor in
  let* gm := Bitboard.lookup Bitboard.KING_MOVEMENTS kingPosition in
  let kingMoves := addNormalMoves p opponentBB kingPosition (Bitboard.and_ gm mask) Piece.KING in
  let* castles :=
    (if negb onlyCaptures then
       let* ck := canCastle p turnColor true true in
       let* cq := canCastle p turnColor false true in
       Ok ((if ck then [Move.make kingPosition (kingPosition + 2) Move.Kind.KING_CASTLE
                          Piece.KING None] else [])
           ++ (if cq then [Move.make kingPosition (kingPosition - 2) Move.Kind.QUEEN_CASTLE
                             Piece.KING None] else []))
     else Ok []) in
  Ok (pawnMoves ++ concat knightMoves ++ concat queenMoves ++ concat bishopMoves
      ++ concat rookMoves ++ kingMoves ++ castles).

Section WithRandomValues.

Variable RANDOM_VALUES : int -> int.

Definition capturePiece (p : t) (piece : int) (color : PieceColor) (index : int) : t :=
  let p := setBitboard p piece (Bitboard.clearBit (getPieceBitboard p piece) index) in
  let p := setBitboard p (ANY_WHITE + code color)
             (Bitboard.clearBit (getColorBitboard p color) index) in
  let p := setPieceAt p index None in
  setHashKey p (Zobrist.updatePieceColorSquare RANDOM_VALUES (hashKey p) piece color index).

Definition unCapturePiece (p : t) (piece : int) (color : PieceColor) (index : int) : t :=
  let p := setBitboard p piece (Bitboard.setBit (getPieceBitboard p piece) index) in
  let p := setBitboard p (ANY_WHITE + code color)
             (Bitboard.setBit (getColorBitboard p color) index) in
  let p := setPieceAt p index (Some piece) in
  setHashKey p (Zobrist.updatePieceColorSquare RANDOM_VALUES (hashKey p) piece color index).

Definition movePiece (p : t) (piece : int) (color : PieceColor) (from to : int) : t :=
  let fromToBB := Bitboard.or_ (Bitboard.makeIndex from) (Bitboard.makeIndex to) in
  let p := setBitboard p piece (Bitboard.xor_ (getPieceBitboard p piece) fromToBB) in
  let p := setBitboard p (ANY_WHITE + code color)
             (Bitboard.xor_ (getColorBitboard p color) fromToBB) in
  let p := setPieceAt p from None in
  let p := setPieceAt p to (Some piece) in
  let p := setHashKey p
             (Zobrist.updatePieceColorSquare RANDOM_VALUES (hashKey p) piece color from) in
  setHashKey p (Zobrist.updatePieceColorSquare RANDOM_VALUES (hashKey p) piece color to).

Definition castleRook (p : t) (color : PieceColor) (kingSide : bool) : t :=
  let from := getCastlingRookSquare color kingSide in
  let to := from + (if kingSide then Js.neg 2 else 3) in
  movePiece p Piece.ROOK color from to.

Definition unCastleRook (p : t) (color : PieceColor) (kingSide : bool) : t :=
  let to := getCastlingRookSquare color kingSide in
  let from := to + (if kingSide then Js.neg 2 else 3) in
  movePiece p Piece.ROOK color from to.

Definition promotePiece (p : t) (pieceOld pieceNew : int) (color : PieceColor) (index : int)
    : t :=
  let p := setBitboard p pieceOld (Bitboard.clearBit (getPieceBitboard p pieceOld) index) in
  let p := setBitboard p pieceNew (Bitboard.setBit (getPieceBitboard p pieceNew) index) in
  let p := setPieceAt p index (Some pieceNew) in
  let p := setHashKey p
             (Zobrist.updatePieceColorSquare RANDOM_VALUES (hashKey p) pieceOld color index) in
  setHashKey p (Zobrist.updatePieceColorSquare RANDOM_VALUES (hashKey p) pieceNew color index).

Definition updatePieces (p : t) (move : Move.t) : t :=
  let p := if Move.isCapture move
           then capturePiece p (Move.getCapturedPiece move)
                  (getOtherPieceColor (getTurnColor p)) (Move.getCaptureSquare move)
           else p in
  let p := if Move.isCastle move
           then castleRook p (getTurnColor p) (Move.getKind move =? Move.Kind.KING_CASTLE)
           else p in
  let p := movePiece p (Move.getPiece move) (getTurnColor p) (Move.getFrom move)
             (Move.getTo move) in
  if Move.isPromotion move
  then promotePiece p Piece.PAWN (Move.getPromotedPiece move) (getTurnColor p) (Move.getTo move)
  else p.

Definition revertPieces (p : t) (move : Move.t) : t :=
  let p := if Move.isPromotion move
           then promotePiece p (Move.getPromotedPiece move) Piece.PAWN (getTurnColor p)
                  (Move.getTo move)
           else p in
  let p := movePiece p (Move.getPiece move) (getTurnColor p) (Move.getTo move)
             (Move.getFrom move) in
  let p := if Move.isCastle move
           then unCastleRook p (getTurnColor p) (Move.getKind move =? Move.Kind.KING_CASTLE)
           else p in
  if Move.isCapture move
  then unCapturePiece p (Move.getCapturedPiece move) (getOtherPieceColor (getTurnColor p))
         (Move.getCaptureSquare move)
  else p.

(** [isMoveLegal] mutates the position and reverts it; the position it
    leaves is returned with the answer. *)
Definition isMoveLegal (p : t) (move : Move.t) : result (bool * t) :=
  let p := updatePieces p move in
  let* kingInCheck := isKingInCheck p in
  let p := revertPieces p move in
  Ok (negb kingInCheck, p).

(** [moves.filter(Chess.Position.prototype.isMoveLegal, this)] *)
Fixpoint filterLegal (moves : list Move.t) (p : t) : result (list Move.t * t) :=
  match moves with
  | [] => Ok ([], p)
  | move :: rest =>
      let* '(legal, p) := isMoveLegal p move in
      let* '(kept, p) := filterLegal rest p in
      Ok (if legal : bool then move :: kept else kept, p)
  end.

Definition getMoves (p : t) (pseudoLegal onlyCaptures : bool) : result (list Move.t * t) :=
  let* moves := generateMoves p onlyCaptures in
  if pseudoLegal then Ok (moves, p) else filterLegal moves p.

Definition updateHashKey (p : t) : t :=
  let h := Zobrist.make 0 0 in
  let h := if Js.truthy (code (getTurnColor p)) then Zobrist.updateTurn RANDOM_VALUES h else h in
  let h :=
    fold_left
      (fun h color =>
         fold_left
           (fun h piece =>
              Zobrist.updatePieceColorBitboard RANDOM_VALUES h piece color
                (getPieceColorBitboard p piece color))
           [Piece.PAWN; Piece.KNIGHT; Piece.BISHOP; Piece.ROOK; Piece.QUEEN; Piece.KING] h)
      [WHITE; BLACK] h in
  let h := Zobrist.updateCastlingRights RANDOM_VALUES h (castlingRights p) in
  let h := Zobrist.updateEnPassantSquare RANDOM_VALUES h (enPassantSquare p) in
  setHashKey p h.

(** The constructor [Chess.Position()]. *)
Definition create : t :=
  let I := Bitboard.makeIndex in
  let p :=
    mk (Zobrist.make 0 0)
       (arrayOf
          [ Bitboard.or_ (Bitboard.dup Bitboard.RANKS.[1]) Bitboard.RANKS.[6];
            Bitboard.or_ (Bitboard.or_ (Bitboard.or_ (I 1) (I 6)) (I 57)) (I 62);
            Bitboard.or_ (Bitboard.or_ (Bitboard.or_ (I 2) (I 5)) (I 58)) (I 61);
            Bitboard.or_ (Bitboard.or_ (Bitboard.or_ (I 0) (I 7)) (I 56)) (I 63);
            Bitboard.or_ (I 3) (I 59);
            Bitboard.or_ (I 4) (I 60);
            Bitboard.or_ (Bitboard.dup Bitboard.RANKS.[0]) Bitboard.RANKS.[1];
            Bitboard.or_ (Bitboard.dup Bitboard.RANKS.[6]) Bitboard.RANKS.[7] ]
          Bitboard.ZERO)
       (PArray.make 0 None) WHITE 15 (Js.neg 1) 0 [] [] [] None in
  let p := fillPiecesFromBitboards p in
  let p := updateHashKey p in
  setHashHistory p [].

Definition clearCastlingRight (p : t) (color : PieceColor) (kingSide : bool) : t :=
  let p := setHashKey p
             (Zobrist.updateCastlingRights RANDOM_VALUES (hashKey p) (castlingRights p)) in
  let p := setCastlingRights p
             (castlingRights p land Js.not (1 << Js.count (getCastlingIndex color kingSide))) in
  setHashKey p (Zobrist.updateCastlingRights RANDOM_VALUES (hashKey p) (castlingRights p)).

Definition makeMove (p : t) (move : Move.t) : result (bool * t) :=
  let p := setHashHistory p (Zobrist.dup (hashKey p) :: hashHistory p) in
  let p := updatePieces p move in
  let* inCheck := isKingInCheck p in
  if inCheck then
    let p := revertPieces p move in
    let p := setHashHistory p (tl (hashHistory p)) in
    Ok (false, p)
  else
    let p := setMadeMoves p (move :: madeMoves p) in
    let p := setIrreversibleHistory p (enPassantSquare p :: irreversibleHistory p) in
    let p := setIrreversibleHistory p (castlingRights p :: irreversibleHistory p) in
    let p := setIrreversibleHistory p (halfmoveClock p :: irreversibleHistory p) in
    let p := setHashKey p
               (Zobrist.updateEnPassantSquare RANDOM_VALUES (hashKey p) (enPassantSquare p)) in
    let p := if Move.getKind move =? Move.Kind.DOUBLE_PAWN_PUSH
             then setEnPassantSquare p (Move.getTo move)
             else setEnPassantSquare p (Js.neg 1) in
    let p := setHashKey p
               (Zobrist.updateEnPassantSquare RANDOM_VALUES (hashKey p) (enPassantSquare p)) in
    let turnColor := getTurnColor p in
    let p :=
      if Move.getPiece move =? Piece.KING then
        clearCastlingRight (clearCastlingRight p turnColor true) turnColor false
      else if Move.getPiece move =? Piece.ROOK then
        if Move.getFrom move =? getCastlingRookSquare turnColor true
        then clearCastlingRight p turnColor true
        else if Move.getFrom move =? getCastlingRookSquare turnColor false
        then clearCastlingRight p turnColor false
        else p
      else p in
    let otherColor := getOtherPieceColor turnColor in
    let p :=
      if Move.getCapturedPiece move =? Piece.ROOK then
        if Move.getCaptureSquare move =? getCastlingRookSquare otherColor true
        then clearCastlingRight p otherColor true
        else if Move.getCaptureSquare move =? getCastlingRookSquare otherColor false
        then clearCastlingRight p otherColor false
        else p
      else p in
    let p := if Move.isCapture move || (Move.getPiece move =? Piece.PAWN)
             then setHalfmoveClock p 0
             else setHalfmoveClock p (halfmoveClock p + 1) in
    let p := setTurn p otherColor in
    let p := setHashKey p (Zobrist.updateTurn RANDOM_VALUES (hashKey p)) in
    Ok (true, p).

Definition getMadeMoveCount (p : t) : nat := List.length (madeMoves p).
Definition canUndo (p : t) : bool := negb (Nat.eqb (getMadeMoveCount p) 0).

Definition getLastMove (p : t) : option Move.t :=
  if negb (canUndo p) then None else hd_error (madeMoves p).

(** [unmakeMove] writes the popped clock to [this.halfMoveClock].  With
    [irreversibleHistory] shorter than three entries the pops would
    store [undefined] ([Unmodelled]). *)
Definition unmakeMove (p : t) : result (option Move.t * t) :=
  match madeMoves p with
  | [] => Ok (None, p)
  | move :: rest =>
      let p := setMadeMoves p rest in
      let p := setTurn p (getOtherPieceColor (getTurnColor p)) in
      let p := setHashKey p (Zobrist.updateTurn RANDOM_VALUES (hashKey p)) in
      let p := revertPieces p move in
      match irreversibleHistory p with
      | clock :: rights :: square :: history =>
          let p := setHalfMoveClock p (Some clock) in
          let p := setHashKey p
                     (Zobrist.updateCastlingRights RANDOM_VALUES (hashKey p) (castlingRights p)) in
          let p := setCastlingRights p rights in
          let p := setHashKey p
                     (Zobrist.updateCastlingRights RANDOM_VALUES (hashKey p) (castlingRights p)) in
          let p := setHashKey p
                     (Zobrist.updateEnPassantSquare RANDOM_VALUES (hashKey p) (enPassantSquare p)) in
          let p := setEnPassantSquare p square in
          let p := setHashKey p
                     (Zobrist.updateEnPassantSquare RANDOM_VALUES (hashKey p) (enPassantSquare p)) in
          let p := setIrreversibleHistory p history in
          let p := setHashHistory p (tl (hashHistory p)) in
          Ok (Some move, p)
      | _ => Unmodelled
      end
  end.

Definition getStatus (p : t) : result (Status * t) :=
  let* '(moves, p) := getMoves p false false in
  match moves with
  | [] =>
      let* inCheck := isKingInCheck p in
      Ok (if inCheck : bool then CHECKMATE else STALEMATE_DRAW, p)
  | _ :: _ =>
      if isFiftyMoveRuleDraw p then Ok (FIFTY_MOVE_RULE_DRAW, p)
      else if isThreefoldRepetitionRuleDraw p then Ok (THREEFOLD_REPETITION_RULE_DRAW, p)
      else if isInsufficientMaterialDraw p then Ok (INSUFFICIENT_MATERIAL_DRAW, p)
      else Ok (NORMAL, p)
  end.

(** The callback of [forEach] in [perft]: [acc] holds [nodes] and the
    position so far, [rec] is [perft(depth - 1, .)]. *)
Definition perftStep (rec : t -> result (Z * t)) (acc : result (Z * t)) (move : Move.t)
    : result (Z * t) :=
  let* '(nodes, p) := acc in
  let* '(made, p) := makeMove p move in
  if made : bool then
    let* '(n, p) := rec p in
    let* '(_, p) := unmakeMove p in
    Ok ((nodes + n)%Z, p)
  else Ok (nodes, p).

(** [Chess.Position.perft(depth, chessPosition)] for a position that is
    given; [depth] counts down to [0]. *)
Fixpoint perftFrom (depth : nat) (p : t) : result (Z * t) :=
  match depth with
  | O => Ok (1%Z, p)
  | S depth' =>
      let* '(moves, p) := getMoves p true false in
      fold_left (perftStep (perftFrom depth')) moves (Ok (0%Z, p))
  end.

(** [Chess.Position.perft(depth)]: the position defaults to a new one. *)
Definition perft (depth : nat) (chessPosition : option t) : result Z :=
  match depth with
  | O => Ok 1%Z
  | _ =>
      let p := match chessPosition with Some p => p | None => create end in
      let* '(nodes, _) := perftFrom depth p in
      Ok nodes
  end.

End WithRandomValues.

End Position.


(** ** ai.js *)
Module AI.
Import Chess.

(** A JavaScript number that is an integer, [-Infinity] or [Infinity]
    (the bounds [alpha] and [beta] of the search). *)
Inductive Num : Type :=
| NegInfinity
| Finite (z : Z)
| Infinity.

(** [a >= b], [a <= b], [a > b] and [a < b] *)
Definition ge (a b : Num) : bool :=
  match a, b with
  | _, NegInfinity => true
  | Infinity, _ => true
  | Finite x, Finite y => (y <=? x)%Z
  | _, _ => false
  end.
Definition le (a b : Num) : bool := ge b a.
Definition gt (a b : Num) : bool := negb (le a b).
Definition lt (a b : Num) : bool := negb (ge a b).

Definition PIECE_VALUES : array Z :=
  Eval vm_compute in arrayOf [100; 300; 300; 500; 900; 20000]%Z 0%Z.

Definition PIECE_SQUARE_TABLES : array (array Z) :=
  Eval vm_compute in
  arrayOf
   [
    (* pawn *)
    arrayOf
     [0; 0; 0; 0; 0; 0; 0; 0;
      50; 50; 50; 50; 50; 50; 50; 50;
      10; 10; 20; 30; 30; 20; 10; 10;
      5; 5; 10; 25; 25; 10; 5; 5;
      0; 0; 0; 20; 20; 0; 0; 0;
      5; (-5); (-10); 0; 0; (-10); (-5); 5;
      5; 10; 10; (-20); (-20); 10; 10; 5;
      0; 0; 0; 0; 0; 0; 0; 0]%Z 0%Z;
    (* knight *)
    arrayOf
     [(-50); (-40); (-30); (-30); (-30); (-30); (-40); (-50);
      (-40); (-20); 0; 0; 0; 0; (-20); (-40);
      (-30); 0; 10; 15; 15; 10; 0; (-30);
      (-30); 5; 15; 20; 20; 15; 5; (-30);
      (-30); 0; 15; 20; 20; 15; 0; (-30);
      (-30); 5; 10; 15; 15; 10; 5; (-30);
      (-40); (-20); 0; 5; 5; 0; (-20); (-40);
      (-50); (-40); (-30); (-30); (-30); (-30); (-40); (-50)]%Z 0%Z;
    (* bishop *)
    arrayOf
     [(-20); (-10); (-10); (-10); (-10); (-10); (-10); (-20);
      (-10); 0; 0; 0; 0; 0; 0; (-10);
      (-10); 0; 5; 10; 10; 5; 0; (-10);
      (-10); 5; 5; 10; 10; 5; 5; (-10);
      (-10); 0; 10; 10; 10; 10; 0; (-10);
      (-10); 10; 10; 10; 10; 10; 10; (-10);
      (-10); 5; 0; 0; 0; 0; 5; (-10);
      (-20); (-10); (-10); (-10); (-10); (-10); (-10); (-20)]%Z 0%Z;
    (* rook *)
    arrayOf
     [0; 0; 0; 0; 0; 0; 0; 0;
      5; 10; 10; 10; 10; 10; 10; 5;
      (-5); 0; 0; 0; 0; 0; 0; (-5);
      (-5); 0; 0; 0; 0; 0; 0; (-5);
      (-5); 0; 0; 0; 0; 0; 0; (-5);
      (-5); 0; 0; 0; 0; 0; 0; (-5);
      (-5); 0; 0; 0; 0; 0; 0; (-5);
      0; 0; 0; 5; 5; 0; 0; 0]%Z 0%Z;
    (* queen *)
    arrayOf
     [(-20); (-10); (-10); (-5); (-5); (-10); (-10); (-20);
      (-10); 0; 0; 0; 0; 0; 0; (-10);
      (-10); 0; 5; 5; 5; 5; 0; (-10);
      (-5); 0; 5; 5; 5; 5; 0; (-5);
      0; 0; 5; 5; 5; 5; 0; (-5);
      (-10); 5; 5; 5; 5; 5; 0; (-10);
      (-10); 0; 5; 0; 0; 0; 0; (-10);
      (-20); (-10); (-10); (-5); (-5); (-10); (-10); (-20)]%Z 0%Z;
    (* king middle game *)
    arrayOf
     [(-30); (-40); (-40); (-50); (-50); (-40); (-40); (-30);
      (-30); (-40); (-40); (-50); (-50); (-40); (-40); (-30);
      (-30); (-40); (-40); (-50); (-50); (-40); (-40); (-30);
      (-30); (-40); (-40); (-50); (-50); (-40); (-40); (-30);
      (-20); (-30); (-30); (-40); (-40); (-30); (-30); (-20);
      (-10); (-20); (-20); (-20); (-20); (-20); (-20); (-10);
      20; 20; 0; 0; 0; 0; 20; 20;
      20; 30; 10; 0; 0; 10; 30; 20]%Z 0%Z
   ] (PArray.make 0 0%Z).

Definition BISHOP_PAIR_VALUE : Z := (PIECE_VALUES.[Piece.PAWN] / 2)%Z.

(** Sum of [f piece] for the pieces of a loop. *)
Definition sumOver {A : Type} (l : list A) (f : A -> Z) : Z :=
  fold_left (fun value x => (value + f x)%Z) l 0%Z.

Definition getMaterialValue (p : Position.t) (color : PieceColor) : Z :=
  let value :=
    sumOver [Piece.PAWN; Piece.KNIGHT; Piece.BISHOP; Piece.ROOK; Piece.QUEEN]
      (fun piece =>
         (to_Z (Bitboard.popcnt (Position.getPieceColorBitboard p piece color))
          * PIECE_VALUES.[piece])%Z) in
  if 1 <? Bitboard.popcnt (Position.getPieceColorBitboard p Piece.BISHOP color)
  then (value + BISHOP_PAIR_VALUE)%Z
  else value.

Definition evaluateMaterial (p : Position.t) : Z :=
  (getMaterialValue p WHITE - getMaterialValue p BLACK)%Z.

Definition getPieceSquareValue (p : Position.t) (color : PieceColor) : Z :=
  sumOver [Piece.PAWN; Piece.KNIGHT; Piece.BISHOP; Piece.ROOK; Piece.QUEEN; Piece.KING]
    (fun piece =>
       sumOver (Bitboard.extractAll (Bitboard.dup (Position.getPieceColorBitboard p piece color)))
         (fun index =>
            PIECE_SQUARE_TABLES.[piece].[if Js.truthy (code color) then index
                                         else 56 lxor index])).

Definition evaluateLocations (p : Position.t) : Z :=
  (getPieceSquareValue p WHITE - getPieceSquareValue p BLACK)%Z.

Definition evaluate (p : Position.t) : Z :=
  (evaluateMaterial p + evaluateLocations p)%Z.

Section Search.

Variable RANDOM_VALUES : int -> int.

(** [sortMoves]: [moves.sort(compareMoves)] orders the moves by a score
    that is a floating-point number; the order it produces is taken as
    given. *)
Variable sortMoves : list Move.t -> list Move.t.

(** The loop over [moves] in [quiescenceSearch]; [rec] is the recursive
    call.  It returns the value of the node and the position. *)
Fixpoint quiescenceLoop (rec : Position.t -> Num -> Num -> result (Num * Position.t))
    (white : bool) (moves : list Move.t) (p : Position.t) (alpha beta : Num)
    : result (Num * Position.t) :=
  match moves with
  | [] => Ok (if white then alpha else beta, p)
  | move :: rest =>
      let* '(made, p) := Position.makeMove RANDOM_VALUES p move in
      if made : bool then
        let* '(value, p) := rec p alpha beta in
        let* '(_, p) := Position.unmakeMove RANDOM_VALUES p in
        if white then
          if ge value beta then Ok (beta, p)
          else quiescenceLoop rec white rest p (if gt value alpha then value else alpha) beta
        else
          if le value alpha then Ok (alpha, p)
          else quiescenceLoop rec white rest p alpha (if lt value beta then value else beta)
      else quiescenceLoop rec white rest p alpha beta
  end.

(** [quiescenceSearch]; [fuel] bounds the depth of the recursion. *)
Fixpoint quiescenceSearch (fuel : nat) (p : Position.t) (alpha beta : Num)
    : result (Num * Position.t) :=
  match fuel with
  | O => OutOfFuel
  | S fuel' =>
      if Position.isDraw p then Ok (Finite 0, p) else
      let standPatValue := Finite (evaluate p) in
      let white := match Position.getTurnColor p with WHITE => true | BLACK => false end in
      let cut := if white then ge standPatValue beta else le standPatValue alpha in
      if cut then Ok (if white then beta else alpha, p) else
      let alpha := if white then (if gt standPatValue alpha then standPatValue else alpha)
                   else alpha in
      let beta := if white then beta
                  else (if lt standPatValue beta then standPatValue else beta) in
      let* inCheck := Position.isKingInCheck p in
      let* '(moves, p) := Position.getMoves RANDOM_VALUES p true (negb inCheck) in
      quiescenceLoop (quiescenceSearch fuel') white (sortMoves moves) p alpha beta
  end.

(** The loop over [moves] in [alphaBeta]; it returns [legal], the bounds
    and the position. *)
Fixpoint alphaBetaLoop (rec : Position.t -> Num -> Num -> result (Num * Position.t))
    (white : bool) (moves : list Move.t) (p : Position.t) (alpha beta : Num) (legal : bool)
    : result (bool * Num * Num * Position.t) :=
  match moves with
  | [] => Ok (legal, alpha, beta, p)
  | move :: rest =>
      let* '(made, p) := Position.makeMove RANDOM_VALUES p move in
      if made : bool then
        let* '(value, p) := rec p alpha beta in
        let* '(_, p) := Position.unmakeMove RANDOM_VALUES p in
        let alpha := if white then (if gt value alpha then value else alpha) else alpha in
        let beta := if white then beta else (if lt value beta then value else beta) in
        if le beta alpha then Ok (true, alpha, beta, p)
        else alphaBetaLoop rec white rest p alpha beta true
      else alphaBetaLoop rec white rest p alpha beta legal
  end.

(** [alphaBeta]; [depth] is the number of plies left, [fuel] bounds the
    quiescence search below it. *)
Fixpoint alphaBeta (fuel : nat) (depth : nat) (p : Position.t) (alpha beta : Num)
    : result (Num * Position.t) :=
  match depth with
  | O => quiescenceSearch fuel p alpha beta
  | S depth' =>
      let* '(moves, p) := Position.getMoves RANDOM_VALUES p true false in
      let white := match Position.getTurnColor p with WHITE => true | BLACK => false end in
      let* '(legal, alpha, beta, p) :=
        alphaBetaLoop (alphaBeta fuel depth') white (sortMoves moves) p alpha beta false in
      if negb legal then
        let* inCheck := Position.isKingInCheck p in
        if negb inCheck then Ok (Finite 0, p)
        else
          let mate := PIECE_VALUES.[Piece.KING] in
          Ok (if white then Finite (- mate) else Finite mate, p)
      else if Position.isDraw p then Ok (Finite 0, p)
      else Ok (if white then alpha else beta, p)
  end.

(** The loop over the root moves in [search]. *)
Fixpoint searchLoop (fuel : nat) (moves : list Move.t) (p : Position.t) (alpha beta : Num)
    (bestMove : option Move.t) : result (option Move.t * Position.t) :=
  match moves with
  | [] => Ok (bestMove, p)
  | move :: rest =>
      let* '(made, p) := Position.makeMove RANDOM_VALUES p move in
      if made : bool then
        let* '(value, p) := alphaBeta fuel 3 p alpha beta in
        let* '(_, p) := Position.unmakeMove RANDOM_VALUES p in
        match Position.getTurnColor p with
        | WHITE =>
            if gt value alpha then searchLoop fuel rest p value beta (Some move)
            else searchLoop fuel rest p alpha beta bestMove
        | BLACK =>
            if lt value beta then searchLoop fuel rest p alpha value (Some move)
            else searchLoop fuel rest p alpha beta bestMove
        end
      else searchLoop fuel rest p alpha beta bestMove
  end.

(** [Chess.AI.prototype.search]: the move, [None] for [null]. *)
Definition search (fuel : nat) (p : Position.t) : result (option Move.t * Position.t) :=
  let* '(moves, p) := Position.getMoves RANDOM_VALUES p true false in
  searchLoop fuel (sortMoves moves) p NegInfinity Infinity None.

End Search.
End AI.

(** * Proof support: definitions *)

(** ** Positions that differ in their hash only *)

(** [sameBoard p q]: [p] and [q] agree on everything but [hashKey] and
    [hashHistory]. *)
Definition sameBoard (p q : Position.t) : Prop :=
  Position.bitboards p = Position.bitboards q
  /\ Position.pieces p = Position.pieces q
  /\ Position.turn p = Position.turn q
  /\ Position.castlingRights p = Position.castlingRights q
  /\ Position.enPassantSquare p = Position.enPassantSquare q
  /\ Position.halfmoveClock p = Position.halfmoveClock q
  /\ Position.madeMoves p = Position.madeMoves q
  /\ Position.irreversibleHistory p = Position.irreversibleHistory q
  /\ Position.halfMoveClock p = Position.halfMoveClock q.

(** Two outcomes are of the same kind, with related values. *)
Definition relR {A : Type} (R : A -> A -> Prop) (x y : result A) : Prop :=
  match x, y with
  | Ok a, Ok b => R a b
  | TypeError, TypeError | Unmodelled, Unmodelled | OutOfFuel, OutOfFuel => True
  | _, _ => False
  end.

Definition sameOutcome {A : Type} (x y : A * Position.t) : Prop :=
  fst x = fst y /\ sameBoard (snd x) (snd y).

(** ** The perft count, subtree by subtree *)

(** The table of the hash with every entry [0]. *)
Definition zeroValues : int -> int := fun _ => 0.

(** One root move of a perft run: the position before it, the move, the
    position it leads to, the count and the position that the subtree
    returns, and the position after the move is unmade. *)
Record perftChunk : Type := mkChunk {
  chunkBefore : Position.t;
  chunkMove : Move.t;
  chunkIn : Position.t;
  chunkCount : Z;
  chunkOut : Position.t;
  chunkAfter : Position.t
}.

Fixpoint perftChunks (RV : int -> int) (rec : Position.t -> result (Z * Position.t))
    (moves : list Move.t) (p : Position.t) : list perftChunk :=
  match moves with
  | [] => []
  | move :: rest =>
      match Position.makeMove RV p move with
      | Ok (true, q) =>
          match rec q with
          | Ok (n, q') =>
              match Position.unmakeMove RV q' with
              | Ok (_, p') => mkChunk p move q n q' p' :: perftChunks RV rec rest p'
              | _ => []
              end
          | _ => []
          end
      | _ => []
      end
  end.

Definition initialMoves : list Move.t :=
  Eval vm_compute in
  match Position.generateMoves (Position.create zeroValues) false with
  | Ok moves => moves
  | _ => []
  end.

Definition initialChunks : list perftChunk :=
  Eval vm_compute in
  perftChunks zeroValues (Position.perftFrom zeroValues 3) initialMoves
              (Position.create zeroValues).

(** What [perftChunks] records, as a property of a list of chunks. *)
Fixpoint chunksFrom (RV : int -> int) (rec : Position.t -> result (Z * Position.t))
    (p : Position.t) (chunks : list perftChunk) : Prop :=
  match chunks with
  | [] => True
  | c :: rest =>
      chunkBefore c = p
      /\ Position.makeMove RV p (chunkMove c) = Ok (true, chunkIn c)
      /\ rec (chunkIn c) = Ok (chunkCount c, chunkOut c)
      /\ Position.unmakeMove RV (chunkOut c) = Ok (Some (chunkMove c), chunkAfter c)
      /\ chunksFrom RV rec (chunkAfter c) rest
  end.

(** * Specification-level definitions *)

(** ** Sample moves and positions *)

(** Nb1-a3, a legal move of the initial position. *)
Definition knightToA3 : Move.t :=
  Move.make 1 16 Move.Kind.POSITIONAL Chess.Piece.KNIGHT None.

(** [makeMove] followed, when the move was accepted, by [unmakeMove]. *)
Definition makeThenUnmake (RV : int -> int) (p : Position.t) (move : Move.t)
    : result (bool * Position.t) :=
  let* '(made, q) := Position.makeMove RV p move in
  if made : bool then
    let* '(_, p') := Position.unmakeMove RV q in
    Ok (true, p')
  else Ok (false, q).

(** The position after the given moves were made from the initial
    position, if all of them were accepted. *)
Definition afterMoves (RV : int -> int) (moves : list Move.t) : option Position.t :=
  fold_left
    (fun acc move =>
       match acc with
       | Some p =>
           match Position.makeMove RV p move with
           | Ok (true, q) => Some q
           | _ => None
           end
       | None => None
       end)
    moves (Some (Position.create RV)).

(** 1. f3 e5 2. g4 Qh4#, with the table of the hash set to zero. *)
Definition foolsMate : Position.t :=
  Eval vm_compute in
    match afterMoves zeroValues
            [ Move.make 13 21 Move.Kind.POSITIONAL Chess.Piece.PAWN None;
              Move.make 52 36 Move.Kind.DOUBLE_PAWN_PUSH Chess.Piece.PAWN None;
              Move.make 14 30 Move.Kind.DOUBLE_PAWN_PUSH Chess.Piece.PAWN None;
              Move.make 59 31 Move.Kind.POSITIONAL Chess.Piece.QUEEN None ] with
    | Some p => p
    | None => Position.create zeroValues
    end.

(** The same mate with a hundred reversible half-moves on the clock. *)
Definition foolsMateAtHundred : Position.t := Position.setHalfmoveClock foolsMate 100.

(** ** Occurrences of a hash in the history *)

Definition Zobrist_eq_dec (a b : Zobrist.t) : {a = b} + {a <> b}.
Proof.
  destruct a as [al ah], b as [bl bh].
  destruct (Uint63.eqb al bl) eqn:El; [|right].
  - destruct (Uint63.eqb ah bh) eqn:Eh; [left|right].
    + apply Uint63.eqb_spec in El, Eh. now subst.
    + intros H. injection H as _ H. apply Uint63.eqb_false_spec in Eh. contradiction.
  - intros H. injection H as H _. apply Uint63.eqb_false_spec in El. contradiction.
Defined.

Definition occurrences (h : Zobrist.t) (history : list Zobrist.t) : nat :=
  count_occ Zobrist_eq_dec history h.

(** ** The statuses of a game *)

Definition isDrawStatus (s : Position.Status) : bool :=
  match s with
  | Position.FIFTY_MOVE_RULE_DRAW
  | Position.THREEFOLD_REPETITION_RULE_DRAW
  | Position.INSUFFICIENT_MATERIAL_DRAW => true
  | _ => false
  end.

(** * Proof support: squares and 32-bit words *)

(** The values [>>> 0] leaves as they are. *)
Definition isUint32 (x : int) : Prop := Js.toUint32 x = x.

(** A board whose halves are 32-bit words, as every board the constructor
    [Chess.Bitboard] makes. *)
Definition wellFormed (b : Bitboard.t) : Prop :=
  isUint32 (Bitboard.low b) /\ isUint32 (Bitboard.high b).

(** The indices [0] to [63]. *)
Definition isSquare (index : int) : Prop := (index <? 64) = true.

Definition squares : list int :=
  Eval vm_compute in map (fun n => Uint63.of_Z (Z.of_nat n)) (seq 0 64).

(** The squares of a board that are set, in ascending order. *)
Definition squaresOf (b : Bitboard.t) : list int := filter (Bitboard.isSet b) squares.

(** Bit [n] of a machine integer. *)
Definition tb (x : int) (n : Z) : bool := Z.testbit (Uint63.to_Z x) n.

(** Bit [n] of a board: of the low half below [32], of the high half from
    [32] on. *)
Definition bitAt (b : Bitboard.t) (n : Z) : bool :=
  if (n <? 32)%Z then tb (Bitboard.low b) n else tb (Bitboard.high b) (n - 32).

(** ** Board geometry *)

Definition rankDistance (i j : int) : Z :=
  Z.abs (Uint63.to_Z (Chess.getRank i) - Uint63.to_Z (Chess.getRank j)).

Definition fileDistance (i j : int) : Z :=
  Z.abs (Uint63.to_Z (Chess.getFile i) - Uint63.to_Z (Chess.getFile j)).

(** A knight's step: one rank and two files, or two ranks and one file. *)
Definition knightStep (i j : int) : bool :=
  ((rankDistance i j =? 1)%Z && (fileDistance i j =? 2)%Z)
  || ((rankDistance i j =? 2)%Z && (fileDistance i j =? 1)%Z).

(** A king's step: to a neighbouring square. *)
Definition kingStep (i j : int) : bool :=
  (Z.max (rankDistance i j) (fileDistance i j) =? 1)%Z.

(** ** Kinds of moves *)

Definition memInt (k : int) (l : list int) : bool := existsb (Uint63.eqb k) l.

Definition captureKinds : list int :=
  [ Move.Kind.CAPTURE; Move.Kind.EN_PASSANT_CAPTURE;
    Move.Kind.KNIGHT_PROMOTION_CAPTURE; Move.Kind.BISHOP_PROMOTION_CAPTURE;
    Move.Kind.ROOK_PROMOTION_CAPTURE; Move.Kind.QUEEN_PROMOTION_CAPTURE ].

Definition promotionKinds : list int :=
  [ Move.Kind.KNIGHT_PROMOTION; Move.Kind.BISHOP_PROMOTION;
    Move.Kind.ROOK_PROMOTION; Move.Kind.QUEEN_PROMOTION;
    Move.Kind.KNIGHT_PROMOTION_CAPTURE; Move.Kind.BISHOP_PROMOTION_CAPTURE;
    Move.Kind.ROOK_PROMOTION_CAPTURE; Move.Kind.QUEEN_PROMOTION_CAPTURE ].

Definition castleKinds : list int := [ Move.Kind.KING_CASTLE; Move.Kind.QUEEN_CASTLE ].

(** The piece a pawn becomes by a move of the given kind. *)
Definition promotedPieceOf (kind : int) : int :=
  if memInt kind [Move.Kind.KNIGHT_PROMOTION; Move.Kind.KNIGHT_PROMOTION_CAPTURE]
  then Chess.Piece.KNIGHT
  else if memInt kind [Move.Kind.BISHOP_PROMOTION; Move.Kind.BISHOP_PROMOTION_CAPTURE]
  then Chess.Piece.BISHOP
  else if memInt kind [Move.Kind.ROOK_PROMOTION; Move.Kind.ROOK_PROMOTION_CAPTURE]
  then Chess.Piece.ROOK
  else if memInt kind [Move.Kind.QUEEN_PROMOTION; Move.Kind.QUEEN_PROMOTION_CAPTURE]
  then Chess.Piece.QUEEN
  else Chess.Piece.PAWN.

(** The fourteen kinds [Chess.Move.Kind] names. *)
Definition moveKinds : list int :=
  [ Move.Kind.POSITIONAL; Move.Kind.DOUBLE_PAWN_PUSH; Move.Kind.KING_CASTLE;
    Move.Kind.QUEEN_CASTLE; Move.Kind.CAPTURE; Move.Kind.EN_PASSANT_CAPTURE;
    Move.Kind.KNIGHT_PROMOTION; Move.Kind.BISHOP_PROMOTION; Move.Kind.ROOK_PROMOTION;
    Move.Kind.QUEEN_PROMOTION; Move.Kind.KNIGHT_PROMOTION_CAPTURE;
    Move.Kind.BISHOP_PROMOTION_CAPTURE; Move.Kind.ROOK_PROMOTION_CAPTURE;
    Move.Kind.QUEEN_PROMOTION_CAPTURE ].

(** ** Hash keys *)

(** A key whose halves are 32-bit words, as every key the constructor
    [Chess.Zobrist] makes. *)
Definition keyWellFormed (z : Zobrist.t) : Prop :=
  isUint32 (Zobrist.low z) /\ isUint32 (Zobrist.high z).

(** ** What a move leaves of a position *)

(** The fields of a position that are not the board or its hash. *)
Definition frame (p : Position.t)
    : Chess.PieceColor * int * int * int * list Move.t * list int * list Zobrist.t
      * option int :=
  (Position.turn p, Position.castlingRights p, Position.enPassantSquare p,
   Position.halfmoveClock p, Position.madeMoves p, Position.irreversibleHistory p,
   Position.hashHistory p, Position.halfMoveClock p).

(** [Q] holds of whatever the call returned. *)
Definition returns {A : Type} (Q : A -> Prop) (r : result A) : Prop :=
  forall a, r = Ok a -> Q a.

(** The call returned, and [Q] holds of what it returned. *)
Definition yields {A : Type} (Q : A -> Prop) (r : result A) : Prop :=
  exists a, r = Ok a /\ Q a.

(** [l] is [l'] with some entries left out, the others in their order. *)
Inductive subsequence {A : Type} : list A -> list A -> Prop :=
| subsequence_nil : subsequence [] []
| subsequence_keep (x : A) (l l' : list A) :
    subsequence l l' -> subsequence (x :: l) (x :: l')
| subsequence_skip (x : A) (l l' : list A) :
    subsequence l l' -> subsequence l (x :: l').

(** 1. e4 d5 2. Bb5+: Black is in check. *)
Definition blackInCheck : Position.t :=
  Eval vm_compute in
    match afterMoves zeroValues
            [ Move.make 12 28 Move.Kind.DOUBLE_PAWN_PUSH Chess.Piece.PAWN None;
              Move.make 51 35 Move.Kind.DOUBLE_PAWN_PUSH Chess.Piece.PAWN None;
              Move.make 5 33 Move.Kind.POSITIONAL Chess.Piece.BISHOP None ] with
    | Some p => p
    | None => Position.create zeroValues
    end.

(** ... a6, which leaves the black king in check. *)
Definition pawnToA6 : Move.t :=
  Move.make 48 40 Move.Kind.POSITIONAL Chess.Piece.PAWN None.

(** What an accepted [makeMove] of [move] made of the fields of [p]. *)
Definition acceptedFrame (p : Position.t) (move : Move.t) (q : Position.t) : Prop :=
  Position.madeMoves q = move :: Position.madeMoves p
  /\ Position.irreversibleHistory q
     = Position.halfmoveClock p :: Position.castlingRights p :: Position.enPassantSquare p
       :: Position.irreversibleHistory p
  /\ Position.hashHistory q = Zobrist.dup (Position.hashKey p) :: Position.hashHistory p
  /\ Position.turn q = Chess.getOtherPieceColor (Position.turn p)
  /\ Position.enPassantSquare q
     = (if (Move.getKind move =? Move.Kind.DOUBLE_PAWN_PUSH)%uint63
        then Move.getTo move else Js.neg 1)
  /\ Position.halfmoveClock q
     = (if Move.isCapture move || (Move.getPiece move =? Chess.Piece.PAWN)%uint63
        then 0 else Position.halfmoveClock p + 1)%uint63
  /\ (Position.castlingRights q land Position.castlingRights p)%uint63
     = Position.castlingRights q
  /\ Position.halfMoveClock q = Position.halfMoveClock p.

(** What [unmakeMove] returned, [o], and the position [q] it left of [p]. *)
Definition unmadeFrame (p : Position.t) (o : option Move.t) (q : Position.t) : Prop :=
  match o with
  | None => Position.madeMoves p = [] /\ q = p
  | Some move =>
      exists clock rights square,
        Position.madeMoves p = move :: Position.madeMoves q
        /\ Position.irreversibleHistory p
           = clock :: rights :: square :: Position.irreversibleHistory q
        /\ Position.hashHistory q = tl (Position.hashHistory p)
        /\ Position.turn q = Chess.getOtherPieceColor (Position.turn p)
        /\ Position.castlingRights q = rights
        /\ Position.enPassantSquare q = square
        /\ Position.halfMoveClock q = Some clock
        /\ Position.halfmoveClock q = Position.halfmoveClock p
  end.

(** ** The updates of the hash a move makes *)

(** The updates at the given table positions, one after the other. *)
Definition applyUpdates (RV : int -> int) (z : Zobrist.t) (positions : list int) : Zobrist.t :=
  fold_left (Zobrist.update RV) positions z.

(** The table position [updatePieceColorSquare] updates. *)
Definition squarePosition (piece : int) (color : Chess.PieceColor) (index : int) : int :=
  (Zobrist.Position.PIECE_COLOR_SQUARE + piece + Chess.code color * 6 + index * 6 * 2)%uint63.

(** The table positions [updatePieces] updates for a move of the side
    [turn], in its order: capture, rook of a castle, the piece, promotion. *)
Definition pieceUpdates (turn : Chess.PieceColor) (move : Move.t) : list int :=
  (if Move.isCapture move
   then [squarePosition (Move.getCapturedPiece move) (Chess.getOtherPieceColor turn)
           (Move.getCaptureSquare move)]
   else [])
  ++ (if Move.isCastle move
      then
        let kingSide := (Move.getKind move =? Move.Kind.KING_CASTLE)%uint63 in
        let from := Position.getCastlingRookSquare turn kingSide in
        let to := (from + (if kingSide then Js.neg 2 else 3))%uint63 in
        [squarePosition Chess.Piece.ROOK turn from; squarePosition Chess.Piece.ROOK turn to]
      else [])
  ++ [squarePosition (Move.getPiece move) turn (Move.getFrom move);
      squarePosition (Move.getPiece move) turn (Move.getTo move)]
  ++ (if Move.isPromotion move
      then [squarePosition Chess.Piece.PAWN turn (Move.getTo move);
            squarePosition (Move.getPromotedPiece move) turn (Move.getTo move)]
      else []).

(** The table position of a set of castling rights, of the turn, and of
    an en-passant square (none when there is no such square). *)
Definition rightsPosition (castlingRights : int) : int :=
  (Zobrist.Position.CASTLING_RIGHTS + castlingRights)%uint63.

Definition enPassantUpdates (enPassantSquare : int) : list int :=
  if Js.le 0 enPassantSquare
  then [(Zobrist.Position.EN_PASSANT_FILE + Chess.getFile enPassantSquare)%uint63]
  else [].

(** Every table position occurs an even number of times. *)
Definition evenUpdates (positions : list int) : Prop :=
  forall x, Nat.even (count_occ Uint63.eqs positions x) = true.

(** ** Auxiliary notions of the proofs *)

(** [k] is the position of the lowest set bit of [v]. *)
Definition lowestAt (v k : Z) : Prop :=
  (0 <= k)%Z /\ Z.testbit v k = true /\ forall j, (0 <= j < k)%Z -> Z.testbit v j = false.

(** The square with the given number. *)
Definition squareOfNat (n : nat) : int := Uint63.of_Z (Z.of_nat n).

(** [x] has the fields of [y], but for castling rights it may have lost. *)
Definition keepsButRights (y x : Position.t) : Prop :=
  Position.turn x = Position.turn y
  /\ (forall r, (Position.castlingRights y land r)%uint63 = Position.castlingRights y ->
                (Position.castlingRights x land r)%uint63 = Position.castlingRights x)
  /\ Position.enPassantSquare x = Position.enPassantSquare y
  /\ Position.halfmoveClock x = Position.halfmoveClock y
  /\ Position.madeMoves x = Position.madeMoves y
  /\ Position.irreversibleHistory x = Position.irreversibleHistory y
  /\ Position.hashHistory x = Position.hashHistory y
  /\ Position.halfMoveClock x = Position.halfMoveClock y.

(** Castling rights were cleared between [y] and [x], with the updates
    of the hash that go with it. *)
Definition clearsRights (RV : int -> int) (y x : Position.t) : Prop :=
  keepsButRights y x
  /\ exists chain,
       Position.hashKey x = applyUpdates RV (Position.hashKey y) chain
       /\ evenUpdates (chain ++ [rightsPosition (Position.castlingRights y);
                                 rightsPosition (Position.castlingRights x)]).

(** How many of the numbers below [n] satisfy [f]. *)
Fixpoint countBelow (f : nat -> bool) (n : nat) : nat :=
  match n with
  | O => O
  | S n' => (countBelow f n' + (if f n' then 1 else 0))%nat
  end.

(** How many of the [n] low bits of [v] are set. *)
Definition bitsBelow (v : Z) (n : nat) : Z :=
  Z.of_nat (countBelow (fun i => Z.testbit v (Z.of_nat i)) n).

(** The steps of [popcnt32] on one byte [b], with the low four bits [e]
    of the next byte shifted in: every step stays within the byte and
    the last one counts its bits. *)
Definition byteCounted (b : Z) : bool :=
  let m := Z.land (b / 2) 0x55 in
  let s := (b - m)%Z in
  let c := (Z.land s 0x33 + Z.land (s / 4) 0x33)%Z in
  ((0 <=? m) && (m <=? b) && (c <? 256) && (c mod 16 <=? 4) && (c / 16 <=? 4)
   && forallb (fun e => Z.land (c + c / 16 + 16 * e) 0xF =? bitsBelow b 8) [0; 1; 2; 3; 4])%Z.

(** No square of the board is set. *)
Definition noneSet (b : Bitboard.t) : Prop :=
  forall j, isSquare j -> Bitboard.isSet b j = false.

(** The boards of the pawns, knights, bishops, rooks and queens have
    32-bit halves. *)
Definition pieceBoardsWellFormed (p : Position.t) : Prop :=
  Forall (fun piece => wellFormed (Position.getPieceBitboard p piece))
         [Chess.Piece.PAWN; Chess.Piece.KNIGHT; Chess.Piece.BISHOP; Chess.Piece.ROOK;
          Chess.Piece.QUEEN].

(** ** More sample positions *)

(** The initial position after Nb1-a3. *)
Definition afterKnightToA3 : Position.t :=
  Eval vm_compute in
    match afterMoves zeroValues [knightToA3] with
    | Some p => p
    | None => Position.create zeroValues
    end.

(** The position [unmakeMove] leaves of it. *)
Definition unmadeKnightToA3 : Position.t :=
  Eval vm_compute in
    match Position.unmakeMove zeroValues afterKnightToA3 with
    | Ok (_, p) => p
    | _ => afterKnightToA3
    end.

(** The legal moves of the initial position. *)
Definition initialLegalMoves : list Move.t :=
  Eval vm_compute in
    match Position.getMoves zeroValues (Position.create zeroValues) false false with
    | Ok (moves, _) => moves
    | _ => []
    end.

(** The captures Black can try after 1. e4 d5 2. Bb5+. *)
Definition capturesOfBlackInCheck : list Move.t :=
  Eval vm_compute in
    match Position.generateMoves blackInCheck true with
    | Ok moves => moves
    | _ => []
    end.

(** * Properties *)

(** ** Equations of the monad and of the loops *)

Lemma bind_Ok {A B : Type} (a : A) (k : A -> result B) : bind (Ok a) k = k a.
Proof. reflexivity. Qed.

Lemma fold_left_step {A B : Type} (f : A -> B -> A) (x : B) (l : list B) (a : A) :
  fold_left f (x :: l) a = fold_left f l (f a x).
Proof. reflexivity. Qed.

Ltac vm_refl :=
  lazymatch goal with
  | |- @eq ?T _ ?r => vm_cast_no_check (@eq_refl T r)
  end.

(** ** The hash has no influence on the moves *)

Ltac same_start :=
  repeat match goal with
  | H : sameBoard ?p ?q |- _ =>
      destruct p, q; unfold sameBoard in H; cbn in H;
      decompose [and] H; clear H; subst
  end.

Ltac expose :=
  cbv beta iota zeta delta
    [Position.generateMoves Position.generatePawnMoves Position.addPawnMoves
     Position.addPawnPromotions Position.addNormalMoves
     Position.canCastle Position.isCastlingLegal Position.hasCastlingRight
     Position.isAttacked Position.isKingInCheck
     Position.getKingPosition Position.getPieceColorBitboard Position.getOccupiedBitboard
     Position.getColorBitboard Position.getPieceBitboard Position.getTurnColor
     Position.getPieceAtOrNull Position.canEnPassant Position.getEnPassantSquare
     Position.updatePieces Position.revertPieces Position.capturePiece
     Position.unCapturePiece Position.movePiece
     Position.castleRook Position.unCastleRook Position.promotePiece
     Position.clearCastlingRight
     Position.setBitboard Position.setPieceAt Position.setHashKey Position.setBitboards
     Position.setPieces Position.setTurn Position.setCastlingRights
     Position.setEnPassantSquare Position.setHalfmoveClock Position.setMadeMoves
     Position.setIrreversibleHistory Position.setHashHistory Position.setHalfMoveClock
     Position.hashKey Position.bitboards Position.pieces Position.turn
     Position.castlingRights Position.enPassantSquare Position.halfmoveClock
     Position.madeMoves Position.irreversibleHistory Position.hashHistory
     Position.halfMoveClock sameBoard].

Ltac solve_same :=
  lazymatch goal with
  | H : sameBoard ?p ?q |- _ =>
      clear - H; same_start; expose;
      repeat match goal with |- context [if ?c then _ else _] => destruct c end;
      repeat split; reflexivity
  end.

Lemma sameBoard_refl p : sameBoard p p.
Proof. repeat split. Qed.

Lemma isKingInCheck_same p q :
  sameBoard p q -> Position.isKingInCheck p = Position.isKingInCheck q.
Proof. intros H. same_start. expose. reflexivity. Qed.

Lemma generateMoves_same p q onlyCaptures :
  sameBoard p q ->
  Position.generateMoves p onlyCaptures = Position.generateMoves q onlyCaptures.
Proof. intros H. same_start. expose. reflexivity. Qed.

Lemma let_same {B : Type} (R : B -> B -> Prop) (X Y : Position.t) (F G : Position.t -> B) :
  sameBoard X Y -> (forall a b, sameBoard a b -> R (F a) (G b)) ->
  R (let p := X in F p) (let q := Y in G q).
Proof. intros H HF. cbv zeta. auto. Qed.

Lemma let_equal {A B : Type} (R : B -> B -> Prop) (X Y : A) (F G : A -> B) :
  X = Y -> (forall a, R (F a) (G a)) ->
  R (let p := X in F p) (let q := Y in G q).
Proof. intros H HF. cbv zeta. subst. auto. Qed.

Lemma relR_bind {A B : Type} (RA : A -> A -> Prop) (RB : B -> B -> Prop) x y
    (k k' : A -> result B) :
  relR RA x y -> (forall a b, RA a b -> relR RB (k a) (k' b)) ->
  relR RB (bind x k) (bind y k').
Proof. destruct x, y; cbn; auto; tauto. Qed.

Create HintDb same.

Ltac step_same :=
  match goal with
  | |- ?R (let p := ?X in @?F p) (let q := ?Y in @?G q) =>
      first [ apply (let_same R X Y F G);
              [ solve [auto with same | solve_same]
              | let a := fresh "a" in let b := fresh "b" in let Hab := fresh "Hab" in
                intros a b Hab;
                repeat match goal with
                       | H : sameBoard _ _ |- _ =>
                           lazymatch H with Hab => fail | _ => clear H end
                       end ]
            | apply (let_equal R X Y F G);
              [ solve [same_start; expose; reflexivity] | intros ? ] ]
  end; cbv beta.

Section HashIndependence.

Variables RV RV' : int -> int.

Lemma updatePieces_same p q m :
  sameBoard p q -> sameBoard (Position.updatePieces RV p m) (Position.updatePieces RV' q m).
Proof.
  intros H. same_start. unfold Position.updatePieces.
  destruct (Move.isCapture m), (Move.isCastle m), (Move.isPromotion m);
    expose; repeat split; reflexivity.
Qed.

Lemma revertPieces_same p q m :
  sameBoard p q -> sameBoard (Position.revertPieces RV p m) (Position.revertPieces RV' q m).
Proof.
  intros H. same_start. unfold Position.revertPieces.
  destruct (Move.isCapture m), (Move.isCastle m), (Move.isPromotion m);
    expose; repeat split; reflexivity.
Qed.

Hint Resolve updatePieces_same revertPieces_same : same.

Lemma makeMove_same p q m :
  sameBoard p q ->
  relR sameOutcome (Position.makeMove RV p m) (Position.makeMove RV' q m).
Proof.
  intros H. cbv beta delta [Position.makeMove].
  step_same. step_same.
  match goal with H1 : sameBoard _ _ |- _ => rewrite (isKingInCheck_same _ _ H1) end.
  destruct (Position.isKingInCheck _) as [[|] | | |]; cbv beta iota delta [bind];
    try exact I.
  - repeat step_same. split; [reflexivity | assumption].
  - repeat step_same. split; [reflexivity | assumption].
Qed.

Lemma unmakeMove_same p q :
  sameBoard p q -> relR sameOutcome (Position.unmakeMove RV p) (Position.unmakeMove RV' q).
Proof.
  intros H. cbv beta delta [Position.unmakeMove].
  replace (Position.madeMoves q) with (Position.madeMoves p) by (same_start; reflexivity).
  destruct (Position.madeMoves p) as [|move rest].
  - split; [reflexivity | assumption].
  - repeat step_same.
    match goal with
    | Hab : sameBoard ?a ?b |- _ =>
        replace (Position.irreversibleHistory b) with (Position.irreversibleHistory a)
          by (clear - Hab; same_start; reflexivity);
        destruct (Position.irreversibleHistory a) as [|c [|r [|s h]]]; try exact I
    end.
    repeat step_same. split; [reflexivity | assumption].
Qed.

Lemma perftStep_same (rec rec' : Position.t -> result (Z * Position.t)) :
  (forall p q, sameBoard p q -> relR sameOutcome (rec p) (rec' q)) ->
  forall acc acc' m, relR sameOutcome acc acc' ->
  relR sameOutcome (Position.perftStep RV rec acc m) (Position.perftStep RV' rec' acc' m).
Proof.
  intros Hrec acc acc' m Hacc. unfold Position.perftStep.
  apply (relR_bind sameOutcome); [assumption|].
  intros [n p] [n' q] [Hn Hpq]. cbn [fst snd] in *. subst n'.
  apply (relR_bind sameOutcome); [apply makeMove_same; assumption|].
  intros [b p1] [b' q1] [Hb H1]. cbn [fst snd] in *. subst b'.
  destruct b.
  - apply (relR_bind sameOutcome); [apply Hrec; assumption|].
    intros [k p2] [k' q2] [Hk H2]. cbn [fst snd] in *. subst k'.
    apply (relR_bind sameOutcome); [apply unmakeMove_same; assumption|].
    intros [o p3] [o' q3] [_ H3]. split; [reflexivity | assumption].
  - split; [reflexivity | assumption].
Qed.

Lemma perftFrom_same depth : forall p q,
  sameBoard p q ->
  relR sameOutcome (Position.perftFrom RV depth p) (Position.perftFrom RV' depth q).
Proof.
  induction depth as [|d IH]; intros p q H.
  - split; [reflexivity | assumption].
  - cbn [Position.perftFrom]. unfold Position.getMoves.
    rewrite (generateMoves_same p q false H).
    destruct (Position.generateMoves q false) as [moves| | |]; cbn [relR bind]; auto.
    assert (Hacc : relR sameOutcome (Ok (0%Z, p)) (Ok (0%Z, q)))
      by (split; [reflexivity | assumption]).
    revert Hacc. generalize (Ok (0%Z, p)) (Ok (0%Z, q)).
    induction moves as [|m ms IHm]; intros acc acc' Hacc; cbn [fold_left]; auto.
    apply IHm. apply perftStep_same; auto.
Qed.

Lemma create_same : sameBoard (Position.create RV) (Position.create RV').
Proof.
  unfold Position.create, Position.updateHashKey.
  cbv beta iota zeta delta
    [Position.setHashKey Position.setHashHistory
     Position.hashKey Position.bitboards Position.pieces Position.turn
     Position.castlingRights Position.enPassantSquare Position.halfmoveClock
     Position.madeMoves Position.irreversibleHistory Position.hashHistory
     Position.halfMoveClock sameBoard].
  repeat split.
Qed.

End HashIndependence.

(** ** Perft *)

Lemma perftStep_Ok RV rec n p m :
  Position.perftStep RV rec (Ok (n, p)) m
  = bind (Position.makeMove RV p m)
      (fun '(made, p) =>
         if made : bool then
           bind (rec p)
             (fun '(k, p) => bind (Position.unmakeMove RV p)
                               (fun '(_, p) => Ok ((n + k)%Z, p)))
         else Ok (n, p)).
Proof. reflexivity. Qed.

Lemma perftFrom_S RV depth p :
  Position.perftFrom RV (S depth) p
  = bind (Position.getMoves RV p true false)
      (fun '(moves, p) =>
         fold_left (Position.perftStep RV (Position.perftFrom RV depth)) moves (Ok (0%Z, p))).
Proof. reflexivity. Qed.

Lemma perftStep_chunk RV rec n p m q k q' o p' :
  Position.makeMove RV p m = Ok (true, q) ->
  rec q = Ok (k, q') ->
  Position.unmakeMove RV q' = Ok (o, p') ->
  Position.perftStep RV rec (Ok (n, p)) m = Ok ((n + k)%Z, p').
Proof.
  intros Hmake Hrec Hun.
  rewrite perftStep_Ok, Hmake, bind_Ok, Hrec, bind_Ok, Hun, bind_Ok. reflexivity.
Qed.

Lemma chunkCount_sum : forall chunks a,
  fold_left (fun s c => (s + chunkCount c)%Z) chunks a
  = (a + fold_left (fun s c => (s + chunkCount c)%Z) chunks 0)%Z.
Proof.
  induction chunks as [|c cs IH]; intros a; cbn [fold_left].
  - lia.
  - rewrite IH. rewrite (IH (0 + chunkCount c)%Z). lia.
Qed.

Lemma chunks_fold RV rec : forall chunks p n,
  chunksFrom RV rec p chunks ->
  fold_left (Position.perftStep RV rec) (map chunkMove chunks) (Ok (n, p))
  = Ok ((n + fold_left (fun s c => s + chunkCount c) chunks 0)%Z,
        fold_left (fun _ c => chunkAfter c) chunks p).
Proof.
  induction chunks as [|c cs IH]; intros p n H.
  - cbn [map fold_left]. f_equal. f_equal. lia.
  - destruct H as (Hp & Hmake & Hrec & Hun & Hrest).
    cbn [map]. rewrite fold_left_step.
    rewrite (perftStep_chunk _ _ _ _ _ _ _ _ _ _ Hmake Hrec Hun).
    rewrite (IH _ _ Hrest).
    rewrite (fold_left_step (fun s c => (s + chunkCount c)%Z)).
    rewrite (fold_left_step (fun _ c => chunkAfter c)).
    rewrite (chunkCount_sum cs (0 + chunkCount c)%Z).
    f_equal. f_equal. lia.
Qed.

Lemma initialChunks_ok :
  chunksFrom zeroValues (Position.perftFrom zeroValues 3) (Position.create zeroValues)
             initialChunks.
Proof.
  unfold initialChunks.
  cbv beta iota delta [chunksFrom chunkBefore chunkMove chunkIn chunkCount chunkOut
                       chunkAfter].
  repeat match goal with
         | |- _ /\ _ => split
         | |- True => exact I
         | |- _ = _ => vm_refl
         end.
Qed.

Section Perft.

Variable RANDOM_VALUES : int -> int.

(** C3: from the standard initial position, [perft] counts 8902 leaves
    at depth 3 and 197281 leaves at depth 4, whatever the random table
    of the hash is. *)
Theorem perft_initial_position :
  Position.perft RANDOM_VALUES 3 None = Ok 8902%Z
  /\ Position.perft RANDOM_VALUES 4 None = Ok 197281%Z.
Proof.
  split.
  - vm_refl.
  - assert (H0 : Position.perftFrom zeroValues 4 (Position.create zeroValues)
                 = Ok (197281%Z, fold_left (fun _ c => chunkAfter c) initialChunks
                                           (Position.create zeroValues))).
    { assert (Hm : Position.getMoves zeroValues (Position.create zeroValues) true false
                   = Ok (map chunkMove initialChunks, Position.create zeroValues))
        by vm_refl.
      rewrite perftFrom_S, Hm, bind_Ok.
      rewrite (chunks_fold _ _ _ _ _ initialChunks_ok).
      f_equal. }
    pose proof (perftFrom_same RANDOM_VALUES zeroValues 4 _ _
                  (create_same RANDOM_VALUES zeroValues)) as H.
    rewrite H0 in H.
    cbv beta iota zeta delta [Position.perft].
    destruct (Position.perftFrom RANDOM_VALUES 4 (Position.create RANDOM_VALUES))
      as [[n p]| | |]; try contradiction.
    destruct H as [Hn _]. cbn [fst] in Hn. subst n. reflexivity.
Qed.

End Perft.

(** ** Make and unmake *)

(** C1: in the initial position the legal move Nb1-a3 is accepted, but
    after [makeMove] and [unmakeMove] the half-move clock is [1] where it
    was [0]: [unmakeMove] stores the popped clock in a property
    [halfMoveClock] of its own and leaves [halfmoveClock] as the move
    set it.  The table of the hash is arbitrary. *)
Theorem unmakeMove_leaves_clock (RV : int -> int) :
  exists moves p0 p',
    Position.getMoves RV (Position.create RV) false false = Ok (moves, p0)
    /\ In knightToA3 moves
    /\ makeThenUnmake RV (Position.create RV) knightToA3 = Ok (true, p')
    /\ Position.halfmoveClock (Position.create RV) = 0
    /\ Position.halfmoveClock p' = 1
    /\ Position.halfMoveClock p' = Some 0.
Proof.
  eexists. eexists. eexists.
  split; [vm_compute; reflexivity|].
  split; [vm_compute; tauto|].
  split; [vm_compute; reflexivity|].
  repeat split.
Qed.

(** ** Threefold repetition *)

Lemma isEqual_eq (a b : Zobrist.t) : Zobrist.isEqual a b = true <-> a = b.
Proof.
  destruct a as [al ah], b as [bl bh]. unfold Zobrist.isEqual. cbn [Zobrist.low Zobrist.high].
  rewrite andb_true_iff, !Uint63.eqb_spec. split.
  - intros [-> ->]. reflexivity.
  - intros H. injection H as -> ->. split; reflexivity.
Qed.

Lemma count_equal_entries (h : Zobrist.t) (l : list Zobrist.t) (a : Z) :
  fold_left (fun previousValue currentValue =>
               (previousValue + (if Zobrist.isEqual currentValue h then 1 else 0))%Z) l a
  = (a + Z.of_nat (occurrences h l))%Z.
Proof.
  revert a. induction l as [|e l IH]; intros a; cbn [fold_left].
  - unfold occurrences. cbn [count_occ]. lia.
  - rewrite IH. unfold occurrences. cbn [count_occ].
    destruct (Zobrist_eq_dec e h) as [E|E].
    + apply isEqual_eq in E as ->. lia.
    + destruct (Zobrist.isEqual e h) eqn:E'; [apply isEqual_eq in E'; contradiction|lia].
Qed.

Lemma occurrences_rev (h : Zobrist.t) (l : list Zobrist.t) :
  occurrences h (rev l) = occurrences h l.
Proof.
  unfold occurrences. induction l as [|e l IH]; [reflexivity|].
  cbn [rev]. rewrite count_occ_app, IH. cbn [count_occ].
  destruct (Zobrist_eq_dec e h); lia.
Qed.

(** C6: [isThreefoldRepetitionRuleDraw] answers [true] exactly when at
    least three entries of [hashHistory] are equal to the current hash;
    with two such entries it answers [false].  [hashHistory] holds the
    hashes that [makeMove] pushed before each move made. *)
Theorem threefold_repetition_iff (p : Position.t) :
  Position.isThreefoldRepetitionRuleDraw p = true
  <-> 3 <= occurrences (Position.hashKey p) (Position.hashHistory p).
Proof.
  unfold Position.isThreefoldRepetitionRuleDraw.
  rewrite count_equal_entries, occurrences_rev, Z.leb_le. lia.
Qed.

(** ** The status of a game *)

(** C10: when [getMoves] finds no legal move, [getStatus] answers
    checkmate if the king of the side to move is attacked and stalemate
    if it is not, whatever the three draw tests say; when there is a
    legal move it answers the first draw that holds, in the order fifty
    moves, repetition, insufficient material, and normal otherwise; so a
    draw status is only given with a legal move. *)
Theorem getStatus_precedence (RV : int -> int) (p p' : Position.t) (moves : list Move.t) :
  Position.getMoves RV p false false = Ok (moves, p') ->
  (moves = [] ->
   forall inCheck, Position.isKingInCheck p' = Ok inCheck ->
     Position.getStatus RV p
     = Ok (if inCheck : bool then Position.CHECKMATE else Position.STALEMATE_DRAW, p'))
  /\ (moves <> [] ->
      Position.getStatus RV p
      = Ok (if Position.isFiftyMoveRuleDraw p' then Position.FIFTY_MOVE_RULE_DRAW
            else if Position.isThreefoldRepetitionRuleDraw p'
                 then Position.THREEFOLD_REPETITION_RULE_DRAW
            else if Position.isInsufficientMaterialDraw p'
                 then Position.INSUFFICIENT_MATERIAL_DRAW
            else Position.NORMAL, p'))
  /\ (forall s q, Position.getStatus RV p = Ok (s, q) -> isDrawStatus s = true -> moves <> []).
Proof.
  intros Hmoves. unfold Position.getStatus. rewrite Hmoves, bind_Ok.
  repeat split.
  - intros -> inCheck Hcheck. rewrite Hcheck, bind_Ok. reflexivity.
  - intros Hne. destruct moves as [|m ms]; [contradiction|].
    destruct (Position.isFiftyMoveRuleDraw p'); [reflexivity|].
    destruct (Position.isThreefoldRepetitionRuleDraw p'); [reflexivity|].
    destruct (Position.isInsufficientMaterialDraw p'); reflexivity.
  - intros s q Hs Hdraw ->.
    destruct (Position.isKingInCheck p') as [[|]| | |]; cbn [bind] in Hs;
      try discriminate; injection Hs as <- _; discriminate.
Qed.

(** The mate after 1. f3 e5 2. g4 Qh4 is a checkmate although the clock
    stands at a hundred. *)
Lemma getStatus_precedence_witness :
  Position.getMoves zeroValues foolsMateAtHundred false false = Ok ([], foolsMateAtHundred)
  /\ Position.isFiftyMoveRuleDraw foolsMateAtHundred = true
  /\ Position.getStatus zeroValues foolsMateAtHundred
     = Ok (Position.CHECKMATE, foolsMateAtHundred).
Proof.
  assert (H : Position.getMoves zeroValues foolsMateAtHundred false false
              = Ok ([], foolsMateAtHundred)) by (vm_compute; reflexivity).
  split; [exact H|]. split; [vm_compute; reflexivity|].
  apply (proj1 (getStatus_precedence zeroValues foolsMateAtHundred foolsMateAtHundred [] H)
           eq_refl true).
  vm_compute; reflexivity.
Defined.

(** ** Bits of machine integers *)

Lemma testbit_small (a k n : Z) : (0 <= a < 2 ^ k)%Z -> (k <= n)%Z -> Z.testbit a n = false.
Proof.
  intros Ha Hn. assert (0 <= k)%Z.
  { destruct (Z.lt_ge_cases k 0) as [Hk|Hk]; [|exact Hk].
    rewrite (Z.pow_neg_r 2 k Hk) in Ha. lia. }
  rewrite <- (Z.mod_small a (2 ^ k)) by exact Ha.
  apply Z.mod_pow2_bits_high. lia.
Qed.

Lemma to_Z_range (x : int) : (0 <= Uint63.to_Z x < 2 ^ 63)%Z.
Proof. pose proof (Uint63.to_Z_bounded x) as H. exact H. Qed.

Lemma tb_high (x : int) (n : Z) : (63 <= n)%Z -> tb x n = false.
Proof. intros Hn. unfold tb. apply (testbit_small _ 63); [apply to_Z_range|exact Hn]. Qed.

Lemma tb_neg (x : int) (n : Z) : (n < 0)%Z -> tb x n = false.
Proof. intros Hn. unfold tb. apply Z.testbit_neg_r. exact Hn. Qed.

Lemma tb_ext (x y : int) : (forall n, (0 <= n < 63)%Z -> tb x n = tb y n) -> x = y.
Proof.
  intros H. apply Uint63.to_Z_inj. apply Z.bits_inj'. intros n Hn.
  destruct (Z.lt_ge_cases n 63) as [Hlt|Hge].
  - apply H. lia.
  - change (tb x n = tb y n). rewrite !tb_high by exact Hge. reflexivity.
Qed.

Lemma tb_land (x y : int) (n : Z) : tb (x land y) n = tb x n && tb y n.
Proof. unfold tb. rewrite Uint63.land_spec'. apply Z.land_spec. Qed.

Lemma tb_lor (x y : int) (n : Z) : tb (x lor y) n = tb x n || tb y n.
Proof. unfold tb. rewrite Uint63.lor_spec'. apply Z.lor_spec. Qed.

Lemma tb_lxor (x y : int) (n : Z) : tb (x lxor y) n = xorb (tb x n) (tb y n).
Proof. unfold tb. rewrite Uint63.lxor_spec'. apply Z.lxor_spec. Qed.

Lemma tb_lsl (x k : int) (n : Z) :
  tb (x << k) n = (n <? 63)%Z && (Uint63.to_Z k <=? n)%Z && tb x (n - Uint63.to_Z k).
Proof.
  unfold tb. rewrite Uint63.lsl_spec. change wB with (2 ^ 63)%Z.
  pose proof (to_Z_range k) as Hk.
  destruct (Z.ltb_spec n 63) as [Hlt|Hge]; cbn [andb].
  - destruct (Z.lt_ge_cases n 0) as [Hneg|Hpos].
    + rewrite Z.testbit_neg_r by exact Hneg.
      destruct (Z.leb_spec (Uint63.to_Z k) n); [lia|reflexivity].
    + rewrite Z.mod_pow2_bits_low by lia.
      rewrite Z.mul_pow2_bits by lia.
      destruct (Z.leb_spec (Uint63.to_Z k) n) as [Hle|Hgt]; cbn [andb]; [reflexivity|].
      apply Z.testbit_neg_r. lia.
  - apply Z.mod_pow2_bits_high. lia.
Qed.

Lemma tb_lsr (x k : int) (n : Z) : (0 <= n)%Z -> tb (lsr x k) n = tb x (n + Uint63.to_Z k).
Proof.
  intros Hn. unfold tb. rewrite Uint63.lsr_spec.
  pose proof (to_Z_range k) as Hk.
  rewrite Z.div_pow2_bits by lia. reflexivity.
Qed.

(** The signed reading of a small number is the unsigned one. *)
Lemma signed_small (x : int) :
  (Uint63.to_Z x < 2 ^ 62)%Z -> Sint63.to_Z x = Uint63.to_Z x.
Proof.
  intros Hx. unfold Sint63Axioms.to_Z.
  destruct (Uint63.ltbP x Sint63Axioms.min_int) as [_|Hge]; [reflexivity|].
  exfalso. apply Hge. change (Uint63.to_Z Sint63Axioms.min_int) with (2 ^ 62)%Z. exact Hx.
Qed.

Lemma signed_bits (x : int) (n : Z) :
  (0 <= n < 63)%Z -> Z.testbit (Sint63.to_Z x) n = tb x n.
Proof.
  intros Hn. unfold tb. rewrite <- (Sint63.to_Z_mod_Uint63to_Z x).
  change wB with (2 ^ 63)%Z. rewrite Z.mod_pow2_bits_low by lia. reflexivity.
Qed.

(** Below the sign bit the arithmetic shift reads the same bits as the
    logical one. *)
Lemma tb_asr (x k : int) (n : Z) :
  (0 <= n)%Z -> (Uint63.to_Z k < 2 ^ 62)%Z -> (n + Uint63.to_Z k < 63)%Z ->
  tb (asr x k) n = tb x (n + Uint63.to_Z k).
Proof.
  intros Hn Hk Hnk. pose proof (to_Z_range k) as Hk0.
  rewrite <- (signed_bits (asr x k)) by lia.
  rewrite Sint63.asr_spec, (signed_small k Hk).
  rewrite Z.div_pow2_bits by lia.
  apply signed_bits. lia.
Qed.

Lemma asr_lsr (x k : int) :
  (Uint63.to_Z x < 2 ^ 62)%Z -> (Uint63.to_Z k < 2 ^ 62)%Z -> asr x k = lsr x k.
Proof.
  intros Hx Hk. pose proof (to_Z_range k) as Hk0. pose proof (to_Z_range x) as Hx0.
  apply Uint63.to_Z_inj. rewrite Uint63.lsr_spec.
  rewrite <- (Sint63.to_Z_mod_Uint63to_Z (asr x k)).
  rewrite Sint63.asr_spec, (signed_small k Hk), (signed_small x Hx).
  change wB with (2 ^ 63)%Z. apply Z.mod_small.
  split; [apply Z.div_pos; lia|].
  apply Z.le_lt_trans with (Uint63.to_Z x); [|lia].
  apply Z.div_le_upper_bound; [lia|].
  assert (1 <= 2 ^ Uint63.to_Z k)%Z by (apply Z.pow_le_mono_r with (b := 0%Z); lia). nia.
Qed.

Lemma tb_toUint32 (x : int) (n : Z) : tb (Js.toUint32 x) n = (n <? 32)%Z && tb x n.
Proof.
  unfold Js.toUint32. rewrite tb_land.
  assert (Hmask : tb 4294967295 n = (0 <=? n)%Z && (n <? 32)%Z).
  { unfold tb. change (Uint63.to_Z 4294967295) with (Z.ones 32).
    destruct (Z.lt_ge_cases n 0) as [Hneg|Hpos].
    - rewrite Z.testbit_neg_r by exact Hneg. destruct (Z.leb_spec 0 n); [lia|reflexivity].
    - destruct (Z.ltb_spec n 32) as [Hlt|Hge].
      + rewrite Z.ones_spec_low by lia. destruct (Z.leb_spec 0 n); [reflexivity|lia].
      + rewrite Z.ones_spec_high by lia. rewrite andb_false_r. reflexivity. }
  rewrite Hmask.
  destruct (Z.lt_ge_cases n 0) as [Hneg|Hpos].
  - rewrite (tb_neg x n Hneg). rewrite !andb_false_r. reflexivity.
  - destruct (Z.leb_spec 0 n); [|lia]. cbn [andb].
    destruct (tb x n), (n <? 32)%Z; reflexivity.
Qed.

Lemma tb_one (n : Z) : tb 1 n = (n =? 0)%Z.
Proof.
  unfold tb. change (Uint63.to_Z 1) with 1%Z.
  destruct (Z.eqb_spec n 0) as [->|Hne]; [reflexivity|].
  destruct (Z.lt_ge_cases n 0) as [Hneg|Hpos].
  - apply Z.testbit_neg_r. exact Hneg.
  - apply (testbit_small 1 1 n); lia.
Qed.

Lemma tb_zero (n : Z) : tb 0 n = false.
Proof. unfold tb. change (Uint63.to_Z 0) with 0%Z. apply Z.testbit_0_l. Qed.

Lemma tb_bit (k : int) (n : Z) : tb (1 << k) n = (n <? 63)%Z && (n =? Uint63.to_Z k)%Z.
Proof.
  rewrite tb_lsl, tb_one. pose proof (to_Z_range k).
  destruct (Z.ltb_spec n 63), (Z.leb_spec (Uint63.to_Z k) n), (Z.eqb_spec (n - Uint63.to_Z k) 0),
    (Z.eqb_spec n (Uint63.to_Z k)); cbn [andb]; try reflexivity; lia.
Qed.

(** [Js.not] complements the 62 low bits; the engine reads the low 32
    bits of the result only. *)
Lemma tb_not (x : int) (n : Z) :
  tb (Js.not x) n = if (0 <=? n)%Z && (n <? 62)%Z then negb (tb x n) else tb x n.
Proof.
  unfold Js.not. rewrite tb_lxor.
  assert (Hmask : tb Sint63.max_int n = (0 <=? n)%Z && (n <? 62)%Z).
  { unfold tb. change (Uint63.to_Z Sint63.max_int) with (Z.ones 62).
    destruct (Z.lt_ge_cases n 0) as [Hneg|Hpos].
    - rewrite Z.testbit_neg_r by exact Hneg. destruct (Z.leb_spec 0 n); [lia|reflexivity].
    - destruct (Z.ltb_spec n 62) as [Hlt|Hge].
      + rewrite Z.ones_spec_low by lia. destruct (Z.leb_spec 0 n); [reflexivity|lia].
      + rewrite Z.ones_spec_high by lia. rewrite andb_false_r. reflexivity. }
  rewrite Hmask.
  destruct ((0 <=? n)%Z && (n <? 62)%Z); destruct (tb x n); reflexivity.
Qed.

(** *** 32-bit words *)

Lemma isUint32_iff (x : int) : isUint32 x <-> (Uint63.to_Z x < 2 ^ 32)%Z.
Proof.
  unfold isUint32, Js.toUint32. split.
  - intros H. rewrite <- H. rewrite Uint63.land_spec'.
    change (Uint63.to_Z 4294967295) with (Z.ones 32). rewrite Z.land_ones by lia.
    apply Z.mod_pos_bound. lia.
  - intros H. apply Uint63.to_Z_inj. rewrite Uint63.land_spec'.
    change (Uint63.to_Z 4294967295) with (Z.ones 32). rewrite Z.land_ones by lia.
    apply Z.mod_small. pose proof (to_Z_range x). lia.
Qed.

Lemma isUint32_toUint32 (x : int) : isUint32 (Js.toUint32 x).
Proof.
  apply tb_ext. intros n Hn. rewrite !tb_toUint32.
  destruct (n <? 32)%Z; reflexivity.
Qed.

Lemma tb_uint32_high (x : int) (n : Z) : isUint32 x -> (32 <= n)%Z -> tb x n = false.
Proof.
  intros H Hn. apply isUint32_iff in H. unfold tb.
  apply (testbit_small _ 32); [pose proof (to_Z_range x); lia|exact Hn].
Qed.

Lemma uint32_ext (x y : int) :
  isUint32 x -> isUint32 y -> (forall n, (0 <= n < 32)%Z -> tb x n = tb y n) -> x = y.
Proof.
  intros Hx Hy H. apply tb_ext. intros n Hn.
  destruct (Z.lt_ge_cases n 32) as [Hlt|Hge].
  - apply H. lia.
  - rewrite !tb_uint32_high by assumption. reflexivity.
Qed.

Lemma truthy_iff (x : int) : Js.truthy x = true <-> exists n, (0 <= n < 63)%Z /\ tb x n = true.
Proof.
  unfold Js.truthy. rewrite negb_true_iff, Uint63.eqb_false_spec. split.
  - intros Hne.
    destruct (Z.eq_dec (Uint63.to_Z x) 0) as [E|E].
    + exfalso. apply Hne. apply Uint63.to_Z_inj. exact E.
    + pose proof (to_Z_range x) as Hr.
      assert (Hpos : (0 < Uint63.to_Z x)%Z) by lia.
      exists (Z.log2 (Uint63.to_Z x)). split.
      * split; [apply Z.log2_nonneg|]. apply Z.log2_lt_pow2; lia.
      * unfold tb. apply Z.bit_log2. exact Hpos.
  - intros (n & Hn & Hbit) ->. rewrite tb_zero in Hbit. discriminate.
Qed.

Lemma truthy_bit (x k : int) :
  (Uint63.to_Z k < 63)%Z -> Js.truthy (x land (1 << k)) = tb x (Uint63.to_Z k).
Proof.
  intros Hk. pose proof (to_Z_range k).
  destruct (tb x (Uint63.to_Z k)) eqn:E.
  - apply truthy_iff. exists (Uint63.to_Z k). split; [lia|].
    rewrite tb_land, tb_bit, E, Z.eqb_refl. destruct (Z.ltb_spec (Uint63.to_Z k) 63); [reflexivity|lia].
  - destruct (Js.truthy (x land (1 << k))) eqn:T; [|reflexivity].
    apply truthy_iff in T as (n & Hn & Hbit).
    rewrite tb_land, tb_bit in Hbit.
    destruct (Z.eqb_spec n (Uint63.to_Z k)) as [->|Hne].
    + rewrite E in Hbit. discriminate.
    + rewrite !andb_false_r in Hbit. discriminate.
Qed.

(** *** The lowest set bit *)

Lemma lowestAt_exists (v : Z) : (0 < v)%Z -> exists k, lowestAt v k.
Proof.
  destruct v as [|p|p]; try lia. intros _.
  induction p as [p _|p IH|].
  - exists 0%Z. split; [lia|]. split; [reflexivity|]. intros j Hj. lia.
  - destruct IH as (k & Hk & Hbit & Hlow). exists (Z.succ k).
    split; [|split].
    + lia.
    + rewrite Pos2Z.inj_xO, Z.testbit_even_succ by exact Hk. exact Hbit.
    + intros j Hj. rewrite Pos2Z.inj_xO.
      destruct (Z.eq_dec j 0) as [->|Hne]; [apply Z.testbit_even_0|].
      replace j with (Z.succ (j - 1)) by lia.
      rewrite Z.testbit_even_succ by lia. apply Hlow. lia.
  - exists 0%Z. split; [lia|]. split; [reflexivity|]. intros j Hj. lia.
Qed.

Lemma lowestAt_unique (v k k' : Z) : lowestAt v k -> lowestAt v k' -> k = k'.
Proof.
  intros (Hk & Hbit & Hlow) (Hk' & Hbit' & Hlow').
  destruct (Z.lt_trichotomy k k') as [H|[H|H]]; [|exact H|].
  - rewrite Hlow' in Hbit by lia. discriminate.
  - rewrite Hlow in Hbit' by lia. discriminate.
Qed.

Lemma lowestAt_mod (v k : Z) : lowestAt v k -> (v mod 2 ^ (k + 1) = 2 ^ k)%Z.
Proof.
  intros (Hk & Hbit & Hlow). apply Z.bits_inj'. intros n Hn.
  rewrite Z.pow2_bits_eqb by exact Hk.
  destruct (Z.lt_ge_cases n (k + 1)).
  - rewrite Z.mod_pow2_bits_low by lia.
    destruct (Z.eqb_spec k n) as [<-|Hne]; [exact Hbit|apply Hlow; lia].
  - rewrite Z.mod_pow2_bits_high by lia.
    destruct (Z.eqb_spec k n); [lia|reflexivity].
Qed.

Lemma lowestAt_split (v k : Z) :
  lowestAt v k -> (v = 2 ^ (k + 1) * (v / 2 ^ (k + 1)) + 2 ^ k)%Z.
Proof.
  intros H. pose proof (lowestAt_mod v k H) as Hm. destruct H as (Hk & _).
  rewrite <- Hm. apply Z.div_mod. apply Z.pow_nonzero; lia.
Qed.

Lemma testbit_split (k d r n : Z) :
  (0 <= k)%Z -> (0 <= r < 2 ^ k)%Z -> (0 <= n)%Z ->
  Z.testbit (2 ^ k * d + r) n = if (n <? k)%Z then Z.testbit r n else Z.testbit d (n - k).
Proof.
  intros Hk Hr Hn.
  assert (Hmod : ((2 ^ k * d + r) mod 2 ^ k = r)%Z).
  { rewrite Z.add_comm, Z.mul_comm, Z.mod_add by (apply Z.pow_nonzero; lia).
    apply Z.mod_small. exact Hr. }
  assert (Hdiv : ((2 ^ k * d + r) / 2 ^ k = d)%Z).
  { rewrite Z.add_comm, Z.mul_comm, Z.div_add by (apply Z.pow_nonzero; lia).
    rewrite Z.div_small by exact Hr. lia. }
  destruct (Z.ltb_spec n k).
  - rewrite <- Hmod at 2. rewrite Z.mod_pow2_bits_low by lia. reflexivity.
  - rewrite <- Hdiv at 2. rewrite Z.div_pow2_bits by lia. f_equal. lia.
Qed.

(** Subtracting one clears the lowest set bit and sets the bits below. *)
Lemma testbit_pred (v k n : Z) :
  lowestAt v k -> (0 <= n)%Z ->
  Z.testbit (v - 1) n = if (n <? k)%Z then true else if (n =? k)%Z then false else Z.testbit v n.
Proof.
  intros H Hn. pose proof (lowestAt_split v k H) as Hv. destruct H as (Hk & Hbit & Hlow).
  assert (Hp : (0 < 2 ^ k)%Z) by (apply Z.pow_pos_nonneg; lia).
  assert (H2 : (2 ^ (k + 1) = 2 * 2 ^ k)%Z) by (rewrite Z.pow_add_r by lia; lia).
  set (d := (v / 2 ^ (k + 1))%Z) in *.
  assert (E : (v - 1 = 2 ^ (k + 1) * d + Z.ones k)%Z) by (rewrite Z.ones_equiv; lia).
  rewrite E, testbit_split by (rewrite ?Z.ones_equiv; lia).
  destruct (Z.ltb_spec n (k + 1)).
  - destruct (Z.ltb_spec n k).
    + apply Z.ones_spec_low. lia.
    + destruct (Z.eqb_spec n k); [|lia]. apply Z.ones_spec_high. lia.
  - destruct (Z.ltb_spec n k); [lia|]. destruct (Z.eqb_spec n k); [lia|].
    rewrite Hv at 1. rewrite testbit_split by lia.
    destruct (Z.ltb_spec n (k + 1)); [lia|reflexivity].
Qed.

Lemma testbit_complement (m d n : Z) :
  (0 <= d < 2 ^ m)%Z -> (0 <= n < m)%Z -> Z.testbit (Z.ones m - d) n = negb (Z.testbit d n).
Proof.
  intros Hd Hn.
  rewrite Z.sub_nocarry_ldiff.
  - rewrite Z.ldiff_spec, Z.ones_spec_low by lia. reflexivity.
  - apply Z.bits_inj'. intros j Hj. rewrite Z.ldiff_spec, Z.bits_0.
    destruct (Z.lt_ge_cases j m).
    + rewrite Z.ones_spec_low by lia. apply andb_false_r.
    + rewrite (testbit_small d m j) by lia. reflexivity.
Qed.

(** A number and its two's complement share the lowest set bit only. *)
Lemma testbit_land_opp (v k n : Z) :
  lowestAt v k -> (0 < v < 2 ^ 63)%Z -> (0 <= n)%Z ->
  Z.testbit (Z.land v (2 ^ 63 - v)) n = (n =? k)%Z.
Proof.
  intros H Hv Hn. pose proof (lowestAt_split v k H) as Hs. destruct H as (Hk & Hbit & Hlow).
  assert (Hk63 : (k < 63)%Z).
  { destruct (Z.lt_ge_cases k 63) as [Hlt|Hge]; [exact Hlt|].
    rewrite (testbit_small v 63 k) in Hbit by lia. discriminate. }
  assert (Hp : (0 < 2 ^ k)%Z) by (apply Z.pow_pos_nonneg; lia).
  assert (H2 : (2 ^ (k + 1) = 2 * 2 ^ k)%Z) by (rewrite Z.pow_add_r by lia; lia).
  assert (H63 : (2 ^ 63 = 2 ^ (k + 1) * 2 ^ (62 - k))%Z).
  { rewrite <- Z.pow_add_r by lia. f_equal. lia. }
  set (d := (v / 2 ^ (k + 1))%Z) in *.
  assert (Hd : (0 <= d < 2 ^ (62 - k))%Z).
  { split; [apply Z.div_pos; lia|]. apply Z.div_lt_upper_bound; [lia|].
    rewrite <- H63. lia. }
  assert (E : (2 ^ 63 - v = 2 ^ (k + 1) * (Z.ones (62 - k) - d) + 2 ^ k)%Z).
  { rewrite Z.ones_equiv. rewrite H63. nia. }
  rewrite Z.land_spec. rewrite E. rewrite Hs at 1.
  rewrite !testbit_split by lia.
  destruct (Z.ltb_spec n (k + 1)).
  - rewrite andb_diag. rewrite Z.pow2_bits_eqb by lia. apply Z.eqb_sym.
  - destruct (Z.eqb_spec n k); [lia|].
    destruct (Z.lt_ge_cases (n - (k + 1)) (62 - k)).
    + rewrite testbit_complement by lia. apply andb_negb_r.
    + rewrite (testbit_small d (62 - k)) by lia. reflexivity.
Qed.

(** ** The squares of a bitboard *)

Lemma toUint32_spec (x : int) : Uint63.to_Z (Js.toUint32 x) = (Uint63.to_Z x mod 2 ^ 32)%Z.
Proof.
  unfold Js.toUint32. rewrite Uint63.land_spec'.
  change (Uint63.to_Z 4294967295) with (Z.ones 32). apply Z.land_ones. lia.
Qed.

Lemma count_spec (x : int) : Uint63.to_Z (Js.count x) = (Uint63.to_Z x mod 32)%Z.
Proof.
  unfold Js.count. rewrite Uint63.land_spec'.
  change (Uint63.to_Z 31) with (Z.ones 5). apply Z.land_ones. lia.
Qed.

Lemma toUint32_small (x : int) : (Uint63.to_Z x < 2 ^ 32)%Z -> Js.toUint32 x = x.
Proof. intros H. apply isUint32_iff. exact H. Qed.

Lemma isSquare_iff (i : int) : isSquare i <-> (Uint63.to_Z i < 64)%Z.
Proof. unfold isSquare. rewrite Uint63.ltb_spec. reflexivity. Qed.

Ltac int_facts :=
  repeat match goal with
         | H : isSquare _ |- _ => apply isSquare_iff in H
         | x : int |- _ =>
             lazymatch goal with
             | _ : (0 <= Uint63.to_Z x < 2 ^ 63)%Z |- _ => fail
             | _ => pose proof (to_Z_range x)
             end
         end.

Lemma isSet_bitAt (b : Bitboard.t) (i : int) :
  isSquare i -> Bitboard.isSet b i = bitAt b (Uint63.to_Z i).
Proof.
  intros Hi. int_facts.
  unfold Bitboard.isSet, Bitboard.isClear, bitAt.
  rewrite (toUint32_small i) by lia.
  destruct (Uint63.ltbP i 32) as [Hlt|Hge]; change (Uint63.to_Z 32) with 32%Z in *.
  - destruct (Z.ltb_spec (Uint63.to_Z i) 32); [|lia].
    rewrite negb_involutive.
    assert (E : Js.count i = i).
    { apply Uint63.to_Z_inj. rewrite count_spec. apply Z.mod_small. lia. }
    rewrite E. apply truthy_bit. lia.
  - destruct (Z.ltb_spec (Uint63.to_Z i) 32); [lia|].
    rewrite negb_involutive.
    assert (E : Uint63.to_Z (Js.count (i - 32)) = (Uint63.to_Z i - 32)%Z).
    { rewrite count_spec, Uint63.sub_spec. change (Uint63.to_Z 32) with 32%Z.
      change wB with (2 ^ 63)%Z. rewrite (Z.mod_small (_ - 32)) by lia.
      apply Z.mod_small. lia. }
    rewrite truthy_bit by lia. rewrite E. reflexivity.
Qed.

Lemma isClear_isSet (b : Bitboard.t) (i : int) : Bitboard.isClear b i = negb (Bitboard.isSet b i).
Proof. unfold Bitboard.isSet. rewrite negb_involutive. reflexivity. Qed.

(** *** Well-formed boards *)

Lemma wellFormed_mk (l h : int) : wellFormed (Bitboard.mk (Js.toUint32 l) (Js.toUint32 h)).
Proof. split; apply isUint32_toUint32. Qed.

Lemma isUint32_zero : isUint32 0.
Proof. reflexivity. Qed.

Lemma bitAt_ext (b c : Bitboard.t) :
  wellFormed b -> wellFormed c ->
  (forall n, (0 <= n < 64)%Z -> bitAt b n = bitAt c n) -> b = c.
Proof.
  destruct b as [bl bh], c as [cl ch]. intros [Hbl Hbh] [Hcl Hch] H.
  cbn [Bitboard.low Bitboard.high] in *. f_equal.
  - apply uint32_ext; [assumption..|]. intros n Hn.
    specialize (H n). unfold bitAt in H. cbn [Bitboard.low Bitboard.high] in H.
    destruct (Z.ltb_spec n 32); [|lia]. apply H. lia.
  - apply uint32_ext; [assumption..|]. intros n Hn.
    specialize (H (n + 32)%Z). unfold bitAt in H. cbn [Bitboard.low Bitboard.high] in H.
    destruct (Z.ltb_spec (n + 32) 32); [lia|].
    replace (n + 32 - 32)%Z with n in H by lia. apply H. lia.
Qed.

Lemma bitAt_mk32 (l h : int) (n : Z) :
  (n < 64)%Z ->
  bitAt (Bitboard.mk (Js.toUint32 l) (Js.toUint32 h)) n
  = if (n <? 32)%Z then tb l n else tb h (n - 32).
Proof.
  intros Hn. unfold bitAt. cbn [Bitboard.low Bitboard.high]. rewrite !tb_toUint32.
  destruct (Z.ltb_spec n 32); [reflexivity|].
  destruct (Z.ltb_spec (n - 32) 32); [reflexivity|lia].
Qed.

Lemma bitAt_make (l h : int) (n : Z) :
  (n < 64)%Z -> bitAt (Bitboard.make l h) n = if (n <? 32)%Z then tb l n else tb h (n - 32).
Proof. apply bitAt_mk32. Qed.

Lemma bitAt_dup (b : Bitboard.t) (n : Z) : (n < 64)%Z -> bitAt (Bitboard.dup b) n = bitAt b n.
Proof. intros Hn. unfold Bitboard.dup. rewrite bitAt_make by exact Hn. reflexivity. Qed.

Lemma dup_wellFormed (b : Bitboard.t) : wellFormed b -> Bitboard.dup b = b.
Proof.
  destruct b as [l h]. intros [Hl Hh]. unfold Bitboard.dup, Bitboard.make.
  cbn [Bitboard.low Bitboard.high] in *. unfold isUint32 in *. rewrite Hl, Hh. reflexivity.
Qed.

(** *** The operations, square by square *)

Lemma bitAt_and (b c : Bitboard.t) (n : Z) :
  (n < 64)%Z -> bitAt (Bitboard.and_ b c) n = bitAt b n && bitAt c n.
Proof.
  intros Hn. unfold Bitboard.and_. rewrite bitAt_mk32 by exact Hn.
  unfold bitAt. rewrite !tb_land. destruct (n <? 32)%Z; reflexivity.
Qed.

Lemma bitAt_or (b c : Bitboard.t) (n : Z) :
  (n < 64)%Z -> bitAt (Bitboard.or_ b c) n = bitAt b n || bitAt c n.
Proof.
  intros Hn. unfold Bitboard.or_. rewrite bitAt_mk32 by exact Hn.
  unfold bitAt. rewrite !tb_lor. destruct (n <? 32)%Z; reflexivity.
Qed.

Lemma bitAt_xor (b c : Bitboard.t) (n : Z) :
  (n < 64)%Z -> bitAt (Bitboard.xor_ b c) n = xorb (bitAt b n) (bitAt c n).
Proof.
  intros Hn. unfold Bitboard.xor_. rewrite bitAt_mk32 by exact Hn.
  unfold bitAt. rewrite !tb_lxor. destruct (n <? 32)%Z; reflexivity.
Qed.

Lemma bitAt_not (b : Bitboard.t) (n : Z) :
  (0 <= n < 64)%Z -> bitAt (Bitboard.not_ b) n = negb (bitAt b n).
Proof.
  intros Hn. unfold Bitboard.not_. rewrite bitAt_mk32 by lia.
  unfold bitAt. rewrite !tb_not.
  destruct (Z.ltb_spec n 32).
  - destruct (Z.leb_spec 0 n); [|lia]. destruct (Z.ltb_spec n 62); [reflexivity|lia].
  - destruct (Z.leb_spec 0 (n - 32)); [|lia]. destruct (Z.ltb_spec (n - 32) 62); [reflexivity|lia].
Qed.

Lemma bitAt_and_not (b c : Bitboard.t) (n : Z) :
  (0 <= n < 64)%Z -> bitAt (Bitboard.and_not b c) n = bitAt b n && negb (bitAt c n).
Proof.
  intros Hn. unfold Bitboard.and_not. rewrite bitAt_mk32 by lia.
  unfold bitAt. rewrite !tb_land, !tb_not.
  destruct (Z.ltb_spec n 32).
  - destruct (Z.leb_spec 0 n); [|lia]. destruct (Z.ltb_spec n 62); [reflexivity|lia].
  - destruct (Z.leb_spec 0 (n - 32)); [|lia]. destruct (Z.ltb_spec (n - 32) 62); [reflexivity|lia].
Qed.

Lemma wellFormed_and (b c : Bitboard.t) : wellFormed (Bitboard.and_ b c).
Proof. apply wellFormed_mk. Qed.
Lemma wellFormed_or (b c : Bitboard.t) : wellFormed (Bitboard.or_ b c).
Proof. apply wellFormed_mk. Qed.
Lemma wellFormed_xor (b c : Bitboard.t) : wellFormed (Bitboard.xor_ b c).
Proof. apply wellFormed_mk. Qed.
Lemma wellFormed_not (b : Bitboard.t) : wellFormed (Bitboard.not_ b).
Proof. apply wellFormed_mk. Qed.
Lemma wellFormed_and_not (b c : Bitboard.t) : wellFormed (Bitboard.and_not b c).
Proof. apply wellFormed_mk. Qed.
Lemma wellFormed_make (l h : int) : wellFormed (Bitboard.make l h).
Proof. apply wellFormed_mk. Qed.
Lemma wellFormed_dup (b : Bitboard.t) : wellFormed (Bitboard.dup b).
Proof. apply wellFormed_mk. Qed.

Lemma count_square_low (i : int) :
  (Uint63.to_Z i < 32)%Z -> Uint63.to_Z (Js.count i) = Uint63.to_Z i.
Proof. intros H. int_facts. rewrite count_spec. apply Z.mod_small. lia. Qed.

Lemma count_square_high (i : int) :
  (32 <= Uint63.to_Z i < 64)%Z -> Uint63.to_Z (Js.count (i - 32)) = (Uint63.to_Z i - 32)%Z.
Proof.
  intros H. rewrite count_spec, Uint63.sub_spec. change (Uint63.to_Z 32) with 32%Z.
  change wB with (2 ^ 63)%Z. rewrite (Z.mod_small (_ - 32)) by lia.
  apply Z.mod_small. lia.
Qed.

Lemma bitAt_setBit (b : Bitboard.t) (j : int) (n : Z) :
  isSquare j -> (0 <= n < 64)%Z ->
  bitAt (Bitboard.setBit b j) n = (n =? Uint63.to_Z j)%Z || bitAt b n.
Proof.
  intros Hj Hn. int_facts. unfold Bitboard.setBit.
  rewrite (toUint32_small j) by lia.
  destruct (Uint63.ltbP j 32) as [Hlt|Hge]; change (Uint63.to_Z 32) with 32%Z in *;
    unfold bitAt; cbn [Bitboard.low Bitboard.high].
  - destruct (Z.ltb_spec n 32).
    + rewrite tb_toUint32, tb_lor, tb_bit, count_square_low by lia.
      destruct (Z.ltb_spec n 32); [|lia]. destruct (Z.ltb_spec n 63); [|lia].
      cbn [andb]. apply orb_comm.
    + destruct (Z.eqb_spec n (Uint63.to_Z j)); [lia|reflexivity].
  - destruct (Z.ltb_spec n 32).
    + destruct (Z.eqb_spec n (Uint63.to_Z j)); [lia|reflexivity].
    + rewrite tb_toUint32, tb_lor, tb_bit, count_square_high by lia.
      destruct (Z.ltb_spec (n - 32) 32); [|lia]. destruct (Z.ltb_spec (n - 32) 63); [|lia].
      cbn [andb].
      destruct (Z.eqb_spec (n - 32) (Uint63.to_Z j - 32)), (Z.eqb_spec n (Uint63.to_Z j));
        try lia; apply orb_comm.
Qed.

Lemma bitAt_clearBit (b : Bitboard.t) (j : int) (n : Z) :
  isSquare j -> (0 <= n < 64)%Z ->
  bitAt (Bitboard.clearBit b j) n = negb (n =? Uint63.to_Z j)%Z && bitAt b n.
Proof.
  intros Hj Hn. int_facts. unfold Bitboard.clearBit.
  rewrite (toUint32_small j) by lia.
  destruct (Uint63.ltbP j 32) as [Hlt|Hge]; change (Uint63.to_Z 32) with 32%Z in *;
    unfold bitAt; cbn [Bitboard.low Bitboard.high].
  - destruct (Z.ltb_spec n 32).
    + rewrite tb_toUint32, tb_land, tb_not, tb_bit, count_square_low by lia.
      destruct (Z.ltb_spec n 32); [|lia]. destruct (Z.ltb_spec n 63); [|lia].
      destruct (Z.ltb_spec n 62); [|lia]. destruct (Z.leb_spec 0 n); [|lia].
      cbn [andb]. apply andb_comm.
    + destruct (Z.eqb_spec n (Uint63.to_Z j)); [lia|reflexivity].
  - destruct (Z.ltb_spec n 32).
    + destruct (Z.eqb_spec n (Uint63.to_Z j)); [lia|reflexivity].
    + rewrite tb_toUint32, tb_land, tb_not, tb_bit, count_square_high by lia.
      destruct (Z.ltb_spec (n - 32) 32); [|lia]. destruct (Z.ltb_spec (n - 32) 63); [|lia].
      destruct (Z.ltb_spec (n - 32) 62); [|lia]. destruct (Z.leb_spec 0 (n - 32)); [|lia].
      cbn [andb].
      destruct (Z.eqb_spec (n - 32) (Uint63.to_Z j - 32)), (Z.eqb_spec n (Uint63.to_Z j));
        try lia; apply andb_comm.
Qed.

Lemma wellFormed_setBit (b : Bitboard.t) (j : int) :
  wellFormed b -> wellFormed (Bitboard.setBit b j).
Proof.
  intros [Hl Hh]. unfold Bitboard.setBit.
  destruct (Js.toUint32 j <? 32)%uint63; split; cbn [Bitboard.low Bitboard.high];
    try assumption; apply isUint32_toUint32.
Qed.

Lemma wellFormed_clearBit (b : Bitboard.t) (j : int) :
  wellFormed b -> wellFormed (Bitboard.clearBit b j).
Proof.
  intros [Hl Hh]. unfold Bitboard.clearBit.
  destruct (Js.toUint32 j <? 32)%uint63; split; cbn [Bitboard.low Bitboard.high];
    try assumption; apply isUint32_toUint32.
Qed.

Lemma bitAt_ZERO (n : Z) : bitAt Bitboard.ZERO n = false.
Proof. unfold bitAt. cbn [Bitboard.ZERO Bitboard.low Bitboard.high]. rewrite !tb_zero. destruct (n <? 32)%Z; reflexivity. Qed.

Lemma bitAt_makeIndex (j : int) (n : Z) :
  isSquare j -> (0 <= n < 64)%Z -> bitAt (Bitboard.makeIndex j) n = (n =? Uint63.to_Z j)%Z.
Proof.
  intros Hj Hn. unfold Bitboard.makeIndex. rewrite bitAt_setBit by assumption.
  change Bitboard.makeZero with Bitboard.ZERO. rewrite bitAt_ZERO. apply orb_false_r.
Qed.

Lemma wellFormed_makeIndex (j : int) : wellFormed (Bitboard.makeIndex j).
Proof. apply wellFormed_setBit. split; reflexivity. Qed.

(** *** Emptiness and equality *)

Lemma isEmpty_bitAt (b : Bitboard.t) :
  wellFormed b ->
  (Bitboard.isEmpty b = true <-> forall n, (0 <= n < 64)%Z -> bitAt b n = false).
Proof.
  intros [Hl Hh]. unfold Bitboard.isEmpty. rewrite andb_true_iff, !negb_true_iff. split.
  - intros [El Eh] n Hn. unfold Js.truthy in El, Eh.
    apply negb_false_iff, Uint63.eqb_spec in El. apply negb_false_iff, Uint63.eqb_spec in Eh.
    unfold bitAt. rewrite El, Eh, !tb_zero. destruct (n <? 32)%Z; reflexivity.
  - intros H. split.
    + destruct (Js.truthy (Bitboard.low b)) eqn:T; [|reflexivity].
      apply truthy_iff in T as (n & Hn & Hbit).
      destruct (Z.lt_ge_cases n 32).
      * specialize (H n). unfold bitAt in H. destruct (Z.ltb_spec n 32); [|lia].
        rewrite H in Hbit by lia. discriminate.
      * rewrite tb_uint32_high in Hbit by assumption. discriminate.
    + destruct (Js.truthy (Bitboard.high b)) eqn:T; [|reflexivity].
      apply truthy_iff in T as (n & Hn & Hbit).
      destruct (Z.lt_ge_cases n 32).
      * specialize (H (n + 32)%Z). unfold bitAt in H.
        destruct (Z.ltb_spec (n + 32) 32); [lia|].
        replace (n + 32 - 32)%Z with n in H by lia.
        rewrite H in Hbit by lia. discriminate.
      * rewrite tb_uint32_high in Hbit by assumption. discriminate.
Qed.

Lemma isEqual_iff (b c : Bitboard.t) : Bitboard.isEqual b c = true <-> b = c.
Proof.
  destruct b as [bl bh], c as [cl ch]. unfold Bitboard.isEqual. cbn [Bitboard.low Bitboard.high].
  rewrite andb_true_iff, !Uint63.eqb_spec. split.
  - intros [-> ->]. reflexivity.
  - intros H. injection H as -> ->. split; reflexivity.
Qed.

(** *** Shifts *)

Lemma sub_small (a c : int) :
  (Uint63.to_Z c <= Uint63.to_Z a)%Z -> Uint63.to_Z (a - c) = (Uint63.to_Z a - Uint63.to_Z c)%Z.
Proof.
  intros H. int_facts. rewrite Uint63.sub_spec. change wB with (2 ^ 63)%Z.
  apply Z.mod_small. lia.
Qed.

Lemma count_small (x : int) : (Uint63.to_Z x < 32)%Z -> Uint63.to_Z (Js.count x) = Uint63.to_Z x.
Proof. apply count_square_low. Qed.

Lemma bitAt_shl (b : Bitboard.t) (v : int) (n : Z) :
  (Uint63.to_Z v < 64)%Z -> (0 <= n < 64)%Z ->
  bitAt (Bitboard.shl b v) n = (Uint63.to_Z v <=? n)%Z && bitAt b (n - Uint63.to_Z v).
Proof.
  intros Hv Hn. int_facts. unfold Bitboard.shl.
  rewrite (toUint32_small v) by lia.
  destruct (Uint63.ltbP 31 v) as [Hbig|Hsmall]; change (Uint63.to_Z 31) with 31%Z in *.
  - assert (E : Uint63.to_Z (Js.count (v - 32)) = (Uint63.to_Z v - 32)%Z)
      by (apply count_square_high; lia).
    change 0%uint63 with (Js.toUint32 0). rewrite bitAt_mk32 by lia.
    rewrite tb_zero, tb_lsl, E. unfold bitAt.
    destruct (Z.ltb_spec n 32).
    + destruct (Z.leb_spec (Uint63.to_Z v) n); [lia|reflexivity].
    + destruct (Z.ltb_spec (n - 32) 63); [|lia].
      destruct (Z.leb_spec (Uint63.to_Z v - 32) (n - 32)), (Z.leb_spec (Uint63.to_Z v) n);
        try lia; cbn [andb]; try reflexivity.
      destruct (Z.ltb_spec (n - Uint63.to_Z v) 32); [|lia].
      f_equal. lia.
  - destruct (Uint63.ltbP 0 v) as [Hpos|Hzero]; change (Uint63.to_Z 0) with 0%Z in *.
    + assert (E : Uint63.to_Z (Js.count v) = Uint63.to_Z v) by (apply count_small; lia).
      assert (E' : Uint63.to_Z (Js.count (32 - v)) = (32 - Uint63.to_Z v)%Z).
      { rewrite count_small; rewrite sub_small; change (Uint63.to_Z 32) with 32%Z; lia. }
      rewrite bitAt_mk32 by lia. rewrite tb_lor, !tb_lsl, E.
      pose proof (toUint32_spec (Bitboard.low b)) as Hlow.
      assert (Hlow' : (Uint63.to_Z (Js.toUint32 (Bitboard.low b)) < 2 ^ 32)%Z).
      { rewrite Hlow. apply Z.mod_pos_bound. lia. }
      unfold bitAt.
      destruct (Z.ltb_spec n 32).
      * destruct (Z.ltb_spec n 63); [|lia]. cbn [andb].
        destruct (Z.leb_spec (Uint63.to_Z v) n); cbn [andb]; [|reflexivity].
        destruct (Z.ltb_spec (n - Uint63.to_Z v) 32); [reflexivity|lia].
      * rewrite tb_asr by lia. rewrite tb_toUint32, E'.
        destruct (Z.ltb_spec (n - 32) 63); [|lia]. cbn [andb].
        destruct (Z.leb_spec (Uint63.to_Z v) n); [|lia]. cbn [andb].
        destruct (Z.leb_spec (Uint63.to_Z v) (n - 32)); cbn [andb].
        -- destruct (Z.ltb_spec (n - 32 + (32 - Uint63.to_Z v)) 32); [lia|]. cbn [andb].
           destruct (Z.ltb_spec (n - Uint63.to_Z v) 32); [lia|].
           rewrite orb_false_r. f_equal. lia.
        -- destruct (Z.ltb_spec (n - 32 + (32 - Uint63.to_Z v)) 32); [|lia]. cbn [andb orb].
           destruct (Z.ltb_spec (n - Uint63.to_Z v) 32); [|lia].
           f_equal. lia.
    + assert (Uint63.to_Z v = 0)%Z as -> by lia.
      destruct (Z.leb_spec 0 n); [|lia]. cbn [andb]. f_equal. lia.
Qed.

Lemma bitAt_shr (b : Bitboard.t) (v : int) (n : Z) :
  (Uint63.to_Z v < 64)%Z -> (0 <= n < 64)%Z ->
  bitAt (Bitboard.shr b v) n = (n + Uint63.to_Z v <? 64)%Z && bitAt b (n + Uint63.to_Z v).
Proof.
  intros Hv Hn. int_facts. unfold Bitboard.shr.
  rewrite (toUint32_small v) by lia.
  assert (Hhigh : (Uint63.to_Z (Js.toUint32 (Bitboard.high b)) < 2 ^ 32)%Z).
  { rewrite toUint32_spec. apply Z.mod_pos_bound. lia. }
  assert (Hlow : (Uint63.to_Z (Js.toUint32 (Bitboard.low b)) < 2 ^ 32)%Z).
  { rewrite toUint32_spec. apply Z.mod_pos_bound. lia. }
  destruct (Uint63.ltbP 31 v) as [Hbig|Hsmall]; change (Uint63.to_Z 31) with 31%Z in *.
  - assert (E : Uint63.to_Z (Js.count (v - 32)) = (Uint63.to_Z v - 32)%Z)
      by (apply count_square_high; lia).
    unfold bitAt at 1. cbn [Bitboard.low Bitboard.high].
    destruct (Z.ltb_spec n 32).
    + rewrite asr_lsr by lia. rewrite tb_lsr by lia. rewrite tb_toUint32, E.
      unfold bitAt.
      destruct (Z.ltb_spec (n + (Uint63.to_Z v - 32)) 32), (Z.ltb_spec (n + Uint63.to_Z v) 64);
        try lia; cbn [andb]; try reflexivity.
      destruct (Z.ltb_spec (n + Uint63.to_Z v) 32); [lia|]. f_equal. lia.
    + rewrite tb_zero. destruct (Z.ltb_spec (n + Uint63.to_Z v) 64); [lia|reflexivity].
  - destruct (Uint63.ltbP 0 v) as [Hpos|Hzero]; change (Uint63.to_Z 0) with 0%Z in *.
    + assert (E : Uint63.to_Z (Js.count v) = Uint63.to_Z v) by (apply count_small; lia).
      assert (E' : Uint63.to_Z (Js.count (32 - v)) = (32 - Uint63.to_Z v)%Z).
      { rewrite count_small; rewrite sub_small; change (Uint63.to_Z 32) with 32%Z; lia. }
      unfold bitAt at 1. cbn [Bitboard.low Bitboard.high].
      rewrite !asr_lsr by lia.
      destruct (Z.ltb_spec n 32).
      * rewrite tb_toUint32, tb_lor, tb_lsl, tb_lsr, tb_toUint32, E, E' by lia.
        destruct (Z.ltb_spec n 32); [|lia]. destruct (Z.ltb_spec n 63); [|lia]. cbn [andb].
        destruct (Z.ltb_spec (n + Uint63.to_Z v) 64); [|lia]. cbn [andb].
        unfold bitAt.
        destruct (Z.ltb_spec (n + Uint63.to_Z v) 32); cbn [andb].
        -- destruct (Z.leb_spec (32 - Uint63.to_Z v) n); [lia|]. cbn [andb]. apply orb_false_r.
        -- destruct (Z.leb_spec (32 - Uint63.to_Z v) n); [|lia]. cbn [andb orb].
           f_equal. lia.
      * rewrite tb_lsr, tb_toUint32, E by lia. unfold bitAt.
        destruct (Z.ltb_spec (n - 32 + Uint63.to_Z v) 32), (Z.ltb_spec (n + Uint63.to_Z v) 64);
          try lia; cbn [andb]; try reflexivity.
        destruct (Z.ltb_spec (n + Uint63.to_Z v) 32); [lia|]. f_equal. lia.
    + assert (Uint63.to_Z v = 0)%Z as -> by lia.
      destruct (Z.ltb_spec (n + 0) 64); [|lia]. cbn [andb]. f_equal. lia.
Qed.

Lemma unsigned_nonneg (x : int) :
  (0 <= Sint63.to_Z x)%Z -> Uint63.to_Z x = Sint63.to_Z x.
Proof.
  intros H. pose proof (Sint63.to_Z_bounded x) as Hb.
  rewrite <- (Sint63.to_Z_mod_Uint63to_Z x). change wB with (2 ^ 63)%Z.
  apply Z.mod_small.
  change (Sint63.to_Z Sint63.max_int) with (2 ^ 62 - 1)%Z in Hb. lia.
Qed.

Lemma signed_neg (x : int) :
  (- 2 ^ 62 < Sint63.to_Z x)%Z -> Sint63.to_Z (Js.neg x) = (- Sint63.to_Z x)%Z.
Proof.
  intros H. pose proof (Sint63.to_Z_bounded x) as Hb.
  change (Sint63.to_Z Sint63.max_int) with (2 ^ 62 - 1)%Z in Hb.
  change (Sint63.to_Z Sint63.min_int) with (- 2 ^ 62)%Z in Hb.
  unfold Js.neg. rewrite Sint63.to_Z_sub.
  - change (Sint63.to_Z 0) with 0%Z. lia.
  - change (Sint63.to_Z Sint63.max_int) with (2 ^ 62 - 1)%Z.
    change (Sint63.to_Z Sint63.min_int) with (- 2 ^ 62)%Z.
    change (Sint63.to_Z 0) with 0%Z. lia.
Qed.

(** [shiftLeft] by the signed distance [v]: square [n] of the result is
    square [n - v] of the board, when that is a square. *)
Lemma bitAt_shiftLeft (b : Bitboard.t) (v : int) (n : Z) :
  (-63 <= Sint63.to_Z v <= 63)%Z -> (0 <= n < 64)%Z ->
  bitAt (Bitboard.shiftLeft b v) n
  = (0 <=? n - Sint63.to_Z v)%Z && (n - Sint63.to_Z v <? 64)%Z && bitAt b (n - Sint63.to_Z v).
Proof.
  intros Hv Hn. unfold Bitboard.shiftLeft, Js.lt.
  destruct (Sint63.ltbP 63 v) as [H1|H1]; change (Sint63.to_Z 63) with 63%Z in H1; [lia|].
  destruct (Sint63.ltbP v (Js.neg 63)) as [H2|H2];
    change (Sint63.to_Z (Js.neg 63)) with (-63)%Z in H2; [lia|].
  cbn [orb].
  destruct (Sint63.ltbP 0 v) as [H3|H3]; change (Sint63.to_Z 0) with 0%Z in H3.
  - assert (E : Uint63.to_Z v = Sint63.to_Z v) by (apply unsigned_nonneg; lia).
    rewrite bitAt_shl by lia. rewrite E.
    destruct (Z.leb_spec (Sint63.to_Z v) n), (Z.leb_spec 0 (n - Sint63.to_Z v)),
      (Z.ltb_spec (n - Sint63.to_Z v) 64); cbn [andb]; try reflexivity; lia.
  - destruct (Sint63.ltbP v 0) as [H4|H4]; change (Sint63.to_Z 0) with 0%Z in H4.
    + assert (E : Uint63.to_Z (Js.neg v) = (- Sint63.to_Z v)%Z).
      { rewrite unsigned_nonneg; rewrite signed_neg; lia. }
      rewrite bitAt_shr by lia. rewrite E.
      replace (n + - Sint63.to_Z v)%Z with (n - Sint63.to_Z v)%Z by lia.
      destruct (Z.leb_spec 0 (n - Sint63.to_Z v)); [reflexivity|lia].
    + assert (Sint63.to_Z v = 0)%Z as -> by lia.
      replace (n - 0)%Z with n by lia.
      destruct (Z.leb_spec 0 n); [|lia]. destruct (Z.ltb_spec n 64); [reflexivity|lia].
Qed.

Lemma shiftLeft_far (b : Bitboard.t) (v : int) :
  (Sint63.to_Z v < -63 \/ 63 < Sint63.to_Z v)%Z -> Bitboard.shiftLeft b v = Bitboard.ZERO.
Proof.
  intros Hv. unfold Bitboard.shiftLeft, Js.lt.
  destruct (Sint63.ltbP 63 v) as [H1|H1]; change (Sint63.to_Z 63) with 63%Z in H1;
    [reflexivity|].
  destruct (Sint63.ltbP v (Js.neg 63)) as [H2|H2];
    change (Sint63.to_Z (Js.neg 63)) with (-63)%Z in H2; [reflexivity|lia].
Qed.

Lemma wellFormed_shl (b : Bitboard.t) (v : int) : wellFormed b -> wellFormed (Bitboard.shl b v).
Proof.
  intros Hb. unfold Bitboard.shl.
  destruct (31 <? Js.toUint32 v)%uint63.
  - split; [reflexivity|apply isUint32_toUint32].
  - destruct (0 <? Js.toUint32 v)%uint63; [apply wellFormed_mk|exact Hb].
Qed.

Lemma isUint32_asr (x k : int) :
  (Uint63.to_Z k < 32)%Z -> isUint32 (asr (Js.toUint32 x) k).
Proof.
  intros Hk. int_facts.
  assert (Hx : (Uint63.to_Z (Js.toUint32 x) < 2 ^ 32)%Z).
  { rewrite toUint32_spec. apply Z.mod_pos_bound. lia. }
  rewrite asr_lsr by lia. apply tb_ext. intros n Hn.
  rewrite tb_toUint32, tb_lsr, tb_toUint32 by lia.
  destruct (Z.ltb_spec n 32); [reflexivity|].
  destruct (Z.ltb_spec (n + Uint63.to_Z k) 32); [lia|reflexivity].
Qed.

Lemma count_lt_32 (x : int) : (Uint63.to_Z (Js.count x) < 32)%Z.
Proof. rewrite count_spec. apply Z.mod_pos_bound. lia. Qed.

Lemma wellFormed_shr (b : Bitboard.t) (v : int) : wellFormed b -> wellFormed (Bitboard.shr b v).
Proof.
  intros Hb. unfold Bitboard.shr.
  destruct (31 <? Js.toUint32 v)%uint63.
  - split; [apply isUint32_asr, count_lt_32|reflexivity].
  - destruct (0 <? Js.toUint32 v)%uint63; [|exact Hb].
    split; [apply isUint32_toUint32|apply isUint32_asr, count_lt_32].
Qed.

Lemma wellFormed_shiftLeft (b : Bitboard.t) (v : int) :
  wellFormed b -> wellFormed (Bitboard.shiftLeft b v).
Proof.
  intros Hb. unfold Bitboard.shiftLeft.
  destruct (Js.lt 63 v || Js.lt v (Js.neg 63)); [split; reflexivity|].
  destruct (Js.lt 0 v); [apply wellFormed_shl; exact Hb|].
  destruct (Js.lt v 0); [apply wellFormed_shr; exact Hb|exact Hb].
Qed.

(** *** The lowest set square *)

Lemma forallb_below (P : Z -> bool) (m : nat) :
  forallb P (map Z.of_nat (seq 0 m)) = true ->
  forall k, (0 <= k < Z.of_nat m)%Z -> P k = true.
Proof.
  intros H k Hk. rewrite forallb_forall in H. apply H.
  apply in_map_iff. exists (Z.to_nat k). split; [lia|]. apply in_seq. lia.
Qed.

Lemma popcnt32_ones (k : Z) :
  (0 <= k <= 32)%Z -> Bitboard.popcnt32 (Uint63.of_Z (2 ^ k - 1)) = Uint63.of_Z k.
Proof.
  intros Hk. apply Uint63.eqb_spec.
  apply (forallb_below
           (fun k => Uint63.eqb (Bitboard.popcnt32 (Uint63.of_Z (2 ^ k - 1))) (Uint63.of_Z k))
           33); [vm_compute; reflexivity|lia].
Qed.

Lemma truthy_pos (v : int) : Js.truthy v = true -> (0 < Uint63.to_Z v)%Z.
Proof.
  unfold Js.truthy. rewrite negb_true_iff, Uint63.eqb_false_spec. intros Hne.
  pose proof (to_Z_range v). destruct (Z.eq_dec (Uint63.to_Z v) 0) as [E|E]; [|lia].
  exfalso. apply Hne. apply Uint63.to_Z_inj. exact E.
Qed.

Lemma truthy_false (v : int) : Js.truthy v = false -> v = 0%uint63.
Proof. unfold Js.truthy. rewrite negb_false_iff. apply Uint63.eqb_spec. Qed.

Lemma lowest32 (v : int) :
  isUint32 v -> Js.truthy v = true ->
  exists k, lowestAt (Uint63.to_Z v) k /\ (k < 32)%Z
            /\ Bitboard.getLowestBitPosition32 v = Uint63.of_Z k
            /\ isUint32 (Bitboard.popLowestBit32 v)
            /\ forall n, (0 <= n)%Z ->
                 tb (Bitboard.popLowestBit32 v) n = negb (n =? k)%Z && tb v n.
Proof.
  intros Hv Hpos. apply truthy_pos in Hpos. pose proof (to_Z_range v) as Hr.
  destruct (lowestAt_exists _ Hpos) as (k & Hk).
  assert (Hk32 : (k < 32)%Z).
  { destruct Hk as (Hk0 & Hbit & _). destruct (Z.lt_ge_cases k 32) as [Hlt|Hge]; [exact Hlt|].
    change (tb v k = true) in Hbit. rewrite tb_uint32_high in Hbit by assumption.
    discriminate. }
  exists k. split; [exact Hk|]. split; [exact Hk32|].
  unfold Bitboard.getLowestBitPosition32, Bitboard.popLowestBit32. rewrite Hv.
  split; [|split].
  - assert (E : (v land Js.neg v - 1)%uint63 = Uint63.of_Z (2 ^ k - 1)).
    { assert (Hland : Uint63.to_Z (v land Js.neg v) = (2 ^ k)%Z).
      { rewrite Uint63.land_spec'. unfold Js.neg. rewrite Uint63.sub_spec.
        change (Uint63.to_Z 0) with 0%Z. change wB with (2 ^ 63)%Z.
        replace ((0 - Uint63.to_Z v) mod 2 ^ 63)%Z with (2 ^ 63 - Uint63.to_Z v)%Z.
        - apply Z.bits_inj'. intros n Hn.
          rewrite (testbit_land_opp _ k) by (assumption || lia).
          destruct Hk as (Hk0 & _). rewrite Z.pow2_bits_eqb by exact Hk0. apply Z.eqb_sym.
        - apply Z.mod_unique with (q := (-1)%Z); lia. }
      destruct Hk as (Hk0 & _).
      assert (Hp : (0 < 2 ^ k < 2 ^ 32)%Z).
      { split; [apply Z.pow_pos_nonneg; lia|apply Z.pow_lt_mono_r; lia]. }
      apply Uint63.to_Z_inj. rewrite Uint63.sub_spec, Hland, Uint63.of_Z_spec.
      change (Uint63.to_Z 1) with 1%Z. change wB with (2 ^ 63)%Z. reflexivity. }
    rewrite E. apply popcnt32_ones. destruct Hk as (Hk0 & _). lia.
  - apply isUint32_toUint32.
  - intros n Hn. rewrite tb_toUint32, tb_land.
    assert (Hsub : Uint63.to_Z (v - 1) = (Uint63.to_Z v - 1)%Z).
    { rewrite Uint63.sub_spec. change (Uint63.to_Z 1) with 1%Z. change wB with (2 ^ 63)%Z.
      apply Z.mod_small. lia. }
    unfold tb at 2. rewrite Hsub, (testbit_pred _ k) by assumption.
    destruct (Z.ltb_spec n 32).
    + cbn [andb]. destruct (Z.ltb_spec n k).
      * destruct Hk as (_ & _ & Hlow). unfold tb. rewrite Hlow by lia.
        destruct (Z.eqb_spec n k); reflexivity.
      * destruct (Z.eqb_spec n k); cbn [negb andb]; [apply andb_false_r|].
        apply andb_diag.
    + cbn [andb]. rewrite tb_uint32_high by assumption. symmetry. apply andb_false_r.
Qed.

Lemma getLowestBitPosition32_zero : Bitboard.getLowestBitPosition32 0 = 32%uint63.
Proof. vm_compute. reflexivity. Qed.

Lemma popLowestBit32_zero : Bitboard.popLowestBit32 0 = 0%uint63.
Proof. vm_compute. reflexivity. Qed.

Lemma isEmpty_false (b : Bitboard.t) :
  Bitboard.isEmpty b = false ->
  Js.truthy (Bitboard.low b) = true
  \/ (Bitboard.low b = 0%uint63 /\ Js.truthy (Bitboard.high b) = true).
Proof.
  unfold Bitboard.isEmpty. intros H.
  destruct (Js.truthy (Bitboard.low b)) eqn:El; [left; reflexivity|].
  destruct (Js.truthy (Bitboard.high b)) eqn:Eh; [|discriminate].
  right. split; [apply truthy_false; exact El|reflexivity].
Qed.

Lemma of_Z_small (k : Z) : (0 <= k < 2 ^ 63)%Z -> Uint63.to_Z (Uint63.of_Z k) = k.
Proof. intros H. rewrite Uint63.of_Z_spec. change wB with (2 ^ 63)%Z. apply Z.mod_small. exact H. Qed.

(** A board that is not empty has a lowest set square [k]:
    [getLowestBitPosition] returns it and [popLowestBit] clears it. *)
Lemma lowestSquare (b : Bitboard.t) :
  wellFormed b -> Bitboard.isEmpty b = false ->
  exists k, (0 <= k < 64)%Z
            /\ Bitboard.getLowestBitPosition b = Uint63.of_Z k
            /\ bitAt b k = true
            /\ (forall j, (0 <= j < k)%Z -> bitAt b j = false)
            /\ wellFormed (Bitboard.popLowestBit b)
            /\ forall n, (0 <= n < 64)%Z ->
                 bitAt (Bitboard.popLowestBit b) n = negb (n =? k)%Z && bitAt b n.
Proof.
  intros [Hl Hh] He. unfold Bitboard.getLowestBitPosition, Bitboard.popLowestBit.
  destruct (isEmpty_false b He) as [Hlow|[Hzero Hhigh]].
  - rewrite Hlow.
    destruct (lowest32 _ Hl Hlow) as (k & (Hk0 & Hbit & Hleast) & Hk & Hget & Hwf & Hpop).
    exists k. split; [lia|]. split; [exact Hget|]. split; [|split; [|split]].
    + unfold bitAt. destruct (Z.ltb_spec k 32); [exact Hbit|lia].
    + intros j Hj. unfold bitAt. destruct (Z.ltb_spec j 32); [|lia]. apply Hleast. lia.
    + split; [exact Hwf|exact Hh].
    + intros n Hn. unfold bitAt. cbn [Bitboard.low Bitboard.high].
      destruct (Z.ltb_spec n 32); [apply Hpop; lia|].
      destruct (Z.eqb_spec n k); [lia|reflexivity].
  - assert (El : Js.truthy (Bitboard.low b) = false) by (rewrite Hzero; reflexivity).
    rewrite El.
    destruct (lowest32 _ Hh Hhigh) as (k & (Hk0 & Hbit & Hleast) & Hk & Hget & Hwf & Hpop).
    exists (32 + k)%Z. split; [lia|]. split; [|split; [|split; [|split]]].
    + rewrite Hget. apply Uint63.to_Z_inj.
      rewrite Uint63.add_spec, !of_Z_small by lia.
      change (Uint63.to_Z 32) with 32%Z. change wB with (2 ^ 63)%Z. apply Z.mod_small. lia.
    + unfold bitAt. destruct (Z.ltb_spec (32 + k) 32); [lia|].
      replace (32 + k - 32)%Z with k by lia. exact Hbit.
    + intros j Hj. unfold bitAt. destruct (Z.ltb_spec j 32).
      * rewrite Hzero. apply tb_zero.
      * apply Hleast. lia.
    + split; [exact Hl|exact Hwf].
    + intros n Hn. unfold bitAt. cbn [Bitboard.low Bitboard.high].
      destruct (Z.ltb_spec n 32).
      * rewrite Hzero, tb_zero. symmetry. apply andb_false_r.
      * rewrite Hpop by lia.
        destruct (Z.eqb_spec (n - 32) k), (Z.eqb_spec n (32 + k)); try lia; reflexivity.
Qed.

(** *** Enumerating the squares *)

Lemma squares_eq : squares = map squareOfNat (seq 0 64).
Proof. vm_compute. reflexivity. Qed.

Lemma squareOfNat_to_Z (n : nat) : (n < 64)%nat -> Uint63.to_Z (squareOfNat n) = Z.of_nat n.
Proof. intros H. unfold squareOfNat. apply of_Z_small. lia. Qed.

Lemma In_squares (i : int) : In i squares <-> isSquare i.
Proof.
  rewrite squares_eq, in_map_iff. split.
  - intros (n & <- & Hn). apply in_seq in Hn. apply isSquare_iff.
    rewrite squareOfNat_to_Z; lia.
  - intros Hi. apply isSquare_iff in Hi. pose proof (to_Z_range i).
    exists (Z.to_nat (Uint63.to_Z i)). split.
    + unfold squareOfNat. rewrite Z2Nat.id by lia. apply Uint63.of_to_Z.
    + apply in_seq. lia.
Qed.

Lemma squaresOf_eq (b : Bitboard.t) :
  squaresOf b = map squareOfNat (filter (fun n => bitAt b (Z.of_nat n)) (seq 0 64)).
Proof.
  unfold squaresOf. rewrite squares_eq.
  generalize (seq 0 64) (fun n => proj1 (in_seq 64 0 n)).
  induction l as [|n l IH]; intros Hl; [reflexivity|].
  cbn [map filter].
  assert (Hn : (n < 64)%nat) by (specialize (Hl n (or_introl eq_refl)); lia).
  rewrite isSet_bitAt by (apply isSquare_iff; rewrite squareOfNat_to_Z; lia).
  rewrite squareOfNat_to_Z by exact Hn.
  rewrite IH by (intros m Hm; apply Hl; right; exact Hm).
  destruct (bitAt b (Z.of_nat n)); reflexivity.
Qed.

Lemma filter_lowest (f g : nat -> bool) (k bound : nat) :
  f k = true -> g k = false ->
  (forall j, (j < k)%nat -> f j = false) ->
  (forall j, (j < bound)%nat -> j <> k -> g j = f j) ->
  forall m a, (a <= k < a + m)%nat -> (a + m <= bound)%nat ->
              filter f (seq a m) = k :: filter g (seq a m).
Proof.
  intros Hfk Hgk Hlow Hsame. induction m as [|m IH]; intros a Ha Hb; [lia|].
  cbn [seq filter]. destruct (Nat.eq_dec a k) as [->|Hne].
  - rewrite Hfk, Hgk. f_equal. apply filter_ext_in. intros j Hj. apply in_seq in Hj.
    symmetry. apply Hsame; lia.
  - rewrite (Hsame a) by lia. rewrite (Hlow a) by lia. apply IH; lia.
Qed.

Lemma squaresOf_lowest (b : Bitboard.t) :
  wellFormed b -> Bitboard.isEmpty b = false ->
  squaresOf b = Bitboard.getLowestBitPosition b :: squaresOf (Bitboard.popLowestBit b).
Proof.
  intros Hb He. destruct (lowestSquare b Hb He) as (k & Hk & Hget & Hbit & Hlow & _ & Hpop).
  rewrite !squaresOf_eq, Hget.
  rewrite (filter_lowest _ (fun n => bitAt (Bitboard.popLowestBit b) (Z.of_nat n))
             (Z.to_nat k) 64).
  - rewrite map_cons. f_equal. unfold squareOfNat. rewrite Z2Nat.id by lia. reflexivity.
  - rewrite Z2Nat.id by lia. exact Hbit.
  - rewrite Hpop by lia. rewrite Z2Nat.id by lia. rewrite Z.eqb_refl. reflexivity.
  - intros j Hj. apply Hlow. lia.
  - intros j Hj Hne. rewrite Hpop by lia.
    destruct (Z.eqb_spec (Z.of_nat j) k); [lia|reflexivity].
  - lia.
  - lia.
Qed.

Lemma squaresOf_empty (b : Bitboard.t) :
  wellFormed b -> Bitboard.isEmpty b = true -> squaresOf b = [].
Proof.
  intros Hb He. rewrite squaresOf_eq.
  rewrite (filter_ext_in _ (fun _ => false)); [induction (seq 0 64); [reflexivity|assumption]|].
  intros n Hn. apply in_seq in Hn. apply (proj1 (isEmpty_bitAt b Hb) He). lia.
Qed.

Lemma extractLoop_squaresOf (fuel : nat) :
  forall b, wellFormed b -> (List.length (squaresOf b) <= fuel)%nat ->
            Bitboard.extractLoop fuel b = squaresOf b.
Proof.
  induction fuel as [|fuel IH]; intros b Hb Hlen.
  - destruct (squaresOf b); [reflexivity|cbn [List.length] in Hlen; lia].
  - cbn [Bitboard.extractLoop]. destruct (Bitboard.isEmpty b) eqn:He.
    + symmetry. apply squaresOf_empty; assumption.
    + unfold Bitboard.extractLowestBitPosition.
      rewrite (squaresOf_lowest b Hb He) in Hlen |- *. cbn [List.length] in Hlen.
      f_equal. apply IH; [|lia].
      destruct (lowestSquare b Hb He) as (_ & _ & _ & _ & _ & Hwf & _). exact Hwf.
Qed.

Lemma squaresOf_length (b : Bitboard.t) : (List.length (squaresOf b) <= 64)%nat.
Proof.
  pose proof (filter_length_le (Bitboard.isSet b) squares) as H.
  assert (E : List.length squares = 64%nat) by reflexivity.
  rewrite E in H. exact H.
Qed.

Lemma eqb_to_Z (i j : int) : (i =? j)%uint63 = (Uint63.to_Z i =? Uint63.to_Z j)%Z.
Proof.
  destruct (Uint63.eqbP i j) as [E|E], (Z.eqb_spec (Uint63.to_Z i) (Uint63.to_Z j));
    try reflexivity; contradiction.
Qed.

Lemma forall_square (P : int -> bool) :
  forallb P squares = true -> forall j, isSquare j -> P j = true.
Proof. intros H j Hj. rewrite forallb_forall in H. apply H. apply In_squares. exact Hj. Qed.

Lemma forall_square2 (P : int -> int -> bool) :
  forallb (fun i => forallb (P i) squares) squares = true ->
  forall i j, isSquare i -> isSquare j -> P i j = true.
Proof.
  intros H i j Hi Hj.
  apply (forall_square (P i)); [|exact Hj].
  apply (forall_square (fun i => forallb (P i) squares)); assumption.
Qed.

Lemma eqb_bool_true (a b : bool) : Bool.eqb a b = true -> a = b.
Proof. apply Bool.eqb_prop. Qed.

Lemma extractAll_eq (b : Bitboard.t) : wellFormed b -> Bitboard.extractAll b = squaresOf b.
Proof.
  intros Hb. unfold Bitboard.extractAll.
  apply extractLoop_squaresOf; [exact Hb|apply squaresOf_length].
Qed.

(** ** bitboard.js: the squares of a board *)

(** X1: for squares [i] and [j], [setBit(i)] sets square [i] and leaves the
    others, [clearBit(i)] clears square [i] and leaves the others, and
    [isClear] is the negation of [isSet]. *)
Theorem setBit_clearBit_isSet (b : Bitboard.t) (i j : int) :
  isSquare i -> isSquare j ->
  Bitboard.isSet (Bitboard.setBit b i) j = (j =? i)%uint63 || Bitboard.isSet b j
  /\ Bitboard.isSet (Bitboard.clearBit b i) j = negb (j =? i)%uint63 && Bitboard.isSet b j
  /\ Bitboard.isClear b j = negb (Bitboard.isSet b j).
Proof.
  intros Hi Hj. pose proof Hj as Hj'. apply isSquare_iff in Hj'. pose proof (to_Z_range j).
  split; [|split].
  - rewrite !isSet_bitAt, bitAt_setBit, eqb_to_Z by (assumption || lia). reflexivity.
  - rewrite !isSet_bitAt, bitAt_clearBit, eqb_to_Z by (assumption || lia). reflexivity.
  - apply isClear_isSet.
Qed.

Lemma setBit_clearBit_isSet_witness :
  Bitboard.isSet (Bitboard.setBit Bitboard.ZERO 12) 12 = true
  /\ Bitboard.isSet (Bitboard.clearBit Bitboard.ONE 12) 12 = false.
Proof.
  split.
  - rewrite (proj1 (setBit_clearBit_isSet Bitboard.ZERO 12 12 eq_refl eq_refl)). reflexivity.
  - rewrite (proj1 (proj2 (setBit_clearBit_isSet Bitboard.ONE 12 12 eq_refl eq_refl))).
    reflexivity.
Defined.

(** X2: [and], [or], [xor], [and_not] and [not] act square by square. *)
Theorem bitwise_isSet (b c : Bitboard.t) (j : int) :
  isSquare j ->
  Bitboard.isSet (Bitboard.and_ b c) j = Bitboard.isSet b j && Bitboard.isSet c j
  /\ Bitboard.isSet (Bitboard.or_ b c) j = Bitboard.isSet b j || Bitboard.isSet c j
  /\ Bitboard.isSet (Bitboard.xor_ b c) j = xorb (Bitboard.isSet b j) (Bitboard.isSet c j)
  /\ Bitboard.isSet (Bitboard.and_not b c) j = Bitboard.isSet b j && negb (Bitboard.isSet c j)
  /\ Bitboard.isSet (Bitboard.not_ b) j = negb (Bitboard.isSet b j).
Proof.
  intros Hj. pose proof Hj as Hj'. apply isSquare_iff in Hj'. pose proof (to_Z_range j).
  rewrite !isSet_bitAt by assumption.
  rewrite bitAt_and, bitAt_or, bitAt_xor, bitAt_and_not, bitAt_not by lia.
  repeat split.
Qed.

Lemma bitwise_isSet_witness :
  Bitboard.isSet (Bitboard.and_ Bitboard.LIGHT_SQUARES Bitboard.DARK_SQUARES) 9 = false.
Proof.
  rewrite (proj1 (bitwise_isSet Bitboard.LIGHT_SQUARES Bitboard.DARK_SQUARES 9 eq_refl)).
  reflexivity.
Defined.

(** X3: the halves of a board stay 32-bit words: the constructor and the
    bitwise operations always return such a board, and setting, clearing,
    shifting and popping the lowest square keep a board so. *)
Theorem operations_wellFormed (b c : Bitboard.t) (l h i : int) :
  wellFormed (Bitboard.make l h)
  /\ wellFormed (Bitboard.dup b)
  /\ wellFormed (Bitboard.and_ b c) /\ wellFormed (Bitboard.or_ b c)
  /\ wellFormed (Bitboard.xor_ b c) /\ wellFormed (Bitboard.and_not b c)
  /\ wellFormed (Bitboard.not_ b)
  /\ (wellFormed b ->
      wellFormed (Bitboard.setBit b i) /\ wellFormed (Bitboard.clearBit b i)
      /\ wellFormed (Bitboard.shl b i) /\ wellFormed (Bitboard.shr b i)
      /\ wellFormed (Bitboard.shiftLeft b i) /\ wellFormed (Bitboard.popLowestBit b)).
Proof.
  split; [apply wellFormed_make|]. split; [apply wellFormed_dup|].
  split; [apply wellFormed_and|]. split; [apply wellFormed_or|].
  split; [apply wellFormed_xor|]. split; [apply wellFormed_and_not|].
  split; [apply wellFormed_not|]. intros Hb.
  split; [apply wellFormed_setBit; exact Hb|]. split; [apply wellFormed_clearBit; exact Hb|].
  split; [apply wellFormed_shl; exact Hb|]. split; [apply wellFormed_shr; exact Hb|].
  split; [apply wellFormed_shiftLeft; exact Hb|].
  destruct Hb as [Hl Hh]. unfold Bitboard.popLowestBit.
  destruct (Js.truthy (Bitboard.low b)); split; cbn [Bitboard.low Bitboard.high];
    try assumption; apply isUint32_toUint32.
Qed.

(** X4: on a board with 32-bit halves, [xor] with the same board twice
    gives the board back, and [dup] gives an equal board. *)
Theorem xor_twice (b c : Bitboard.t) :
  wellFormed b ->
  Bitboard.xor_ (Bitboard.xor_ b c) c = b /\ Bitboard.dup b = b
  /\ Bitboard.isEqual (Bitboard.dup b) b = true.
Proof.
  intros Hb. split; [|split].
  - apply bitAt_ext; [apply wellFormed_xor|exact Hb|]. intros n Hn.
    rewrite !bitAt_xor by lia. destruct (bitAt b n), (bitAt c n); reflexivity.
  - apply dup_wellFormed. exact Hb.
  - apply isEqual_iff. apply dup_wellFormed. exact Hb.
Qed.

Lemma xor_twice_witness :
  Bitboard.xor_ (Bitboard.xor_ Bitboard.LIGHT_SQUARES (Bitboard.makeIndex 12))
    (Bitboard.makeIndex 12) = Bitboard.LIGHT_SQUARES.
Proof.
  apply (proj1 (xor_twice Bitboard.LIGHT_SQUARES (Bitboard.makeIndex 12)
                  (conj eq_refl eq_refl))).
Defined.

(** X5: [shl(v)] moves every square up by [v] and [shr(v)] down by [v],
    for [v] from [0] to [63]; squares pushed over the edge are lost. *)
Theorem shl_shr_isSet (b : Bitboard.t) (v j : int) :
  (v <? 64)%uint63 = true -> isSquare j ->
  Bitboard.isSet (Bitboard.shl b v) j = (v <=? j)%uint63 && Bitboard.isSet b (j - v)
  /\ Bitboard.isSet (Bitboard.shr b v) j = (j + v <? 64)%uint63 && Bitboard.isSet b (j + v).
Proof.
  intros Hv Hj. pose proof Hj as Hj'. apply isSquare_iff in Hj'. apply Uint63.ltb_spec in Hv.
  change (Uint63.to_Z 64) with 64%Z in Hv.
  pose proof (to_Z_range j). pose proof (to_Z_range v). split.
  - rewrite isSet_bitAt, bitAt_shl by (assumption || lia).
    destruct (Uint63.lebP v j) as [Hle|Hgt].
    + destruct (Z.leb_spec (Uint63.to_Z v) (Uint63.to_Z j)); [|lia]. cbn [andb].
      rewrite isSet_bitAt by (apply isSquare_iff; rewrite sub_small; lia).
      rewrite sub_small by lia. reflexivity.
    + destruct (Z.leb_spec (Uint63.to_Z v) (Uint63.to_Z j)); [lia|reflexivity].
  - rewrite isSet_bitAt, bitAt_shr by (assumption || lia).
    assert (E : Uint63.to_Z (j + v) = (Uint63.to_Z j + Uint63.to_Z v)%Z).
    { rewrite Uint63.add_spec. change wB with (2 ^ 63)%Z. apply Z.mod_small. lia. }
    destruct (Uint63.ltbP (j + v) 64) as [Hlt|Hge]; change (Uint63.to_Z 64) with 64%Z in *;
      rewrite E in *.
    + destruct (Z.ltb_spec (Uint63.to_Z j + Uint63.to_Z v) 64); [|lia]. cbn [andb].
      rewrite isSet_bitAt by (apply isSquare_iff; lia). rewrite E. reflexivity.
    + destruct (Z.ltb_spec (Uint63.to_Z j + Uint63.to_Z v) 64); [lia|reflexivity].
Qed.

Lemma shl_shr_isSet_witness :
  Bitboard.isSet (Bitboard.shl (Bitboard.makeIndex 12) 8) 20 = true.
Proof.
  rewrite (proj1 (shl_shr_isSet (Bitboard.makeIndex 12) 8 20 eq_refl eq_refl)). reflexivity.
Defined.

(** X6: [shiftLeft(v)] is [shl(v)] for [v] from [1] to [63], [shr(v)] for
    [-v], the board itself for [0], and the empty board when [v] is
    beyond [63] either way ([v] a 32-bit distance). *)
Theorem shiftLeft_cases (b : Bitboard.t) (v : int) :
  (0 <? v)%uint63 = true -> (v <? 0x100000000)%uint63 = true ->
  Bitboard.shiftLeft b 0 = b
  /\ ((v <? 64)%uint63 = true ->
      Bitboard.shiftLeft b v = Bitboard.shl b v
      /\ Bitboard.shiftLeft b (Js.neg v) = Bitboard.shr b v)
  /\ ((v <? 64)%uint63 = false ->
      Bitboard.shiftLeft b v = Bitboard.ZERO /\ Bitboard.shiftLeft b (Js.neg v) = Bitboard.ZERO).
Proof.
  intros Hpos Hmax. apply Uint63.ltb_spec in Hpos, Hmax.
  change (Uint63.to_Z 0) with 0%Z in Hpos.
  change (Uint63.to_Z 0x100000000) with (2 ^ 32)%Z in Hmax.
  assert (Hs : Sint63.to_Z v = Uint63.to_Z v) by (apply signed_small; lia).
  assert (Hn : Sint63.to_Z (Js.neg v) = (- Uint63.to_Z v)%Z)
    by (rewrite signed_neg, Hs; lia).
  split; [reflexivity|]. split.
  - intros Hv. apply Uint63.ltb_spec in Hv. change (Uint63.to_Z 64) with 64%Z in Hv.
    unfold Bitboard.shiftLeft, Js.lt. split.
    + destruct (Sint63.ltbP 63 v) as [H1|_]; [change (Sint63.to_Z 63) with 63%Z in H1; lia|].
      destruct (Sint63.ltbP v (Js.neg 63)) as [H2|_];
        [change (Sint63.to_Z (Js.neg 63)) with (-63)%Z in H2; lia|].
      cbn [orb].
      destruct (Sint63.ltbP 0 v) as [_|H3]; [reflexivity|].
      change (Sint63.to_Z 0) with 0%Z in H3. lia.
    + destruct (Sint63.ltbP 63 (Js.neg v)) as [H1|_];
        [change (Sint63.to_Z 63) with 63%Z in H1; lia|].
      destruct (Sint63.ltbP (Js.neg v) (Js.neg 63)) as [H2|_];
        [change (Sint63.to_Z (Js.neg 63)) with (-63)%Z in H2; lia|].
      cbn [orb].
      destruct (Sint63.ltbP 0 (Js.neg v)) as [H3|_];
        [change (Sint63.to_Z 0) with 0%Z in H3; lia|].
      destruct (Sint63.ltbP (Js.neg v) 0) as [_|H4].
      * assert (E : Js.neg (Js.neg v) = v) by (unfold Js.neg; lia).
        rewrite E. reflexivity.
      * change (Sint63.to_Z 0) with 0%Z in H4. lia.
  - intros Hv. destruct (Uint63.ltbP v 64) as [|Hge]; [discriminate|].
    change (Uint63.to_Z 64) with 64%Z in Hge.
    split; apply shiftLeft_far; lia.
Qed.

Lemma shiftLeft_cases_witness :
  Bitboard.shiftLeft (Bitboard.makeIndex 12) 64 = Bitboard.ZERO
  /\ Bitboard.shiftLeft (Bitboard.makeIndex 12) 8 = Bitboard.shl (Bitboard.makeIndex 12) 8.
Proof.
  split.
  - apply (proj2 (proj2 (shiftLeft_cases (Bitboard.makeIndex 12) 64 eq_refl eq_refl)) eq_refl).
  - apply (proj1 (proj2 (shiftLeft_cases (Bitboard.makeIndex 12) 8 eq_refl eq_refl)) eq_refl).
Defined.

(** X7: a board with 32-bit halves is empty exactly when none of the 64
    squares is set. *)
Theorem isEmpty_iff (b : Bitboard.t) :
  wellFormed b ->
  (Bitboard.isEmpty b = true <-> forall j, isSquare j -> Bitboard.isSet b j = false).
Proof.
  intros Hb. rewrite (isEmpty_bitAt b Hb). split.
  - intros H j Hj. rewrite isSet_bitAt by exact Hj. apply H.
    apply isSquare_iff in Hj. pose proof (to_Z_range j). lia.
  - intros H n Hn. specialize (H (Uint63.of_Z n)).
    rewrite isSet_bitAt, of_Z_small in H by (try apply isSquare_iff; rewrite ?of_Z_small; lia).
    apply H. apply isSquare_iff. rewrite of_Z_small; lia.
Qed.

Lemma isEmpty_iff_witness :
  Bitboard.isEmpty Bitboard.ZERO = true
  <-> forall j, isSquare j -> Bitboard.isSet Bitboard.ZERO j = false.
Proof. apply (isEmpty_iff Bitboard.ZERO (conj eq_refl eq_refl)). Defined.

Lemma wellFormed_empty (b : Bitboard.t) :
  wellFormed b -> Bitboard.isEmpty b = true -> b = Bitboard.ZERO.
Proof.
  destruct b as [l h]. unfold Bitboard.isEmpty. cbn [Bitboard.low Bitboard.high].
  intros _ H. apply andb_true_iff in H as [Hl Hh].
  apply negb_true_iff, truthy_false in Hl. apply negb_true_iff, truthy_false in Hh.
  subst. reflexivity.
Qed.

(** X8: on a board that is not empty, [getLowestBitPosition] is a set
    square and no lower square is set; on the empty board it is [64]. *)
Theorem getLowestBitPosition_least (b : Bitboard.t) :
  wellFormed b ->
  (Bitboard.isEmpty b = false ->
   isSquare (Bitboard.getLowestBitPosition b)
   /\ Bitboard.isSet b (Bitboard.getLowestBitPosition b) = true
   /\ forall j, (j <? Bitboard.getLowestBitPosition b)%uint63 = true ->
                Bitboard.isSet b j = false)
  /\ (Bitboard.isEmpty b = true -> Bitboard.getLowestBitPosition b = 64%uint63).
Proof.
  intros Hb. split.
  - intros He. destruct (lowestSquare b Hb He) as (k & Hk & Hget & Hbit & Hlow & _).
    rewrite Hget.
    assert (Hi : isSquare (Uint63.of_Z k)) by (apply isSquare_iff; rewrite of_Z_small; lia).
    split; [exact Hi|]. split.
    + rewrite isSet_bitAt, of_Z_small by (assumption || lia). exact Hbit.
    + intros j Hj. apply Uint63.ltb_spec in Hj. rewrite of_Z_small in Hj by lia.
      pose proof (to_Z_range j).
      rewrite isSet_bitAt by (apply isSquare_iff; lia). apply Hlow. lia.
  - intros He. rewrite (wellFormed_empty b Hb He). reflexivity.
Qed.

Lemma getLowestBitPosition_least_witness :
  Bitboard.getLowestBitPosition Bitboard.ZERO = 64%uint63
  /\ Bitboard.isSet Bitboard.LIGHT_SQUARES
       (Bitboard.getLowestBitPosition Bitboard.LIGHT_SQUARES) = true.
Proof.
  split.
  - apply (proj2 (getLowestBitPosition_least Bitboard.ZERO (conj eq_refl eq_refl)) eq_refl).
  - apply (proj1 (getLowestBitPosition_least Bitboard.LIGHT_SQUARES (conj eq_refl eq_refl))
             eq_refl).
Defined.

(** X9: [popLowestBit] clears the square [getLowestBitPosition] returns and
    no other; an empty board stays empty. *)
Theorem popLowestBit_isSet (b : Bitboard.t) (j : int) :
  wellFormed b -> isSquare j ->
  Bitboard.isSet (Bitboard.popLowestBit b) j
  = negb (j =? Bitboard.getLowestBitPosition b)%uint63 && Bitboard.isSet b j.
Proof.
  intros Hb Hj. pose proof Hj as Hj'. apply isSquare_iff in Hj'. pose proof (to_Z_range j).
  destruct (Bitboard.isEmpty b) eqn:He.
  - rewrite (wellFormed_empty b Hb He).
    change (Bitboard.popLowestBit Bitboard.ZERO) with Bitboard.ZERO.
    rewrite isSet_bitAt, bitAt_ZERO by exact Hj. symmetry. apply andb_false_r.
  - destruct (lowestSquare b Hb He) as (k & Hk & Hget & _ & _ & _ & Hpop).
    rewrite !isSet_bitAt, Hpop, Hget, eqb_to_Z, of_Z_small by (assumption || lia).
    reflexivity.
Qed.

Lemma popLowestBit_isSet_witness :
  Bitboard.isSet (Bitboard.popLowestBit Bitboard.ONE) 0 = false.
Proof. rewrite (popLowestBit_isSet Bitboard.ONE 0 (conj eq_refl eq_refl) eq_refl). reflexivity. Defined.

(** X10: the loop [while (!bb.isEmpty()) bb.extractLowestBitPosition()]
    visits the set squares of a board with 32-bit halves, each once, in
    ascending order; 64 rounds always empty the board. *)
Theorem extractAll_squaresOf (b : Bitboard.t) :
  wellFormed b -> Bitboard.extractAll b = squaresOf b.
Proof.
  intros Hb. apply extractAll_eq. exact Hb.
Qed.

Lemma extractAll_squaresOf_witness :
  Bitboard.extractAll (Bitboard.or_ (Bitboard.makeIndex 40) (Bitboard.makeIndex 3))
  = squaresOf (Bitboard.or_ (Bitboard.makeIndex 40) (Bitboard.makeIndex 3)).
Proof. apply extractAll_squaresOf. exact (conj eq_refl eq_refl). Defined.

(** ** bitboard.js: the precomputed tables *)

(** X11: the tables of ranks, files and square colours agree with
    [Chess.getRank], [Chess.getFile] and [Chess.isLight]: square [j] is in
    [RANKS[r]] exactly when its rank is [r], in [FILES[f]] exactly when
    its file is [f], in [LIGHT_SQUARES] exactly when it is light and in
    [DARK_SQUARES] exactly when it is not; [makeIndex(i)] holds square
    [i] only. *)
Theorem tables_isSet (i j : int) :
  isSquare i -> isSquare j ->
  Bitboard.isSet (Bitboard.makeIndex i) j = (j =? i)%uint63
  /\ ((i <? 8)%uint63 = true ->
      Bitboard.isSet Bitboard.RANKS.[i] j = (Chess.getRank j =? i)%uint63
      /\ Bitboard.isSet Bitboard.FILES.[i] j = (Chess.getFile j =? i)%uint63)
  /\ Bitboard.isSet Bitboard.LIGHT_SQUARES j = Chess.isLight (Chess.getRank j) (Chess.getFile j)
  /\ Bitboard.isSet Bitboard.DARK_SQUARES j
     = negb (Chess.isLight (Chess.getRank j) (Chess.getFile j)).
Proof.
  intros Hi Hj. split; [|split; [|split]].
  - pose proof Hj as Hj'. apply isSquare_iff in Hj'. pose proof (to_Z_range j).
    rewrite isSet_bitAt, bitAt_makeIndex, eqb_to_Z by (assumption || lia). reflexivity.
  - intros Hi8. split.
    + apply eqb_bool_true. revert Hi8. apply implb_true_iff.
      apply (forall_square2
               (fun i j => implb (i <? 8)%uint63
                             (Bool.eqb (Bitboard.isSet Bitboard.RANKS.[i] j)
                                       (Chess.getRank j =? i)%uint63)));
        [vm_compute; reflexivity|assumption..].
    + apply eqb_bool_true. revert Hi8. apply implb_true_iff.
      apply (forall_square2
               (fun i j => implb (i <? 8)%uint63
                             (Bool.eqb (Bitboard.isSet Bitboard.FILES.[i] j)
                                       (Chess.getFile j =? i)%uint63)));
        [vm_compute; reflexivity|assumption..].
  - apply eqb_bool_true.
    apply (forall_square
             (fun j => Bool.eqb (Bitboard.isSet Bitboard.LIGHT_SQUARES j)
                         (Chess.isLight (Chess.getRank j) (Chess.getFile j))));
      [vm_compute; reflexivity|assumption].
  - apply eqb_bool_true.
    apply (forall_square
             (fun j => Bool.eqb (Bitboard.isSet Bitboard.DARK_SQUARES j)
                         (negb (Chess.isLight (Chess.getRank j) (Chess.getFile j)))));
      [vm_compute; reflexivity|assumption].
Qed.

Lemma tables_isSet_witness :
  Bitboard.isSet (Bitboard.makeIndex 12) 12 = true
  /\ Bitboard.isSet Bitboard.RANKS.[1] 12 = true.
Proof.
  split.
  - rewrite (proj1 (tables_isSet 12 12 eq_refl eq_refl)). reflexivity.
  - rewrite (proj1 (proj1 (proj2 (tables_isSet 1 12 eq_refl eq_refl)) eq_refl)). reflexivity.
Defined.

(** X12: [KNIGHT_MOVEMENTS[i]] holds the squares a knight's step away from
    square [i], and [KING_MOVEMENTS[i]] the squares next to it; no step
    wraps around the edge of the board. *)
Theorem movement_tables (i j : int) :
  isSquare i -> isSquare j ->
  Bitboard.isSet Bitboard.KNIGHT_MOVEMENTS.[i] j = knightStep i j
  /\ Bitboard.isSet Bitboard.KING_MOVEMENTS.[i] j = kingStep i j
  /\ Bitboard.makeKnightMovement i = Bitboard.KNIGHT_MOVEMENTS.[i]
  /\ Bitboard.makeKingMovement i = Bitboard.KING_MOVEMENTS.[i].
Proof.
  intros Hi Hj. split; [|split; [|split]].
  - apply eqb_bool_true.
    apply (forall_square2
             (fun i j => Bool.eqb (Bitboard.isSet Bitboard.KNIGHT_MOVEMENTS.[i] j)
                                  (knightStep i j)));
      [vm_compute; reflexivity|assumption..].
  - apply eqb_bool_true.
    apply (forall_square2
             (fun i j => Bool.eqb (Bitboard.isSet Bitboard.KING_MOVEMENTS.[i] j)
                                  (kingStep i j)));
      [vm_compute; reflexivity|assumption..].
  - apply isEqual_iff.
    apply (forall_square
             (fun i => Bitboard.isEqual (Bitboard.makeKnightMovement i)
                         Bitboard.KNIGHT_MOVEMENTS.[i]));
      [vm_compute; reflexivity|assumption].
  - apply isEqual_iff.
    apply (forall_square
             (fun i => Bitboard.isEqual (Bitboard.makeKingMovement i)
                         Bitboard.KING_MOVEMENTS.[i]));
      [vm_compute; reflexivity|assumption].
Qed.

Lemma movement_tables_witness :
  Bitboard.isSet Bitboard.KNIGHT_MOVEMENTS.[1] 16 = true
  /\ Bitboard.isSet Bitboard.KING_MOVEMENTS.[7] 8 = false.
Proof.
  split.
  - rewrite (proj1 (movement_tables 1 16 eq_refl eq_refl)). reflexivity.
  - rewrite (proj1 (proj2 (movement_tables 7 8 eq_refl eq_refl))). reflexivity.
Defined.

(** ** move.js: packing and unpacking a move *)

Lemma tb_ones (w : Z) (n : Z) :
  (0 <= w < 63)%Z -> tb (Uint63.of_Z (Z.ones w)) n = (0 <=? n)%Z && (n <? w)%Z.
Proof.
  intros Hw. unfold tb. rewrite of_Z_small.
  - destruct (Z.leb_spec 0 n); cbn [andb].
    + destruct (Z.ltb_spec n w); [apply Z.ones_spec_low|apply Z.ones_spec_high]; lia.
    + apply Z.testbit_neg_r. lia.
  - rewrite Z.ones_equiv. split; [|apply Z.lt_le_trans with (2 ^ w)%Z; [lia|]].
    + assert (0 < 2 ^ w)%Z by (apply Z.pow_pos_nonneg; lia). lia.
    + apply Z.pow_le_mono_r; lia.
Qed.

Lemma tb_mask6 (n : Z) : tb 63 n = (0 <=? n)%Z && (n <? 6)%Z.
Proof. apply (tb_ones 6). lia. Qed.
Lemma tb_mask4 (n : Z) : tb 15 n = (0 <=? n)%Z && (n <? 4)%Z.
Proof. apply (tb_ones 4). lia. Qed.
Lemma tb_mask3 (n : Z) : tb 7 n = (0 <=? n)%Z && (n <? 3)%Z.
Proof. apply (tb_ones 3). lia. Qed.

Lemma land_small (x : int) (w : Z) :
  (0 <= w < 63)%Z -> (Uint63.to_Z x < 2 ^ w)%Z -> x land Uint63.of_Z (Z.ones w) = x.
Proof.
  intros Hw Hx. pose proof (to_Z_range x). apply tb_ext. intros n Hn.
  rewrite tb_land, tb_ones by exact Hw.
  destruct (Z.leb_spec 0 n); [|lia]. destruct (Z.ltb_spec n w); cbn [andb].
  - apply andb_true_r.
  - unfold tb. rewrite (testbit_small _ w) by lia. reflexivity.
Qed.

(** Decides the comparisons of a goal from the bounds at hand. *)
Ltac decide_cmp :=
  repeat match goal with
         | |- context [(?a <? ?b)%Z] =>
             first [ rewrite (proj2 (Z.ltb_lt a b)) by lia
                   | rewrite (proj2 (Z.ltb_ge a b)) by lia ]
         | |- context [(?a <=? ?b)%Z] =>
             first [ rewrite (proj2 (Z.leb_le a b)) by lia
                   | rewrite (proj2 (Z.leb_gt a b)) by lia ]
         end;
  cbn [andb orb negb].

Ltac shift_constants :=
  change (Uint63.to_Z 6) with 6%Z in *; change (Uint63.to_Z 12) with 12%Z in *;
  change (Uint63.to_Z 16) with 16%Z in *; change (Uint63.to_Z 19) with 19%Z in *.

Ltac finish_bits :=
  rewrite ?tb_lor, ?tb_lsl, ?tb_land, ?tb_mask6, ?tb_mask4, ?tb_mask3;
  shift_constants; decide_cmp;
  repeat match goal with
         | |- context [tb ?x (?n + ?k - ?k)%Z] => replace (n + k - k)%Z with n by lia
         end;
  repeat match goal with
         | |- context [tb ?x ?n] => destruct (tb x n)
         end;
  reflexivity.

(** Reads the field of width [w] at bit [k] of a packed move. *)
Ltac field_bits w k :=
  unfold Move.make, Move.getTo, Move.getFrom, Move.getKind, Move.getPiece,
    Move.getCapturedPiece;
  cbn [Move.value];
  apply tb_ext; intros n Hn;
  rewrite tb_land;
  destruct (Z.lt_ge_cases n w);
  [ try (rewrite tb_asr by (shift_constants; lia)); finish_bits
  | rewrite ?tb_land, ?tb_mask6, ?tb_mask4, ?tb_mask3; decide_cmp;
    rewrite ?andb_false_r; reflexivity ].

Lemma getTo_make (from to kind piece : int) (c : option int) :
  Move.getTo (Move.make from to kind piece c) = to land 63.
Proof. field_bits 6%Z 0%Z. Qed.

Lemma getFrom_make (from to kind piece : int) (c : option int) :
  Move.getFrom (Move.make from to kind piece c) = from land 63.
Proof. field_bits 6%Z 6%Z. Qed.

Lemma getKind_make (from to kind piece : int) (c : option int) :
  Move.getKind (Move.make from to kind piece c) = kind land 15.
Proof. field_bits 4%Z 12%Z. Qed.

Lemma getPiece_make (from to kind piece : int) (c : option int) :
  Move.getPiece (Move.make from to kind piece c) = piece land 7.
Proof. field_bits 3%Z 16%Z. Qed.

Lemma getCapturedPiece_make (from to kind piece : int) (c : option int) :
  Move.getCapturedPiece (Move.make from to kind piece c) = Move.orZero c land 7.
Proof. field_bits 3%Z 19%Z. Qed.

Lemma land63_square (i : int) : isSquare i -> i land 63 = i.
Proof. intros Hi. apply isSquare_iff in Hi. apply (land_small i 6); [lia|exact Hi]. Qed.

Lemma land15_small (k : int) : (k <? 16)%uint63 = true -> k land 15 = k.
Proof.
  intros Hk. apply Uint63.ltb_spec in Hk. apply (land_small k 4); [lia|exact Hk].
Qed.

Lemma land7_small (k : int) : (k <? 8)%uint63 = true -> k land 7 = k.
Proof.
  intros Hk. apply Uint63.ltb_spec in Hk. apply (land_small k 3); [lia|exact Hk].
Qed.

(** X13: a move made from two squares, a kind below 16, a piece and a
    captured piece reads back the same [from], [to], kind and piece; the
    captured piece reads back as given, and as [PAWN] when it was
    [null]. *)
Theorem move_fields (from to kind piece : int) (capturedPiece : option int) :
  isSquare from -> isSquare to ->
  (kind <? 16)%uint63 = true -> (piece <? 8)%uint63 = true ->
  (Move.orZero capturedPiece <? 8)%uint63 = true ->
  let m := Move.make from to kind piece capturedPiece in
  Move.getFrom m = from /\ Move.getTo m = to /\ Move.getKind m = kind
  /\ Move.getPiece m = piece
  /\ Move.getCapturedPiece m
     = match capturedPiece with Some c => c | None => Chess.Piece.PAWN end.
Proof.
  intros Hf Ht Hk Hp Hc m. unfold m.
  rewrite getFrom_make, getTo_make, getKind_make, getPiece_make, getCapturedPiece_make.
  rewrite !land63_square, land15_small, !land7_small by assumption.
  repeat split.
Qed.

Lemma move_fields_witness :
  Move.getCapturedPiece
    (Move.make 12 28 Move.Kind.DOUBLE_PAWN_PUSH Chess.Piece.PAWN None) = Chess.Piece.PAWN
  /\ Move.getFrom
       (Move.make 12 28 Move.Kind.DOUBLE_PAWN_PUSH Chess.Piece.PAWN None) = 12%uint63.
Proof.
  pose proof (move_fields 12 28 Move.Kind.DOUBLE_PAWN_PUSH Chess.Piece.PAWN None
                eq_refl eq_refl eq_refl eq_refl eq_refl) as H.
  split; [apply H|apply H].
Defined.

Lemma forall_memInt (P : int -> bool) (l : list int) :
  forallb P l = true -> forall k, memInt k l = true -> P k = true.
Proof.
  intros H k Hk. unfold memInt in Hk. apply existsb_exists in Hk as (x & Hx & E).
  apply Uint63.eqb_spec in E. subst x. rewrite forallb_forall in H. apply H. exact Hx.
Qed.

Lemma moveKinds_below16 (k : int) : memInt k moveKinds = true -> (k <? 16)%uint63 = true.
Proof. apply (forall_memInt (fun k => (k <? 16)%uint63)). vm_compute. reflexivity. Qed.

(** X14: what each of the fourteen kinds of [Chess.Move.Kind] says.  [isCapture] holds for the two
    captures and the four capturing promotions, [isPromotion] for the
    eight promotions, [isCastle] for the two castles; [getPromotedPiece]
    is the knight, bishop, rook or queen the promotion names and [PAWN]
    for the other kinds; [getCaptureSquare] is [to], except en passant,
    where it is the square eight below [to] for a move up the board and
    eight above it for a move down. *)
Theorem move_kinds (from to kind piece : int) (capturedPiece : option int) :
  isSquare from -> isSquare to -> memInt kind moveKinds = true ->
  let m := Move.make from to kind piece capturedPiece in
  Move.isCapture m = memInt kind captureKinds
  /\ Move.isPromotion m = memInt kind promotionKinds
  /\ Move.isCastle m = memInt kind castleKinds
  /\ Move.getPromotedPiece m = promotedPieceOf kind
  /\ Move.getCaptureSquare m
     = if (kind =? Move.Kind.EN_PASSANT_CAPTURE)%uint63
       then (if (from <? to)%uint63 then to - 8 else to + 8)%uint63
       else to.
Proof.
  intros Hf Ht Hk m. unfold m. clear m.
  unfold Move.isCapture, Move.isPromotion, Move.isCastle, Move.getPromotedPiece,
    Move.getCaptureSquare, Move.isPromotion.
  rewrite getKind_make, getFrom_make, getTo_make.
  rewrite !land63_square, land15_small by (assumption || apply moveKinds_below16, Hk).
  split; [|split; [|split; [|split]]].
  - apply eqb_bool_true. revert kind Hk. apply forall_memInt. vm_compute. reflexivity.
  - apply eqb_bool_true. revert kind Hk. apply forall_memInt. vm_compute. reflexivity.
  - apply eqb_bool_true. revert kind Hk. apply forall_memInt. vm_compute. reflexivity.
  - apply Uint63.eqb_spec. revert kind Hk. apply forall_memInt. vm_compute. reflexivity.
  - destruct (kind =? Move.Kind.EN_PASSANT_CAPTURE)%uint63; cbn [negb]; [|reflexivity].
    destruct (from <? to)%uint63; [|reflexivity].
    unfold Js.neg, Chess.FILES. lia.
Qed.

Lemma move_kinds_witness :
  Move.getCaptureSquare
    (Move.make 33 40 Move.Kind.EN_PASSANT_CAPTURE Chess.Piece.PAWN None) = 32%uint63.
Proof.
  apply (proj2 (proj2 (proj2 (proj2
           (move_kinds 33 40 Move.Kind.EN_PASSANT_CAPTURE Chess.Piece.PAWN None
              eq_refl eq_refl eq_refl))))).
Defined.

(** ** zobrist.js: updates of the hash *)

Section ZobristUpdates.

Variable RANDOM_VALUES : int -> int.

Lemma toUint32_lxor_twice (x r : int) :
  Js.toUint32 (Js.toUint32 (x lxor r) lxor r) = Js.toUint32 x.
Proof.
  apply tb_ext. intros n Hn. rewrite !tb_toUint32, tb_lxor, tb_toUint32, tb_lxor.
  destruct (n <? 32)%Z; cbn [andb]; [|reflexivity].
  destruct (tb x n), (tb r n); reflexivity.
Qed.

Lemma toUint32_lxor_swap (x r s : int) :
  Js.toUint32 (Js.toUint32 (x lxor r) lxor s) = Js.toUint32 (Js.toUint32 (x lxor s) lxor r).
Proof.
  apply tb_ext. intros n Hn. rewrite !tb_toUint32, !tb_lxor, !tb_toUint32, !tb_lxor.
  destruct (n <? 32)%Z; cbn [andb]; [|reflexivity].
  destruct (tb x n), (tb r n), (tb s n); reflexivity.
Qed.

Lemma update_wellFormed (z : Zobrist.t) (position : int) :
  keyWellFormed (Zobrist.update RANDOM_VALUES z position).
Proof. split; apply isUint32_toUint32. Qed.

Lemma update_twice (z : Zobrist.t) (position : int) :
  Zobrist.update RANDOM_VALUES (Zobrist.update RANDOM_VALUES z position) position
  = Zobrist.make (Zobrist.low z) (Zobrist.high z).
Proof.
  unfold Zobrist.update, Zobrist.make. cbn [Zobrist.low Zobrist.high].
  rewrite !toUint32_lxor_twice. reflexivity.
Qed.

Lemma update_swap (z : Zobrist.t) (p q : int) :
  Zobrist.update RANDOM_VALUES (Zobrist.update RANDOM_VALUES z p) q
  = Zobrist.update RANDOM_VALUES (Zobrist.update RANDOM_VALUES z q) p.
Proof.
  unfold Zobrist.update. cbn [Zobrist.low Zobrist.high].
  f_equal; apply toUint32_lxor_swap.
Qed.

Lemma make_wellFormed (z : Zobrist.t) :
  keyWellFormed z -> Zobrist.make (Zobrist.low z) (Zobrist.high z) = z.
Proof.
  destruct z as [l h]. intros [Hl Hh]. unfold Zobrist.make.
  cbn [Zobrist.low Zobrist.high] in *. unfold isUint32 in *. rewrite Hl, Hh. reflexivity.
Qed.

(** X15: making the same update of a hash key twice gives the key back
    (a key with 32-bit halves; any other key comes back cut to 32-bit
    halves), two updates can be made in either order, and an updated key
    has 32-bit halves. *)
Theorem update_involutive (z : Zobrist.t) (p q : int) :
  Zobrist.update RANDOM_VALUES (Zobrist.update RANDOM_VALUES z p) p
  = Zobrist.dup z
  /\ (keyWellFormed z ->
      Zobrist.update RANDOM_VALUES (Zobrist.update RANDOM_VALUES z p) p = z)
  /\ Zobrist.update RANDOM_VALUES (Zobrist.update RANDOM_VALUES z p) q
     = Zobrist.update RANDOM_VALUES (Zobrist.update RANDOM_VALUES z q) p
  /\ keyWellFormed (Zobrist.update RANDOM_VALUES z p).
Proof.
  split; [apply update_twice|]. split; [|split].
  - intros Hz. rewrite update_twice. apply make_wellFormed. exact Hz.
  - apply update_swap.
  - apply update_wellFormed.
Qed.

Lemma squaresOf_dup (b : Bitboard.t) : squaresOf (Bitboard.dup b) = squaresOf b.
Proof.
  unfold squaresOf. apply filter_ext_in. intros j Hj. apply In_squares in Hj.
  pose proof Hj as Hj'. apply isSquare_iff in Hj'.
  rewrite !isSet_bitAt by exact Hj. apply bitAt_dup. lia.
Qed.

(** X16: [updatePieceColorBitboard] updates the key once for every set
    square of the board, in ascending order of the squares; the board
    itself may be any board. *)
Theorem updatePieceColorBitboard_squares (z : Zobrist.t) (piece : int)
    (color : Chess.PieceColor) (bitboard : Bitboard.t) :
  Zobrist.updatePieceColorBitboard RANDOM_VALUES z piece color bitboard
  = fold_left (fun z index => Zobrist.updatePieceColorSquare RANDOM_VALUES z piece color index)
              (squaresOf bitboard) z.
Proof.
  unfold Zobrist.updatePieceColorBitboard.
  rewrite extractAll_eq by apply wellFormed_dup.
  rewrite squaresOf_dup. reflexivity.
Qed.

End ZobristUpdates.

(** ** position.js: what [makeMove] and [unmakeMove] do to the history *)

Lemma let_returns {A B : Type} (Q : B -> Prop) (X : A) (F : A -> result B) :
  (forall x, x = X -> returns Q (F x)) -> returns Q (let x := X in F x).
Proof. intros H. cbv zeta. apply H. reflexivity. Qed.

Lemma bind_returns {A B : Type} (Q : B -> Prop) (r : result A) (k : A -> result B) :
  (forall a, r = Ok a -> returns Q (k a)) -> returns Q (bind r k).
Proof.
  intros H. destruct r as [a| | |]; cbn [bind]; try (intros b Hb; discriminate).
  apply H. reflexivity.
Qed.

Lemma Ok_returns {A : Type} (Q : A -> Prop) (a : A) : Q a -> returns Q (Ok a).
Proof. intros H b Hb. injection Hb as <-. exact H. Qed.

(** Walks through the [let]s of a method, naming each intermediate
    position. *)
Ltac walk :=
  repeat lazymatch goal with
         | |- returns ?Q (let x := ?X in @?F x) =>
             let x := fresh "p" in let Hx := fresh "Hp" in
             apply (let_returns Q X F); intros x Hx; cbv beta
         end.

Ltac fields :=
  cbn [frame Position.turn Position.castlingRights Position.enPassantSquare
       Position.halfmoveClock Position.madeMoves Position.irreversibleHistory
       Position.hashHistory Position.halfMoveClock Position.hashKey
       Position.bitboards Position.pieces
       Position.setBitboard Position.setPieceAt Position.setHashKey Position.setBitboards
       Position.setPieces Position.setTurn Position.setCastlingRights
       Position.setEnPassantSquare Position.setHalfmoveClock Position.setMadeMoves
       Position.setIrreversibleHistory Position.setHashHistory Position.setHalfMoveClock
       Position.getTurnColor].

Ltac fields_in F :=
  cbn [frame Position.turn Position.castlingRights Position.enPassantSquare
       Position.halfmoveClock Position.madeMoves Position.irreversibleHistory
       Position.hashHistory Position.halfMoveClock Position.hashKey
       Position.bitboards Position.pieces
       Position.setBitboard Position.setPieceAt Position.setHashKey Position.setBitboards
       Position.setPieces Position.setTurn Position.setCastlingRights
       Position.setEnPassantSquare Position.setHalfmoveClock Position.setMadeMoves
       Position.setIrreversibleHistory Position.setHashHistory Position.setHalfMoveClock
       Position.getTurnColor] in F.

(** Records what the equation [H : x = ...] says of the fields of [x]. *)
Ltac note_fields H :=
  let F := fresh "F" in
  pose proof (f_equal frame H) as F;
  fields_in F; injection F as ? ? ? ? ? ? ? ?.

(** Rewrites the fields of the intermediate positions down to those of
    the first one. *)
Ltac chase :=
  repeat match goal with
         | H : ?f ?x = _ |- context [?f ?x] => is_var x; rewrite H
         end.

Section Frames.

Variable RANDOM_VALUES : int -> int.

Lemma frame_capturePiece p piece color index :
  frame (Position.capturePiece RANDOM_VALUES p piece color index) = frame p.
Proof. reflexivity. Qed.

Lemma frame_unCapturePiece p piece color index :
  frame (Position.unCapturePiece RANDOM_VALUES p piece color index) = frame p.
Proof. reflexivity. Qed.

Lemma frame_movePiece p piece color from to :
  frame (Position.movePiece RANDOM_VALUES p piece color from to) = frame p.
Proof. reflexivity. Qed.

Lemma frame_promotePiece p pieceOld pieceNew color index :
  frame (Position.promotePiece RANDOM_VALUES p pieceOld pieceNew color index) = frame p.
Proof. reflexivity. Qed.

Lemma frame_castleRook p color kingSide :
  frame (Position.castleRook RANDOM_VALUES p color kingSide) = frame p.
Proof. reflexivity. Qed.

Lemma frame_unCastleRook p color kingSide :
  frame (Position.unCastleRook RANDOM_VALUES p color kingSide) = frame p.
Proof. reflexivity. Qed.

Lemma frame_updatePieces p move :
  frame (Position.updatePieces RANDOM_VALUES p move) = frame p.
Proof.
  unfold Position.updatePieces.
  destruct (Move.isCapture move), (Move.isCastle move), (Move.isPromotion move);
    reflexivity.
Qed.

Lemma frame_revertPieces p move :
  frame (Position.revertPieces RANDOM_VALUES p move) = frame p.
Proof.
  unfold Position.revertPieces.
  destruct (Move.isCapture move), (Move.isCastle move), (Move.isPromotion move);
    reflexivity.
Qed.

Lemma frame_fields (a b : Position.t) :
  frame a = frame b ->
  Position.turn a = Position.turn b
  /\ Position.castlingRights a = Position.castlingRights b
  /\ Position.enPassantSquare a = Position.enPassantSquare b
  /\ Position.halfmoveClock a = Position.halfmoveClock b
  /\ Position.madeMoves a = Position.madeMoves b
  /\ Position.irreversibleHistory a = Position.irreversibleHistory b
  /\ Position.hashHistory a = Position.hashHistory b
  /\ Position.halfMoveClock a = Position.halfMoveClock b.
Proof. unfold frame. intros H. injection H as -> -> -> -> -> -> -> ->. repeat split. Qed.

Lemma land_idem (a : int) : (a land a)%uint63 = a.
Proof. apply tb_ext. intros n _. rewrite tb_land. apply andb_diag. Qed.

Lemma land_keeps (a r m : int) :
  (a land r)%uint63 = a -> ((a land m) land r)%uint63 = (a land m)%uint63.
Proof.
  intros H. apply tb_ext. intros n _. rewrite !tb_land.
  assert (E : tb (a land r) n = tb a n) by (rewrite H; reflexivity).
  rewrite tb_land in E. destruct (tb a n), (tb r n), (tb m n); try reflexivity; discriminate.
Qed.

Lemma clearCastlingRight_fields p color kingSide :
  let q := Position.clearCastlingRight RANDOM_VALUES p color kingSide in
  Position.turn q = Position.turn p
  /\ (forall r, (Position.castlingRights p land r)%uint63 = Position.castlingRights p ->
                (Position.castlingRights q land r)%uint63 = Position.castlingRights q)
  /\ Position.enPassantSquare q = Position.enPassantSquare p
  /\ Position.halfmoveClock q = Position.halfmoveClock p
  /\ Position.madeMoves q = Position.madeMoves p
  /\ Position.irreversibleHistory q = Position.irreversibleHistory p
  /\ Position.hashHistory q = Position.hashHistory p
  /\ Position.halfMoveClock q = Position.halfMoveClock p.
Proof.
  cbv zeta. unfold Position.clearCastlingRight. fields.
  repeat split. intros r Hr. apply land_keeps. exact Hr.
Qed.

Lemma keepsButRights_refl p : keepsButRights p p.
Proof. unfold keepsButRights. repeat split. intros r Hr. exact Hr. Qed.

Lemma keepsButRights_clear p q color kingSide :
  keepsButRights p q ->
  keepsButRights p (Position.clearCastlingRight RANDOM_VALUES q color kingSide).
Proof.
  intros (H1 & H2 & H3 & H4 & H5 & H6 & H7 & H8).
  destruct (clearCastlingRight_fields q color kingSide)
    as (G1 & G2 & G3 & G4 & G5 & G6 & G7 & G8).
  unfold keepsButRights. rewrite G1, G3, G4, G5, G6, G7, G8.
  repeat split; try assumption. intros r Hr. apply G2, H2, Hr.
Qed.

Lemma makeMove_frames p move :
  returns (fun '(made, q) =>
             if made : bool then acceptedFrame p move q else frame q = frame p)
          (Position.makeMove RANDOM_VALUES p move).
Proof.
  cbv beta delta [Position.makeMove]. walk.
  pose proof (frame_updatePieces p0 move) as Fu. rewrite <- Hp0 in Fu.
  apply frame_fields in Fu. decompose [and] Fu. clear Fu.
  note_fields Hp.
  apply bind_returns. intros inCheck Hc. destruct inCheck.
  - walk. apply Ok_returns.
    pose proof (frame_revertPieces p1 move) as Fr. rewrite <- Hp1 in Fr.
    apply frame_fields in Fr. decompose [and] Fr. clear Fr.
    note_fields Hp2.
    unfold frame. chase. reflexivity.
  - walk. apply Ok_returns. subst p9 p11.
    assert (Hp6' : p7 = Position.setEnPassantSquare p6
                          (if (Move.getKind move =? Move.Kind.DOUBLE_PAWN_PUSH)%uint63
                           then Move.getTo move else Js.neg 1))
      by (rewrite Hp6; destruct (Move.getKind move =? Move.Kind.DOUBLE_PAWN_PUSH)%uint63;
          reflexivity).
    assert (Hp12' : p13 = Position.setHalfmoveClock p12
                            (if Move.isCapture move
                                || (Move.getPiece move =? Chess.Piece.PAWN)%uint63
                             then 0 else Position.halfmoveClock p12 + 1)%uint63)
      by (rewrite Hp12;
          destruct (Move.isCapture move || (Move.getPiece move =? Chess.Piece.PAWN)%uint63);
          reflexivity).
    assert (K9 : keepsButRights p8 p10).
    { rewrite Hp9.
      repeat match goal with
             | |- context [if ?c then _ else _] => destruct c
             end;
        repeat apply keepsButRights_clear; apply keepsButRights_refl. }
    assert (K11 : keepsButRights p10 p12).
    { rewrite Hp11.
      repeat match goal with
             | |- context [if ?c then _ else _] => destruct c
             end;
        repeat apply keepsButRights_clear; apply keepsButRights_refl. }
    clear Hp6 Hp12 Hp9 Hp11.
    destruct K9 as (? & K9 & ? & ? & ? & ? & ? & ?).
    destruct K11 as (? & K11 & ? & ? & ? & ? & ? & ?).
    note_fields Hp1; note_fields Hp2; note_fields Hp3; note_fields Hp4; note_fields Hp5;
      note_fields Hp6'; note_fields Hp7; note_fields Hp12'; note_fields Hp13;
      note_fields Hp14.
    unfold acceptedFrame.
    repeat match goal with |- _ /\ _ => split end; chase;
      unfold Position.getTurnColor; chase; try reflexivity.
    apply K11, K9. chase. apply land_idem.
Qed.

Lemma fail_returns {A : Type} (Q : A -> Prop) (r : result A) :
  (forall a, r <> Ok a) -> returns Q r.
Proof. intros H a Ha. exfalso. exact (H a Ha). Qed.

Lemma unmakeMove_frames p :
  returns (fun '(o, q) => unmadeFrame p o q) (Position.unmakeMove RANDOM_VALUES p).
Proof.
  cbv beta delta [Position.unmakeMove].
  destruct (Position.madeMoves p) as [|move rest] eqn:Hmoves.
  - apply Ok_returns. split; [exact Hmoves|reflexivity].
  - walk.
    pose proof (frame_revertPieces p2 move) as Fr. rewrite <- Hp2 in Fr.
    apply frame_fields in Fr. decompose [and] Fr. clear Fr.
    note_fields Hp. note_fields Hp0. note_fields Hp1.
    assert (Hi0 : Position.irreversibleHistory p3 = Position.irreversibleHistory p)
      by (chase; reflexivity).
    destruct (Position.irreversibleHistory p3) as [|clock [|rights [|square history]]]
      eqn:Hirr; try (apply fail_returns; intros a Ha; discriminate).
    walk. apply Ok_returns.
    note_fields Hp3; note_fields Hp4; note_fields Hp5; note_fields Hp6; note_fields Hp7;
      note_fields Hp8; note_fields Hp9; note_fields Hp10; note_fields Hp11.
    exists clock, rights, square.
    assert (Hi : Position.irreversibleHistory p = clock :: rights :: square :: history).
    { symmetry. exact Hi0. }
    clear Hi0 Hirr.
    repeat match goal with |- _ /\ _ => split end; chase;
      unfold Position.getTurnColor; chase; try reflexivity.
Qed.

Lemma unmakeMove_succeeds p move rest clock rights square history :
  Position.madeMoves p = move :: rest ->
  Position.irreversibleHistory p = clock :: rights :: square :: history ->
  exists q, Position.unmakeMove RANDOM_VALUES p = Ok (Some move, q).
Proof.
  intros Hmoves Hirr. cbv beta delta [Position.unmakeMove]. rewrite Hmoves.
  cbv zeta.
  match goal with
  | |- context [Position.irreversibleHistory ?x] =>
      assert (E : Position.irreversibleHistory x = clock :: rights :: square :: history)
  end.
  { match goal with
    | |- Position.irreversibleHistory (Position.revertPieces _ ?y _) = _ =>
        pose proof (frame_revertPieces y move) as Fr
    end.
    apply frame_fields in Fr. decompose [and] Fr. clear Fr.
    match goal with H : Position.irreversibleHistory _ = _ |- _ => rewrite H end.
    exact Hirr. }
  rewrite E. eexists. reflexivity.
Qed.

End Frames.

(** ** position.js: moves and the history stacks *)

Section History.

Variable RANDOM_VALUES : int -> int.

(** X17: a [makeMove] that returns [false] leaves the turn, the castling
    rights, the en-passant square, the half-move clock and the three
    history stacks as they were, whatever the move. *)
Theorem makeMove_rejected_frame (p q : Position.t) (move : Move.t) :
  Position.makeMove RANDOM_VALUES p move = Ok (false, q) ->
  Position.turn q = Position.turn p
  /\ Position.castlingRights q = Position.castlingRights p
  /\ Position.enPassantSquare q = Position.enPassantSquare p
  /\ Position.halfmoveClock q = Position.halfmoveClock p
  /\ Position.madeMoves q = Position.madeMoves p
  /\ Position.irreversibleHistory q = Position.irreversibleHistory p
  /\ Position.hashHistory q = Position.hashHistory p
  /\ Position.halfMoveClock q = Position.halfMoveClock p.
Proof.
  intros H. apply frame_fields.
  exact (makeMove_frames RANDOM_VALUES p move (false, q) H).
Qed.

(** X18: a [makeMove] that returns [true] pushes the move, the hash, and
    the clock, castling rights and en-passant square of before; it passes
    the turn, sets the en-passant square to the destination of a double
    pawn push and to [-1] otherwise, resets the clock on a capture or a
    pawn move and advances it by one otherwise, and can only clear
    castling rights. *)
Theorem makeMove_accepted_frame (p q : Position.t) (move : Move.t) :
  Position.makeMove RANDOM_VALUES p move = Ok (true, q) -> acceptedFrame p move q.
Proof. intros H. exact (makeMove_frames RANDOM_VALUES p move (true, q) H). Qed.


(** X20: after an accepted [makeMove], [unmakeMove] returns that move and
    the turn, the castling rights, the en-passant square and the three
    history stacks are those of before the move; the half-move clock is
    the one the move set, and [halfMoveClock] holds the clock of
    before. *)
Theorem unmakeMove_after_makeMove (p q : Position.t) (move : Move.t) :
  Position.makeMove RANDOM_VALUES p move = Ok (true, q) ->
  exists p',
    Position.unmakeMove RANDOM_VALUES q = Ok (Some move, p')
    /\ Position.turn p' = Position.turn p
    /\ Position.castlingRights p' = Position.castlingRights p
    /\ Position.enPassantSquare p' = Position.enPassantSquare p
    /\ Position.madeMoves p' = Position.madeMoves p
    /\ Position.irreversibleHistory p' = Position.irreversibleHistory p
    /\ Position.hashHistory p' = Position.hashHistory p
    /\ Position.halfmoveClock p' = Position.halfmoveClock q
    /\ Position.halfMoveClock p' = Some (Position.halfmoveClock p).
Proof.
  intros H.
  destruct (makeMove_frames RANDOM_VALUES p move (true, q) H)
    as (Hm & Hi & Hh & Ht & _ & _ & _ & _).
  destruct (unmakeMove_succeeds RANDOM_VALUES q _ _ _ _ _ _ Hm Hi) as (p' & Hu).
  exists p'. split; [exact Hu|].
  destruct (unmakeMove_frames RANDOM_VALUES q (Some move, p') Hu)
    as (clock & rights & square & Gm & Gi & Gh & Gt & Gr & Ge & Gc & Gk).
  rewrite Hm in Gm. rewrite Hi in Gi. rewrite Hh in Gh. rewrite Ht in Gt.
  injection Gm as Gm. injection Gi as -> -> -> Gi. cbn [tl] in Gh.
  repeat match goal with |- _ /\ _ => split end; try congruence.
  rewrite Gt. destruct (Position.turn p); reflexivity.
Qed.

End History.

Lemma makeMove_rejected_frame_witness :
  Position.makeMove zeroValues blackInCheck pawnToA6 = Ok (false, blackInCheck)
  /\ Position.madeMoves blackInCheck = Position.madeMoves blackInCheck.
Proof.
  split; [vm_compute; reflexivity|].
  apply (makeMove_rejected_frame zeroValues blackInCheck blackInCheck pawnToA6).
  vm_compute. reflexivity.
Defined.

Lemma makeMove_accepted_frame_witness :
  Position.makeMove zeroValues (Position.create zeroValues) knightToA3
  = Ok (true, afterKnightToA3)
  /\ acceptedFrame (Position.create zeroValues) knightToA3 afterKnightToA3.
Proof.
  split; [vm_compute; reflexivity|].
  apply (makeMove_accepted_frame zeroValues). vm_compute. reflexivity.
Defined.


Lemma unmakeMove_after_makeMove_witness :
  Position.makeMove zeroValues (Position.create zeroValues) knightToA3
  = Ok (true, afterKnightToA3)
  /\ exists p',
      Position.unmakeMove zeroValues afterKnightToA3 = Ok (Some knightToA3, p')
      /\ Position.turn p' = Position.turn (Position.create zeroValues)
      /\ Position.castlingRights p' = Position.castlingRights (Position.create zeroValues)
      /\ Position.enPassantSquare p' = Position.enPassantSquare (Position.create zeroValues)
      /\ Position.madeMoves p' = Position.madeMoves (Position.create zeroValues)
      /\ Position.irreversibleHistory p'
         = Position.irreversibleHistory (Position.create zeroValues)
      /\ Position.hashHistory p' = Position.hashHistory (Position.create zeroValues)
      /\ Position.halfmoveClock p' = Position.halfmoveClock afterKnightToA3
      /\ Position.halfMoveClock p'
         = Some (Position.halfmoveClock (Position.create zeroValues)).
Proof.
  split; [vm_compute; reflexivity|].
  apply (unmakeMove_after_makeMove zeroValues). vm_compute. reflexivity.
Defined.

(** ** position.js: the hash along a move *)

Ltac note_hash H :=
  let F := fresh "F" in
  pose proof (f_equal Position.hashKey H) as F;
  fields_in F.

(** Decides that positions occur evenly from the hypotheses of that kind. *)
Ltac parity :=
  let x := fresh "x" in
  intros x;
  repeat match goal with H : evenUpdates _ |- _ => specialize (H x) end;
  rewrite ?count_occ_app, ?count_occ_rev in *;
  cbn [count_occ] in *;
  rewrite ?Nat.even_add in *;
  repeat match goal with
         | |- context [Uint63.eqs ?a x] => destruct (Uint63.eqs a x)
         | H : context [Uint63.eqs ?a x] |- _ => destruct (Uint63.eqs a x)
         end;
  cbn [Nat.even] in *;
  repeat match goal with
         | |- context [Nat.even (count_occ Uint63.eqs ?l x)] =>
             destruct (Nat.even (count_occ Uint63.eqs l x))
         | H : context [Nat.even (count_occ Uint63.eqs ?l x)] |- _ =>
             destruct (Nat.even (count_occ Uint63.eqs l x))
         end;
  cbn in *; congruence.

Section HashUpdates.

Variable RANDOM_VALUES : int -> int.

Lemma applyUpdates_app z l1 l2 : applyUpdates RANDOM_VALUES z (l1 ++ l2) = applyUpdates RANDOM_VALUES (applyUpdates RANDOM_VALUES z l1) l2.
Proof. unfold applyUpdates. apply fold_left_app. Qed.

Lemma applyUpdates_cons z a l : applyUpdates RANDOM_VALUES z (a :: l) = applyUpdates RANDOM_VALUES (Zobrist.update RANDOM_VALUES z a) l.
Proof. reflexivity. Qed.

Lemma applyUpdates_wellFormed z l : keyWellFormed z -> keyWellFormed (applyUpdates RANDOM_VALUES z l).
Proof.
  revert z. induction l as [|a l IH]; intros z Hz; [exact Hz|].
  rewrite applyUpdates_cons. apply IH. apply update_wellFormed.
Qed.

Lemma applyUpdates_middle l1 : forall z a l2,
  applyUpdates RANDOM_VALUES z (l1 ++ a :: l2) = applyUpdates RANDOM_VALUES z (a :: l1 ++ l2).
Proof.
  induction l1 as [|b l1 IH]; intros z a l2; [reflexivity|].
  cbn [app]. rewrite applyUpdates_cons, IH, !applyUpdates_cons.
  rewrite (update_swap RANDOM_VALUES z b a). reflexivity.
Qed.

Lemma count_middle (l1 l2 : list int) (a x : int) :
  count_occ Uint63.eqs (l1 ++ a :: l2) x = count_occ Uint63.eqs (a :: l1 ++ l2) x.
Proof.
  rewrite count_occ_app. cbn [count_occ]. rewrite count_occ_app.
  destruct (Uint63.eqs a x); lia.
Qed.

Lemma applyUpdates_even (n : nat) : forall l,
  (List.length l <= n)%nat -> evenUpdates l ->
  forall z, keyWellFormed z -> applyUpdates RANDOM_VALUES z l = z.
Proof.
  induction n as [|n IH]; intros l Hlen Heven z Hz.
  - destruct l; [reflexivity|cbn [List.length] in Hlen; lia].
  - destruct l as [|a l]; [reflexivity|].
    assert (Hin : In a l).
    { specialize (Heven a). cbn [count_occ] in Heven.
      destruct (Uint63.eqs a a) as [_|Hne]; [|contradiction].
      apply (count_occ_In Uint63.eqs).
      destruct (count_occ Uint63.eqs l a); [discriminate|lia]. }
    apply in_split in Hin as (l1 & l2 & ->).
    rewrite applyUpdates_cons, applyUpdates_middle, applyUpdates_cons.
    rewrite update_twice, make_wellFormed by exact Hz.
    apply IH; [|intros x|exact Hz].
    + cbn [List.length] in Hlen. rewrite length_app in *. cbn [List.length] in Hlen. lia.
    + specialize (Heven x). cbn [count_occ] in Heven.
      rewrite count_middle in Heven. cbn [count_occ] in Heven.
      destruct (Uint63.eqs a x); [|exact Heven].
      cbn [Nat.even] in Heven. exact Heven.
Qed.

Lemma applyUpdates_cancel l z : evenUpdates l -> keyWellFormed z -> applyUpdates RANDOM_VALUES z l = z.
Proof. intros. apply (applyUpdates_even (List.length l)); auto. Qed.

Lemma hashKey_updatePieces p move :
  Position.hashKey (Position.updatePieces RANDOM_VALUES p move)
  = applyUpdates RANDOM_VALUES (Position.hashKey p) (pieceUpdates (Position.turn p) move).
Proof.
  unfold Position.updatePieces, pieceUpdates.
  destruct (Move.isCapture move), (Move.isCastle move), (Move.isPromotion move);
    reflexivity.
Qed.

Lemma hashKey_revertPieces p move :
  Position.hashKey (Position.revertPieces RANDOM_VALUES p move)
  = applyUpdates RANDOM_VALUES (Position.hashKey p)
      (rev (pieceUpdates (Position.turn p) move)).
Proof.
  unfold Position.revertPieces, pieceUpdates.
  destruct (Move.isCapture move), (Move.isCastle move), (Move.isPromotion move);
    reflexivity.
Qed.

Lemma even_pair (a : int) : evenUpdates [a; a].
Proof.
  intros x. cbn [count_occ]. destruct (Uint63.eqs a x); reflexivity.
Qed.

Lemma clearsRights_refl p : clearsRights RANDOM_VALUES p p.
Proof.
  split; [apply keepsButRights_refl|]. exists []. split; [reflexivity|].
  cbn [app]. apply even_pair.
Qed.

Lemma clearsRights_clear p q color kingSide :
  clearsRights RANDOM_VALUES p q ->
  clearsRights RANDOM_VALUES p (Position.clearCastlingRight RANDOM_VALUES q color kingSide).
Proof.
  intros (K & chain & Hh & He).
  split; [apply keepsButRights_clear; exact K|].
  exists (chain ++ [rightsPosition (Position.castlingRights q);
                    rightsPosition
                      (Position.castlingRights
                         (Position.clearCastlingRight RANDOM_VALUES q color kingSide))]).
  split.
  - rewrite applyUpdates_app, <- Hh. reflexivity.
  - intros x. specialize (He x). rewrite !count_occ_app, !Nat.even_add in *.
    cbn [count_occ] in *.
    repeat match goal with
           | |- context [Uint63.eqs ?a x] => destruct (Uint63.eqs a x)
           end;
      cbn [Nat.even] in *;
      destruct (Nat.even (count_occ Uint63.eqs chain x)); cbn in *; congruence.
Qed.

Lemma updateEnPassantSquare_eq z enPassantSquare :
  Zobrist.updateEnPassantSquare RANDOM_VALUES z enPassantSquare
  = applyUpdates RANDOM_VALUES z (enPassantUpdates enPassantSquare).
Proof.
  unfold Zobrist.updateEnPassantSquare, enPassantUpdates.
  destruct (Js.le 0 enPassantSquare); reflexivity.
Qed.

Lemma updateTurn_eq z :
  Zobrist.updateTurn RANDOM_VALUES z = applyUpdates RANDOM_VALUES z [Zobrist.Position.TURN].
Proof. reflexivity. Qed.

Lemma updateCastlingRights_eq z castlingRights :
  Zobrist.updateCastlingRights RANDOM_VALUES z castlingRights
  = applyUpdates RANDOM_VALUES z [rightsPosition castlingRights].
Proof. reflexivity. Qed.

Lemma makeMove_hash p move :
  returns (fun '(made, q) =>
             if made : bool
             then exists chain,
                 Position.hashKey q
                 = applyUpdates RANDOM_VALUES (Position.hashKey p)
                     (pieceUpdates (Position.turn p) move
                      ++ enPassantUpdates (Position.enPassantSquare p)
                      ++ enPassantUpdates (Position.enPassantSquare q)
                      ++ chain ++ [Zobrist.Position.TURN])
                 /\ evenUpdates
                      (chain ++ [rightsPosition (Position.castlingRights p);
                                 rightsPosition (Position.castlingRights q)])
             else Position.hashKey q
                  = applyUpdates RANDOM_VALUES (Position.hashKey p)
                      (pieceUpdates (Position.turn p) move
                       ++ rev (pieceUpdates (Position.turn p) move)))
          (Position.makeMove RANDOM_VALUES p move).
Proof.
  cbv beta delta [Position.makeMove]. walk.
  pose proof (frame_updatePieces RANDOM_VALUES p0 move) as Fu. rewrite <- Hp0 in Fu.
  apply frame_fields in Fu. decompose [and] Fu. clear Fu.
  pose proof (hashKey_updatePieces p0 move) as Hu. rewrite <- Hp0 in Hu.
  note_fields Hp. note_hash Hp.
  apply bind_returns. intros inCheck Hc. destruct inCheck.
  - walk. apply Ok_returns.
    pose proof (hashKey_revertPieces p1 move) as Hr. rewrite <- Hp1 in Hr.
    note_hash Hp2. chase. rewrite <- applyUpdates_app. reflexivity.
  - walk. apply Ok_returns. subst p9 p11.
    assert (Hp6' : p7 = Position.setEnPassantSquare p6
                          (if (Move.getKind move =? Move.Kind.DOUBLE_PAWN_PUSH)%uint63
                           then Move.getTo move else Js.neg 1))
      by (rewrite Hp6; destruct (Move.getKind move =? Move.Kind.DOUBLE_PAWN_PUSH)%uint63;
          reflexivity).
    assert (Hp12' : p13 = Position.setHalfmoveClock p12
                            (if Move.isCapture move
                                || (Move.getPiece move =? Chess.Piece.PAWN)%uint63
                             then 0 else Position.halfmoveClock p12 + 1)%uint63)
      by (rewrite Hp12;
          destruct (Move.isCapture move || (Move.getPiece move =? Chess.Piece.PAWN)%uint63);
          reflexivity).
    assert (K9 : clearsRights RANDOM_VALUES p8 p10).
    { rewrite Hp9.
      repeat match goal with
             | |- context [if ?c then _ else _] => destruct c
             end;
        repeat apply clearsRights_clear; apply clearsRights_refl. }
    assert (K11 : clearsRights RANDOM_VALUES p10 p12).
    { rewrite Hp11.
      repeat match goal with
             | |- context [if ?c then _ else _] => destruct c
             end;
        repeat apply clearsRights_clear; apply clearsRights_refl. }
    clear Hp6 Hp12 Hp9 Hp11.
    destruct K9 as ((? & _ & ? & ? & ? & ? & ? & ?) & chain9 & Hh9 & He9).
    destruct K11 as ((? & _ & ? & ? & ? & ? & ? & ?) & chain11 & Hh11 & He11).
    note_fields Hp1; note_fields Hp2; note_fields Hp3; note_fields Hp4; note_fields Hp5;
      note_fields Hp6'; note_fields Hp7; note_fields Hp12'; note_fields Hp13;
      note_fields Hp14.
    note_hash Hp1; note_hash Hp2; note_hash Hp3; note_hash Hp4; note_hash Hp5;
      note_hash Hp6'; note_hash Hp7; note_hash Hp12'; note_hash Hp13; note_hash Hp14.
    exists (chain9 ++ chain11). split.
    + chase. rewrite !updateEnPassantSquare_eq, updateTurn_eq.
      rewrite <- !applyUpdates_app. rewrite <- !app_assoc. reflexivity.
    + assert (E8 : Position.castlingRights p8 = Position.castlingRights p)
        by (chase; reflexivity).
      assert (E15 : Position.castlingRights p15 = Position.castlingRights p12)
        by (chase; reflexivity).
      rewrite E8 in He9. rewrite E15. clear - He9 He11. parity.
Qed.

Lemma unmakeMove_hash p :
  returns (fun '(o, q) =>
             match o with
             | None => q = p
             | Some move =>
                 Position.hashKey q
                 = applyUpdates RANDOM_VALUES (Position.hashKey p)
                     ([Zobrist.Position.TURN]
                      ++ rev (pieceUpdates (Position.turn q) move)
                      ++ [rightsPosition (Position.castlingRights p);
                          rightsPosition (Position.castlingRights q)]
                      ++ enPassantUpdates (Position.enPassantSquare p)
                      ++ enPassantUpdates (Position.enPassantSquare q))
             end)
          (Position.unmakeMove RANDOM_VALUES p).
Proof.
  cbv beta delta [Position.unmakeMove].
  destruct (Position.madeMoves p) as [|move rest] eqn:Hmoves.
  - apply Ok_returns. reflexivity.
  - walk.
    pose proof (frame_revertPieces RANDOM_VALUES p2 move) as Fr. rewrite <- Hp2 in Fr.
    apply frame_fields in Fr. decompose [and] Fr. clear Fr.
    pose proof (hashKey_revertPieces p2 move) as Hr. rewrite <- Hp2 in Hr.
    note_fields Hp. note_fields Hp0. note_fields Hp1.
    note_hash Hp. note_hash Hp0. note_hash Hp1.
    destruct (Position.irreversibleHistory p3) as [|clock [|rights [|square history]]];
      try (apply fail_returns; intros a Ha; discriminate).
    walk. apply Ok_returns.
    note_fields Hp3; note_fields Hp4; note_fields Hp5; note_fields Hp6; note_fields Hp7;
      note_fields Hp8; note_fields Hp9; note_fields Hp10; note_fields Hp11.
    note_hash Hp3; note_hash Hp4; note_hash Hp5; note_hash Hp6; note_hash Hp7;
      note_hash Hp8; note_hash Hp9; note_hash Hp10; note_hash Hp11.
    chase. rewrite !updateEnPassantSquare_eq, !updateCastlingRights_eq, updateTurn_eq.
    rewrite <- !applyUpdates_app. unfold Position.getTurnColor. chase.
    rewrite <- ?app_assoc. reflexivity.
Qed.

End HashUpdates.

(** ** position.js: the hash key over making and unmaking a move *)

Section HashRoundTrip.

Variable RANDOM_VALUES : int -> int.

(** X21: a [makeMove] that returns [false] (the move would leave the own
    king in check) gives back the hash key of before, for a key with
    32-bit halves. *)
Theorem makeMove_rejected_hashKey (p q : Position.t) (move : Move.t) :
  keyWellFormed (Position.hashKey p) ->
  Position.makeMove RANDOM_VALUES p move = Ok (false, q) ->
  Position.hashKey q = Position.hashKey p.
Proof.
  intros Hz H.
  pose proof (makeMove_hash RANDOM_VALUES p move (false, q) H) as Hq. cbn beta iota in Hq.
  rewrite Hq. apply applyUpdates_cancel; [|exact Hz]. parity.
Qed.

(** X22: after an accepted [makeMove], [unmakeMove] gives back the hash
    key of before the move, for a key with 32-bit halves: every update of
    the key the move made is made once more. *)
Theorem unmakeMove_restores_hashKey (p q p' : Position.t) (move : Move.t)
    (o : option Move.t) :
  keyWellFormed (Position.hashKey p) ->
  Position.makeMove RANDOM_VALUES p move = Ok (true, q) ->
  Position.unmakeMove RANDOM_VALUES q = Ok (o, p') ->
  Position.hashKey p' = Position.hashKey p.
Proof.
  intros Hz H Hu.
  pose proof (makeMove_hash RANDOM_VALUES p move (true, q) H) as (chain & Hq & He).
  destruct (makeMove_frames RANDOM_VALUES p move (true, q) H)
    as (Hm & Hi & Hh & Ht & _ & _ & _ & _).
  pose proof (unmakeMove_hash RANDOM_VALUES q (o, p') Hu) as Hp'.
  pose proof (unmakeMove_frames RANDOM_VALUES q (o, p') Hu) as Fp'.
  destruct o as [move'|]; cbn beta iota in Hp', Fp'.
  2: { destruct Fp' as [Fp' _]. rewrite Hm in Fp'. discriminate. }
  destruct Fp' as (clock & rights & square & Gm & Gi & Gh & Gt & Gr & Ge & Gc & Gk).
  rewrite Hm in Gm. rewrite Hi in Gi. rewrite Ht in Gt.
  injection Gm as <- _. injection Gi as <- <- <- _.
  assert (Gt' : Position.turn p' = Position.turn p)
    by (rewrite Gt; destruct (Position.turn p); reflexivity).
  rewrite Hp', Hq, Gt', Gr, Ge. rewrite <- applyUpdates_app.
  apply applyUpdates_cancel; [|exact Hz]. clear - He. parity.
Qed.

End HashRoundTrip.

Lemma makeMove_rejected_hashKey_witness :
  keyWellFormed (Position.hashKey blackInCheck)
  /\ Position.makeMove zeroValues blackInCheck pawnToA6 = Ok (false, blackInCheck)
  /\ Position.hashKey blackInCheck = Position.hashKey blackInCheck.
Proof.
  assert (Hz : keyWellFormed (Position.hashKey blackInCheck))
    by (split; vm_compute; reflexivity).
  assert (H : Position.makeMove zeroValues blackInCheck pawnToA6 = Ok (false, blackInCheck))
    by (vm_compute; reflexivity).
  split; [exact Hz|]. split; [exact H|].
  exact (makeMove_rejected_hashKey zeroValues blackInCheck blackInCheck pawnToA6 Hz H).
Defined.

Lemma unmakeMove_restores_hashKey_witness :
  keyWellFormed (Position.hashKey (Position.create zeroValues))
  /\ Position.makeMove zeroValues (Position.create zeroValues) knightToA3
     = Ok (true, afterKnightToA3)
  /\ Position.unmakeMove zeroValues afterKnightToA3 = Ok (Some knightToA3, unmadeKnightToA3)
  /\ Position.hashKey unmadeKnightToA3 = Position.hashKey (Position.create zeroValues).
Proof.
  assert (Hz : keyWellFormed (Position.hashKey (Position.create zeroValues)))
    by (split; vm_compute; reflexivity).
  assert (H : Position.makeMove zeroValues (Position.create zeroValues) knightToA3
              = Ok (true, afterKnightToA3))
    by (vm_compute; reflexivity).
  assert (Hu : Position.unmakeMove zeroValues afterKnightToA3
               = Ok (Some knightToA3, unmadeKnightToA3))
    by (vm_compute; reflexivity).
  split; [exact Hz|]. split; [exact H|]. split; [exact Hu|].
  exact (unmakeMove_restores_hashKey zeroValues _ _ _ _ _ Hz H Hu).
Defined.

(** ** position.js: castling rights *)

Section CastlingRights.

Variable RANDOM_VALUES : int -> int.

Lemma getCastlingIndex_small color kingSide :
  (Uint63.to_Z (Position.getCastlingIndex color kingSide) < 4)%Z.
Proof. destruct color, kingSide; vm_compute; reflexivity. Qed.

Lemma count_castlingIndex color kingSide :
  Js.count (Position.getCastlingIndex color kingSide) = Position.getCastlingIndex color kingSide.
Proof. destruct color, kingSide; reflexivity. Qed.

Lemma hasCastlingRight_tb p color kingSide :
  Position.hasCastlingRight p color kingSide
  = tb (Position.castlingRights p) (Uint63.to_Z (Position.getCastlingIndex color kingSide)).
Proof.
  unfold Position.hasCastlingRight. rewrite count_castlingIndex.
  apply truthy_bit. pose proof (getCastlingIndex_small color kingSide). lia.
Qed.

(** X23: [clearCastlingRight(color, kingSide)] takes that right away and
    leaves the three other rights as they were; the four rights have
    four different indices. *)
Theorem clearCastlingRight_hasCastlingRight (p : Position.t)
    (color color' : Chess.PieceColor) (kingSide kingSide' : bool) :
  Position.hasCastlingRight
    (Position.clearCastlingRight RANDOM_VALUES p color kingSide) color' kingSide'
  = negb (Position.getCastlingIndex color' kingSide'
          =? Position.getCastlingIndex color kingSide)%uint63
    && Position.hasCastlingRight p color' kingSide'
  /\ (Position.getCastlingIndex color' kingSide' = Position.getCastlingIndex color kingSide
      <-> color' = color /\ kingSide' = kingSide).
Proof.
  split.
  - rewrite !hasCastlingRight_tb.
    unfold Position.clearCastlingRight.
    cbn [Position.castlingRights Position.setHashKey Position.setCastlingRights].
    rewrite count_castlingIndex, tb_land, tb_not, tb_bit, eqb_to_Z.
    pose proof (getCastlingIndex_small color kingSide).
    pose proof (getCastlingIndex_small color' kingSide').
    pose proof (to_Z_range (Position.getCastlingIndex color' kingSide')).
    destruct (Z.leb_spec 0 (Uint63.to_Z (Position.getCastlingIndex color' kingSide')));
      [|lia].
    destruct (Z.ltb_spec (Uint63.to_Z (Position.getCastlingIndex color' kingSide')) 62);
      [|lia].
    destruct (Z.ltb_spec (Uint63.to_Z (Position.getCastlingIndex color' kingSide')) 63);
      [|lia].
    cbn [andb]. apply andb_comm.
  - split.
    + destruct color, color', kingSide, kingSide'; intros H;
        first [split; reflexivity | vm_compute in H; discriminate].
    + intros [-> ->]. reflexivity.
Qed.

End CastlingRights.

(** ** chess.js: squares, ranks and files *)

(** X24: a square is the index of its rank and file, both below 8; and
    the index of a rank and a file below 8 is a square with that rank and
    that file. *)
Theorem getIndex_getRank_getFile (index rank file : int) :
  isSquare index -> (rank <? 8)%uint63 = true -> (file <? 8)%uint63 = true ->
  Chess.getIndex (Chess.getRank index) (Chess.getFile index) = index
  /\ (Chess.getRank index <? 8)%uint63 = true
  /\ (Chess.getFile index <? 8)%uint63 = true
  /\ isSquare (Chess.getIndex rank file)
  /\ Chess.getRank (Chess.getIndex rank file) = rank
  /\ Chess.getFile (Chess.getIndex rank file) = file.
Proof.
  intros Hi Hr Hf.
  assert (A : forall j, isSquare j ->
            (Chess.getIndex (Chess.getRank j) (Chess.getFile j) =? j)%uint63
            && (Chess.getRank j <? 8)%uint63 && (Chess.getFile j <? 8)%uint63 = true).
  { apply forall_square. vm_compute. reflexivity. }
  assert (B : forall r f, isSquare r -> isSquare f ->
            implb ((r <? 8)%uint63 && (f <? 8)%uint63)
                  ((Chess.getIndex r f <? 64)%uint63
                   && (Chess.getRank (Chess.getIndex r f) =? r)%uint63
                   && (Chess.getFile (Chess.getIndex r f) =? f)%uint63) = true).
  { apply (forall_square2
             (fun r f => implb ((r <? 8)%uint63 && (f <? 8)%uint63)
                  ((Chess.getIndex r f <? 64)%uint63
                   && (Chess.getRank (Chess.getIndex r f) =? r)%uint63
                   && (Chess.getFile (Chess.getIndex r f) =? f)%uint63))).
    vm_compute. reflexivity. }
  specialize (A index Hi). apply andb_true_iff in A as [A A3].
  apply andb_true_iff in A as [A1 A2]. apply Uint63.eqb_spec in A1.
  assert (Sr : isSquare rank).
  { apply isSquare_iff. apply Uint63.ltb_spec in Hr. change (Uint63.to_Z 8) with 8%Z in Hr. lia. }
  assert (Sf : isSquare file).
  { apply isSquare_iff. apply Uint63.ltb_spec in Hf. change (Uint63.to_Z 8) with 8%Z in Hf. lia. }
  specialize (B rank file Sr Sf). rewrite Hr, Hf in B. cbn [andb implb] in B.
  apply andb_true_iff in B as [B B3]. apply andb_true_iff in B as [B1 B2].
  apply Uint63.eqb_spec in B2, B3.
  repeat split; assumption.
Qed.

Lemma getIndex_getRank_getFile_witness :
  Chess.getIndex (Chess.getRank 42) (Chess.getFile 42) = 42
  /\ (Chess.getRank 42 <? 8)%uint63 = true
  /\ (Chess.getFile 42 <? 8)%uint63 = true
  /\ isSquare (Chess.getIndex 5 2)
  /\ Chess.getRank (Chess.getIndex 5 2) = 5
  /\ Chess.getFile (Chess.getIndex 5 2) = 2.
Proof. apply (getIndex_getRank_getFile 42 5 2); reflexivity. Defined.

(** ** position.js: legal moves *)

Lemma let_yields {A B : Type} (Q : B -> Prop) (X : A) (F : A -> result B) :
  (forall x, x = X -> yields Q (F x)) -> yields Q (let x := X in F x).
Proof. intros H. cbv zeta. apply H. reflexivity. Qed.

Lemma Ok_yields {A : Type} (Q : A -> Prop) (a : A) : Q a -> yields Q (Ok a).
Proof. intros H. exists a. split; [reflexivity|exact H]. Qed.

Ltac walk_yields :=
  repeat lazymatch goal with
         | |- yields ?Q (let x := ?X in @?F x) =>
             let x := fresh "p" in let Hx := fresh "Hp" in
             apply (let_yields Q X F); intros x Hx; cbv beta
         end.

Ltac note_board H :=
  let F := fresh "F" in
  pose proof (f_equal Position.bitboards H) as F;
  fields_in F.

Section LegalMoves.

Variable RANDOM_VALUES : int -> int.

Lemma isAttacked_bitboards a b color index :
  Position.bitboards a = Position.bitboards b ->
  Position.isAttacked a color index = Position.isAttacked b color index.
Proof.
  intros H.
  unfold Position.isAttacked, Position.getPieceColorBitboard, Position.getColorBitboard,
    Position.getOccupiedBitboard.
  rewrite H. reflexivity.
Qed.

Lemma getKingPosition_bitboards a b color :
  Position.bitboards a = Position.bitboards b ->
  Position.getKingPosition a color = Position.getKingPosition b color.
Proof.
  intros H.
  unfold Position.getKingPosition, Position.getPieceColorBitboard, Position.getColorBitboard.
  rewrite H. reflexivity.
Qed.

Lemma isKingInCheck_bitboards a b :
  Position.bitboards a = Position.bitboards b -> Position.turn a = Position.turn b ->
  Position.isKingInCheck a = Position.isKingInCheck b.
Proof.
  intros Hb Ht. unfold Position.isKingInCheck, Position.getTurnColor.
  rewrite Ht, (getKingPosition_bitboards a b _ Hb). apply isAttacked_bitboards. exact Hb.
Qed.

Lemma updatePieces_setHashHistory p h move :
  Position.bitboards (Position.updatePieces RANDOM_VALUES (Position.setHashHistory p h) move)
  = Position.bitboards (Position.updatePieces RANDOM_VALUES p move).
Proof.
  unfold Position.updatePieces.
  destruct (Move.isCapture move), (Move.isCastle move), (Move.isPromotion move);
    reflexivity.
Qed.

Lemma bitboards_clearCastlingRight p color kingSide :
  Position.bitboards (Position.clearCastlingRight RANDOM_VALUES p color kingSide)
  = Position.bitboards p.
Proof. reflexivity. Qed.

(** The check [makeMove] makes is the check [isMoveLegal] makes. *)
Lemma makeMove_check p move :
  Position.isKingInCheck
    (Position.updatePieces RANDOM_VALUES
       (Position.setHashHistory p (Zobrist.dup (Position.hashKey p) :: Position.hashHistory p))
       move)
  = Position.isKingInCheck (Position.updatePieces RANDOM_VALUES p move).
Proof.
  apply isKingInCheck_bitboards.
  - apply updatePieces_setHashHistory.
  - pose proof (frame_updatePieces RANDOM_VALUES p move) as F1.
    pose proof (frame_updatePieces RANDOM_VALUES
                  (Position.setHashHistory p
                     (Zobrist.dup (Position.hashKey p) :: Position.hashHistory p)) move) as F2.
    apply frame_fields in F1, F2. destruct F1 as [F1 _], F2 as [F2 _].
    rewrite F1, F2. reflexivity.
Qed.

Lemma makeMove_yields p move inCheck :
  Position.isKingInCheck (Position.updatePieces RANDOM_VALUES p move) = Ok inCheck ->
  yields (fun '(made, _) => made = negb inCheck) (Position.makeMove RANDOM_VALUES p move).
Proof.
  intros E. cbv beta delta [Position.makeMove]. walk_yields.
  assert (Hc : Position.isKingInCheck p1 = Ok inCheck).
  { rewrite Hp0, Hp, makeMove_check. exact E. }
  rewrite Hc, bind_Ok. destruct inCheck; walk_yields; apply Ok_yields; reflexivity.
Qed.

Lemma makeMove_checked p move :
  returns (fun '(made, _) =>
             Position.isKingInCheck (Position.updatePieces RANDOM_VALUES p move)
             = Ok (negb made))
          (Position.makeMove RANDOM_VALUES p move).
Proof.
  cbv beta delta [Position.makeMove]. walk.
  apply bind_returns. intros inCheck Hc.
  rewrite Hp0, Hp, makeMove_check in Hc.
  destruct inCheck; walk; apply Ok_returns; exact Hc.
Qed.

(** X25: [isMoveLegal] says [true] of a move exactly when [makeMove]
    accepts it, and [false] exactly when [makeMove] rejects it; one
    raises when the other does. *)
Theorem isMoveLegal_iff_makeMove (p : Position.t) (move : Move.t) (legal : bool) :
  (exists p', Position.isMoveLegal RANDOM_VALUES p move = Ok (legal, p'))
  <-> (exists q, Position.makeMove RANDOM_VALUES p move = Ok (legal, q)).
Proof.
  unfold Position.isMoveLegal. cbv zeta. split.
  - intros (p' & H).
    destruct (Position.isKingInCheck (Position.updatePieces RANDOM_VALUES p move))
      as [inCheck| | |] eqn:E; cbn [bind] in H; try discriminate.
    injection H as <- _.
    destruct (makeMove_yields p move inCheck E) as ([made q] & Hq & ->).
    exists q. exact Hq.
  - intros (q & H).
    pose proof (makeMove_checked p move (legal, q) H) as E. cbn beta iota in E.
    rewrite E, bind_Ok, negb_involutive. eexists. reflexivity.
Qed.

(** The squares of the boards after an accepted move are those
    [updatePieces] left. *)
Lemma makeMove_bitboards p move :
  returns (fun '(made, q) =>
             made = true ->
             Position.bitboards q
             = Position.bitboards (Position.updatePieces RANDOM_VALUES p move))
          (Position.makeMove RANDOM_VALUES p move).
Proof.
  cbv beta delta [Position.makeMove]. walk.
  apply bind_returns. intros inCheck Hc. destruct inCheck.
  - walk. apply Ok_returns. intros H. discriminate.
  - walk. apply Ok_returns. intros _. subst p9 p11.
    assert (B1 : Position.bitboards p1
                 = Position.bitboards (Position.updatePieces RANDOM_VALUES p move))
      by (rewrite Hp0, Hp; apply updatePieces_setHashHistory).
    assert (B7 : Position.bitboards p7 = Position.bitboards p6)
      by (rewrite Hp6; destruct (Move.getKind move =? Move.Kind.DOUBLE_PAWN_PUSH)%uint63;
          reflexivity).
    assert (B10 : Position.bitboards p10 = Position.bitboards p8).
    { rewrite Hp9.
      repeat match goal with
             | |- context [if ?c then _ else _] => destruct c
             end; reflexivity. }
    assert (B12 : Position.bitboards p12 = Position.bitboards p10).
    { rewrite Hp11.
      repeat match goal with
             | |- context [if ?c then _ else _] => destruct c
             end; reflexivity. }
    assert (B13 : Position.bitboards p13 = Position.bitboards p12)
      by (rewrite Hp12;
          destruct (Move.isCapture move || (Move.getPiece move =? Chess.Piece.PAWN)%uint63);
          reflexivity).
    clear Hp0 Hp Hp6 Hp9 Hp11 Hp12 Hc.
    note_board Hp1; note_board Hp2; note_board Hp3; note_board Hp4; note_board Hp5;
      note_board Hp7; note_board Hp13; note_board Hp14.
    congruence.
Qed.

(** X26: after an accepted [makeMove], the king of the side that moved
    is not attacked by the side now to move. *)
Theorem makeMove_king_safe (p q : Position.t) (move : Move.t) :
  Position.makeMove RANDOM_VALUES p move = Ok (true, q) ->
  Position.isAttacked q (Position.turn q) (Position.getKingPosition q (Position.turn p))
  = Ok false.
Proof.
  intros H.
  pose proof (makeMove_checked p move (true, q) H) as E. cbn beta iota in E.
  pose proof (makeMove_bitboards p move (true, q) H eq_refl) as B.
  destruct (makeMove_frames RANDOM_VALUES p move (true, q) H) as (_ & _ & _ & Ht & _).
  pose proof (frame_updatePieces RANDOM_VALUES p move) as F.
  apply frame_fields in F. destruct F as [F _].
  unfold Position.isKingInCheck, Position.getTurnColor in E. rewrite F in E.
  rewrite Ht, (getKingPosition_bitboards _ _ _ B), (isAttacked_bitboards _ _ _ _ B).
  exact E.
Qed.

Lemma isMoveLegal_keeps p move :
  returns (fun '(_, q) =>
             frame q = frame p
             /\ (keyWellFormed (Position.hashKey p) -> Position.hashKey q = Position.hashKey p))
          (Position.isMoveLegal RANDOM_VALUES p move).
Proof.
  cbv beta delta [Position.isMoveLegal]. walk.
  apply bind_returns. intros kingInCheck _. walk. apply Ok_returns.
  pose proof (frame_updatePieces RANDOM_VALUES p move) as F0. rewrite <- Hp in F0.
  pose proof (frame_revertPieces RANDOM_VALUES p0 move) as F1. rewrite <- Hp0 in F1.
  split; [congruence|]. intros Hz.
  pose proof (hashKey_updatePieces RANDOM_VALUES p move) as H0. rewrite <- Hp in H0.
  pose proof (hashKey_revertPieces RANDOM_VALUES p0 move) as H1. rewrite <- Hp0 in H1.
  apply frame_fields in F0. destruct F0 as [F0 _].
  rewrite H1, H0, F0, <- applyUpdates_app.
  apply applyUpdates_cancel; [|exact Hz]. parity.
Qed.

Lemma filterLegal_keeps moves :
  forall p, returns (fun '(kept, q) =>
                       subsequence kept moves
                       /\ frame q = frame p
                       /\ (keyWellFormed (Position.hashKey p) ->
                           Position.hashKey q = Position.hashKey p))
                    (Position.filterLegal RANDOM_VALUES moves p).
Proof.
  induction moves as [|move rest IH]; intros p.
  - apply Ok_returns. split; [constructor|]. split; [reflexivity|]. intros _. reflexivity.
  - cbn [Position.filterLegal]. apply bind_returns. intros [legal p1] H1.
    apply bind_returns. intros [kept p2] H2. apply Ok_returns.
    destruct (isMoveLegal_keeps p move _ H1) as (F1 & K1).
    destruct (IH p1 _ H2) as (S2 & F2 & K2).
    split; [destruct legal; constructor; exact S2|].
    split; [congruence|]. intros Hz.
    rewrite K2, K1; [reflexivity|exact Hz|]. rewrite K1 by exact Hz. exact Hz.
Qed.

(** X27: [getMoves] returns the generated moves themselves when
    [pseudoLegal] is set; otherwise it returns some of them, in the order
    they were generated.  Either way the turn, the castling rights, the
    en-passant square, the clock and the history stacks are left as they
    were, and so is a hash key with 32-bit halves. *)
Theorem getMoves_subsequence (p q : Position.t) (pseudoLegal onlyCaptures : bool)
    (moves : list Move.t) :
  Position.getMoves RANDOM_VALUES p pseudoLegal onlyCaptures = Ok (moves, q) ->
  exists generated,
    Position.generateMoves p onlyCaptures = Ok generated
    /\ (if pseudoLegal then moves = generated /\ q = p else subsequence moves generated)
    /\ frame q = frame p
    /\ (keyWellFormed (Position.hashKey p) -> Position.hashKey q = Position.hashKey p).
Proof.
  unfold Position.getMoves. intros H.
  destruct (Position.generateMoves p onlyCaptures) as [generated| | |];
    cbn [bind] in H; try discriminate.
  exists generated. split; [reflexivity|]. destruct pseudoLegal.
  - injection H as <- <-. repeat split.
  - destruct (filterLegal_keeps generated p _ H) as (S & F & K).
    split; [exact S|]. split; [exact F|exact K].
Qed.

End LegalMoves.

Lemma makeMove_king_safe_witness :
  Position.makeMove zeroValues (Position.create zeroValues) knightToA3
  = Ok (true, afterKnightToA3)
  /\ Position.isAttacked afterKnightToA3 (Position.turn afterKnightToA3)
       (Position.getKingPosition afterKnightToA3 (Position.turn (Position.create zeroValues)))
     = Ok false.
Proof.
  split; [vm_compute; reflexivity|].
  apply (makeMove_king_safe zeroValues (Position.create zeroValues) afterKnightToA3
           knightToA3).
  vm_compute. reflexivity.
Defined.

Lemma getMoves_subsequence_witness :
  Position.getMoves zeroValues (Position.create zeroValues) false false
  = Ok (initialLegalMoves, Position.create zeroValues)
  /\ exists generated,
      Position.generateMoves (Position.create zeroValues) false = Ok generated
      /\ subsequence initialLegalMoves generated
      /\ frame (Position.create zeroValues) = frame (Position.create zeroValues)
      /\ (keyWellFormed (Position.hashKey (Position.create zeroValues)) ->
          Position.hashKey (Position.create zeroValues)
          = Position.hashKey (Position.create zeroValues)).
Proof.
  split; [vm_compute; reflexivity|].
  apply (getMoves_subsequence zeroValues (Position.create zeroValues)
           (Position.create zeroValues) false false initialLegalMoves).
  vm_compute. reflexivity.
Defined.

(** ** position.js: the moves generated for captures only *)

Lemma isCapture_make (from to kind piece : int) (capturedPiece : option int) :
  memInt kind captureKinds = true ->
  Move.isCapture (Move.make from to kind piece capturedPiece) = true.
Proof.
  intros H. unfold Move.isCapture. rewrite getKind_make.
  unfold memInt, captureKinds in H. cbn [existsb] in H.
  repeat (apply orb_true_iff in H; destruct H as [H|H]);
    try discriminate; apply Uint63.eqb_spec in H; subst kind; reflexivity.
Qed.

Ltac split_app :=
  repeat match goal with
         | |- Forall _ (_ ++ _) => apply Forall_app; split
         end.

Lemma mapM_Forall {A B : Type} (P : B -> Prop) (f : A -> result B) (l : list A) :
  (forall x y, f x = Ok y -> P y) ->
  forall ys, Position.mapM f l = Ok ys -> Forall P ys.
Proof.
  intros Hf. induction l as [|x l IH]; intros ys H; cbn [Position.mapM] in H.
  - injection H as <-. constructor.
  - destruct (f x) as [y| | |] eqn:E; cbn [bind] in H; try discriminate.
    destruct (Position.mapM f l) as [ys'| | |]; cbn [bind] in H; try discriminate.
    injection H as <-. constructor; [exact (Hf x y E)|apply IH; reflexivity].
Qed.

Lemma addPawnMoves_captures p toMask movement kind :
  memInt kind captureKinds = true ->
  Forall (fun m => Move.isCapture m = true) (Position.addPawnMoves p toMask movement kind).
Proof.
  intros H. unfold Position.addPawnMoves. apply Forall_map, Forall_forall.
  intros index _. apply isCapture_make. exact H.
Qed.

Lemma addPawnPromotions_captures p toMask movement :
  Forall (fun m => Move.isCapture m = true)
         (Position.addPawnPromotions p toMask movement true).
Proof.
  unfold Position.addPawnPromotions.
  split_app; apply addPawnMoves_captures; reflexivity.
Qed.

Lemma generatePawnMoves_captures p :
  Forall (fun m => Move.isCapture m = true) (Position.generatePawnMoves p true).
Proof.
  unfold Position.generatePawnMoves. cbv zeta. cbn [negb app].
  split_app;
    try (apply addPawnMoves_captures; reflexivity);
    try apply addPawnPromotions_captures.
  destruct (Position.canEnPassant p); [|constructor].
  apply Forall_app; split; apply addPawnMoves_captures; reflexivity.
Qed.

Lemma In_squaresOf (b : Bitboard.t) (index : int) :
  In index (squaresOf b) <-> isSquare index /\ Bitboard.isSet b index = true.
Proof. unfold squaresOf. rewrite filter_In, In_squares. reflexivity. Qed.

Lemma and_isSet_right (b c : Bitboard.t) (index : int) :
  isSquare index -> Bitboard.isSet (Bitboard.and_ b c) index = true ->
  Bitboard.isSet c index = true.
Proof.
  intros Hs H.
  pose proof Hs as Hs'. apply isSquare_iff in Hs'. pose proof (to_Z_range index).
  rewrite isSet_bitAt in H |- * by exact Hs.
  rewrite bitAt_and in H by lia. apply andb_true_iff in H. apply H.
Qed.

Lemma extractAll_and_isSet (b c : Bitboard.t) (index : int) :
  In index (Bitboard.extractAll (Bitboard.and_ b c)) ->
  isSquare index /\ Bitboard.isSet c index = true.
Proof.
  intros H. rewrite extractAll_eq in H by apply wellFormed_and.
  apply In_squaresOf in H. destruct H as [Hs H].
  split; [exact Hs|exact (and_isSet_right b c index Hs H)].
Qed.

Lemma addNormalMoves_captures p opponentBB from b mask piece :
  Forall (fun m => Move.isCapture m = true)
         (Position.addNormalMoves p opponentBB from
            (Bitboard.and_ b (Bitboard.and_ mask opponentBB)) piece).
Proof.
  unfold Position.addNormalMoves. apply Forall_map, Forall_forall. intros to Hto.
  apply extractAll_and_isSet in Hto. destruct Hto as [Hs Hto].
  apply and_isSet_right in Hto; [|exact Hs]. rewrite Hto.
  apply isCapture_make. reflexivity.
Qed.

(** X28: with [onlyCaptures] set, every move [generateMoves] returns is a
    capture ([isCapture]), and no castle is among them. *)
Theorem generateMoves_onlyCaptures (p : Position.t) (moves : list Move.t) :
  Position.generateMoves p true = Ok moves ->
  Forall (fun m => Move.isCapture m = true) moves.
Proof.
  unfold Position.generateMoves. cbv zeta. intros H.
  match type of H with
  | bind (Position.mapM ?f ?l) _ = _ =>
      destruct (Position.mapM f l) as [knightMoves| | |] eqn:Hk; try discriminate
  end.
  rewrite bind_Ok in H.
  match type of H with
  | bind ?r _ = _ => destruct r as [gm| | |]; try discriminate
  end.
  rewrite bind_Ok in H. cbn [negb] in H. rewrite bind_Ok in H.
  injection H as <-.
  split_app.
  - apply generatePawnMoves_captures.
  - apply Forall_concat. revert Hk. apply mapM_Forall. intros x y Hx.
    match type of Hx with
    | bind ?r _ = _ => destruct r as [km| | |]; try discriminate
    end.
    rewrite bind_Ok in Hx. injection Hx as <-. apply addNormalMoves_captures.
  - apply Forall_concat, Forall_map, Forall_forall. intros x _.
    apply addNormalMoves_captures.
  - apply Forall_concat, Forall_map, Forall_forall. intros x _.
    apply addNormalMoves_captures.
  - apply Forall_concat, Forall_map, Forall_forall. intros x _.
    apply addNormalMoves_captures.
  - apply addNormalMoves_captures.
  - constructor.
Qed.

Lemma generateMoves_onlyCaptures_witness :
  Position.generateMoves blackInCheck true = Ok capturesOfBlackInCheck
  /\ Forall (fun m => Move.isCapture m = true) capturesOfBlackInCheck.
Proof.
  split; [vm_compute; reflexivity|].
  apply (generateMoves_onlyCaptures blackInCheck). vm_compute. reflexivity.
Defined.

(** ** bitboard.js: counting the set squares *)

Lemma land_bound (x m k : Z) : (0 <= k)%Z -> (0 <= m < 2 ^ k)%Z -> (0 <= Z.land x m < 2 ^ k)%Z.
Proof.
  intros Hk Hm.
  assert (E : Z.land x m = (Z.land x m mod 2 ^ k)%Z).
  { rewrite <- Z.land_ones by exact Hk. rewrite <- Z.land_assoc.
    rewrite (Z.land_ones m k) by exact Hk. rewrite (Z.mod_small m) by exact Hm. reflexivity. }
  rewrite E. apply Z.mod_pos_bound. apply Z.pow_pos_nonneg; lia.
Qed.

(** A mask that leaves out the [s] high bits of every byte works byte by
    byte on a number shifted down by [s]. *)
Lemma land_lanes (a y m0 m1 s : Z) :
  (0 <= a < 256)%Z -> (0 <= s <= 8)%Z -> (0 <= m0 < 2 ^ (8 - s))%Z ->
  Z.land ((a + 256 * y) / 2 ^ s) (m0 + 256 * m1)
  = (Z.land (a / 2 ^ s) m0 + 256 * Z.land (y / 2 ^ s) m1)%Z.
Proof.
  intros Ha Hs Hm0.
  assert (Hm8 : (0 <= m0 < 2 ^ 8)%Z).
  { split; [lia|]. apply Z.lt_le_trans with (2 ^ (8 - s))%Z; [lia|].
    apply Z.pow_le_mono_r; lia. }
  pose proof (land_bound (a / 2 ^ s) m0 8 ltac:(lia) Hm8) as Hla.
  apply Z.bits_inj'. intros n Hn.
  rewrite Z.land_spec, Z.div_pow2_bits by lia.
  replace (a + 256 * y)%Z with (2 ^ 8 * y + a)%Z by lia.
  replace (m0 + 256 * m1)%Z with (2 ^ 8 * m1 + m0)%Z by lia.
  replace (Z.land (a / 2 ^ s) m0 + 256 * Z.land (y / 2 ^ s) m1)%Z
    with (2 ^ 8 * Z.land (y / 2 ^ s) m1 + Z.land (a / 2 ^ s) m0)%Z by lia.
  rewrite !testbit_split by lia.
  destruct (Z.ltb_spec n 8) as [Hlt|Hge].
  - rewrite Z.land_spec, Z.div_pow2_bits by lia.
    destruct (Z.ltb_spec (n + s) 8) as [Hlow|Hhigh]; [reflexivity|].
    rewrite (testbit_small m0 (8 - s) n) by lia. rewrite !andb_false_r. reflexivity.
  - destruct (Z.ltb_spec (n + s) 8); [lia|].
    rewrite Z.land_spec, Z.div_pow2_bits by lia.
    replace (n - 8 + s)%Z with (n + s - 8)%Z by lia. reflexivity.
Qed.

Lemma byteCounted_all (b : Z) : (0 <= b < 256)%Z -> byteCounted b = true.
Proof.
  intros Hb. apply (forallb_below byteCounted 256); [vm_compute; reflexivity|lia].
Qed.

Lemma byteCounted_facts (b : Z) :
  (0 <= b < 256)%Z ->
  let m := Z.land (b / 2) 0x55 in
  let s := (b - m)%Z in
  let c := (Z.land s 0x33 + Z.land (s / 4) 0x33)%Z in
  (0 <= m <= b)%Z /\ (0 <= c < 256)%Z /\ (0 <= c mod 16 <= 4)%Z /\ (0 <= c / 16 <= 4)%Z
  /\ forall e, (0 <= e <= 4)%Z -> Z.land (c + c / 16 + 16 * e) 0xF = bitsBelow b 8.
Proof.
  intros Hb m s c. pose proof (byteCounted_all b Hb) as H.
  unfold byteCounted in H. fold m s c in H.
  apply andb_true_iff in H as [H H5]. apply andb_true_iff in H as [H H4].
  apply andb_true_iff in H as [H H3]. apply andb_true_iff in H as [H H2].
  apply andb_true_iff in H as [H0 H1].
  rewrite forallb_forall in H5.
  assert (Hc0 : (0 <= c)%Z).
  { unfold c. pose proof (land_bound s 0x33 8 ltac:(lia) ltac:(lia)).
    pose proof (land_bound (s / 4) 0x33 8 ltac:(lia) ltac:(lia)). lia. }
  split; [lia|]. split; [lia|].
  split; [split; [apply Z.mod_pos_bound; lia|lia]|].
  split; [split; [apply Z.div_pos; lia|lia]|].
  intros e He. apply Z.eqb_eq. apply H5.
  assert (E : (e = 0 \/ e = 1 \/ e = 2 \/ e = 3 \/ e = 4)%Z) by lia.
  cbn [In]. intuition.
Qed.

Lemma land_lanes0 (a y m0 m1 : Z) :
  (0 <= a < 256)%Z -> (0 <= m0 < 256)%Z ->
  Z.land (a + 256 * y) (m0 + 256 * m1) = (Z.land a m0 + 256 * Z.land y m1)%Z.
Proof.
  intros Ha Hm. pose proof (land_lanes a y m0 m1 0 Ha ltac:(lia) ltac:(lia)) as H.
  change (2 ^ 0)%Z with 1%Z in H. rewrite !Z.div_1_r in H. exact H.
Qed.

Lemma countBelow_le (f : nat -> bool) (n : nat) : (countBelow f n <= n)%nat.
Proof. induction n as [|n IH]; cbn [countBelow]; [lia|]. destruct (f n); lia. Qed.

Lemma bitsBelow_range (v : Z) (n : nat) : (0 <= bitsBelow v n <= Z.of_nat n)%Z.
Proof. unfold bitsBelow. pose proof (countBelow_le (fun i => Z.testbit v (Z.of_nat i)) n). lia. Qed.

(** The steps of [popcnt32] on a word made of four bytes. *)
Lemma popcnt_bytes (b0 b1 b2 b3 : Z) :
  (0 <= b0 < 256)%Z -> (0 <= b1 < 256)%Z -> (0 <= b2 < 256)%Z -> (0 <= b3 < 256)%Z ->
  let v := (b0 + 256 * (b1 + 256 * (b2 + 256 * b3)))%Z in
  let m := Z.land (v / 2) 0x55555555 in
  let v1 := (v - m)%Z in
  let v2 := (Z.land v1 0x33333333 + Z.land (v1 / 4) 0x33333333)%Z in
  let w := Z.land (v2 + v2 / 16) 0xF0F0F0F in
  (0 <= m <= v)%Z /\ (0 <= v2 < 2 ^ 32)%Z /\ (0 <= w < 2 ^ 32)%Z
  /\ ((w * 0x1010101) mod 2 ^ 32 / 2 ^ 24
      = bitsBelow b0 8 + bitsBelow b1 8 + bitsBelow b2 8 + bitsBelow b3 8)%Z.
Proof.
  intros H0 H1 H2 H3 v m v1 v2 w.
  destruct (byteCounted_facts b0 H0) as (Hm0 & Hc0 & Hr0 & Hq0 & Hg0).
  destruct (byteCounted_facts b1 H1) as (Hm1 & Hc1 & Hr1 & Hq1 & Hg1).
  destruct (byteCounted_facts b2 H2) as (Hm2 & Hc2 & Hr2 & Hq2 & Hg2).
  destruct (byteCounted_facts b3 H3) as (Hm3 & Hc3 & Hr3 & Hq3 & Hg3).
  cbv zeta in Hm0, Hc0, Hr0, Hq0, Hg0, Hm1, Hc1, Hr1, Hq1, Hg1,
    Hm2, Hc2, Hr2, Hq2, Hg2, Hm3, Hc3, Hr3, Hq3, Hg3.
  (* the first step *)
  assert (Em : m = (Z.land (b0 / 2) 0x55
                    + 256 * (Z.land (b1 / 2) 0x55
                             + 256 * (Z.land (b2 / 2) 0x55 + 256 * Z.land (b3 / 2) 0x55)))%Z).
  { unfold m, v. change 2%Z with (2 ^ 1)%Z at 1.
    change 0x55555555%Z with (0x55 + 256 * (0x55 + 256 * (0x55 + 256 * 0x55)))%Z.
    rewrite !land_lanes by lia. reflexivity. }
  set (m0 := Z.land (b0 / 2) 0x55) in *. set (m1 := Z.land (b1 / 2) 0x55) in *.
  set (m2 := Z.land (b2 / 2) 0x55) in *. set (m3 := Z.land (b3 / 2) 0x55) in *.
  set (s0 := (b0 - m0)%Z) in *. set (s1 := (b1 - m1)%Z) in *.
  set (s2 := (b2 - m2)%Z) in *. set (s3 := (b3 - m3)%Z) in *.
  assert (E1 : v1 = (s0 + 256 * (s1 + 256 * (s2 + 256 * s3)))%Z).
  { unfold v1, v. rewrite Em. unfold s0, s1, s2, s3. ring. }
  (* the second step *)
  assert (E2 : v2 = ((Z.land s0 0x33 + Z.land (s0 / 4) 0x33)
                     + 256 * ((Z.land s1 0x33 + Z.land (s1 / 4) 0x33)
                              + 256 * ((Z.land s2 0x33 + Z.land (s2 / 4) 0x33)
                                       + 256 * (Z.land s3 0x33 + Z.land (s3 / 4) 0x33))))%Z).
  { unfold v2. rewrite E1. change 4%Z with (2 ^ 2)%Z.
    change 0x33333333%Z with (0x33 + 256 * (0x33 + 256 * (0x33 + 256 * 0x33)))%Z.
    rewrite !land_lanes by (unfold s0, s1, s2, s3; lia).
    rewrite !land_lanes0 by (unfold s0, s1, s2, s3; lia). ring. }
  set (c0 := (Z.land s0 0x33 + Z.land (s0 / 4) 0x33)%Z) in *.
  set (c1 := (Z.land s1 0x33 + Z.land (s1 / 4) 0x33)%Z) in *.
  set (c2 := (Z.land s2 0x33 + Z.land (s2 / 4) 0x33)%Z) in *.
  set (c3 := (Z.land s3 0x33 + Z.land (s3 / 4) 0x33)%Z) in *.
  (* the third step *)
  assert (E3 : (v2 + v2 / 16
                = (c0 + c0 / 16 + 16 * (c1 mod 16))
                  + 256 * ((c1 + c1 / 16 + 16 * (c2 mod 16))
                           + 256 * ((c2 + c2 / 16 + 16 * (c3 mod 16))
                                    + 256 * (c3 + c3 / 16 + 16 * 0))))%Z).
  { rewrite E2. clearbody c0 c1 c2 c3. clear - Hc0 Hc1 Hc2 Hc3.
    Z.div_mod_to_equations. lia. }
  assert (Ew : w = (bitsBelow b0 8
                    + 256 * (bitsBelow b1 8 + 256 * (bitsBelow b2 8 + 256 * bitsBelow b3 8)))%Z).
  { unfold w. rewrite E3.
    change 0xF0F0F0F%Z with (0xF + 256 * (0xF + 256 * (0xF + 256 * 0xF)))%Z.
    rewrite !land_lanes0 by lia.
    rewrite (Hg0 (c1 mod 16)%Z), (Hg1 (c2 mod 16)%Z), (Hg2 (c3 mod 16)%Z), (Hg3 0%Z) by lia.
    reflexivity. }
  pose proof (bitsBelow_range b0 8) as G0. pose proof (bitsBelow_range b1 8) as G1.
  pose proof (bitsBelow_range b2 8) as G2. pose proof (bitsBelow_range b3 8) as G3.
  change (Z.of_nat 8) with 8%Z in G0, G1, G2, G3.
  set (g0 := bitsBelow b0 8) in *. set (g1 := bitsBelow b1 8) in *.
  set (g2 := bitsBelow b2 8) in *. set (g3 := bitsBelow b3 8) in *.
  clearbody g0 g1 g2 g3.
  split; [rewrite Em; unfold v; lia|].
  split; [rewrite E2; lia|].
  split; [rewrite Ew; lia|].
  rewrite Ew. clear - G0 G1 G2 G3.
  replace ((g0 + 256 * (g1 + 256 * (g2 + 256 * g3))) * 0x1010101)%Z
    with ((g0 + 256 * (g0 + g1) + 65536 * (g0 + g1 + g2)
           + 2 ^ 24 * (g0 + g1 + g2 + g3))
          + (g1 + g2 + g3 + 256 * (g2 + g3) + 65536 * g3) * 2 ^ 32)%Z by ring.
  rewrite Z.mod_add by lia. rewrite Z.mod_small by lia.
  symmetry.
  apply (Z.div_unique _ _ _ (g0 + 256 * (g0 + g1) + 65536 * (g0 + g1 + g2))%Z); lia.
Qed.

Lemma countBelow_ext (f g : nat -> bool) (n : nat) :
  (forall i, (i < n)%nat -> f i = g i) -> countBelow f n = countBelow g n.
Proof.
  induction n as [|n IH]; intros H; cbn [countBelow]; [reflexivity|].
  rewrite IH by (intros i Hi; apply H; lia). rewrite (H n) by lia. reflexivity.
Qed.

Lemma countBelow_add (f : nat -> bool) (n m : nat) :
  countBelow f (n + m) = (countBelow f n + countBelow (fun i => f (n + i)%nat) m)%nat.
Proof.
  induction m as [|m IH]; cbn [countBelow].
  - rewrite Nat.add_0_r. lia.
  - rewrite Nat.add_succ_r. cbn [countBelow]. rewrite IH. lia.
Qed.

Lemma countBelow_filter (f : nat -> bool) (n : nat) :
  List.length (filter f (seq 0 n)) = countBelow f n.
Proof.
  induction n as [|n IH]; [reflexivity|].
  rewrite seq_S, filter_app, length_app, IH. cbn [countBelow filter Nat.add].
  destruct (f n); reflexivity.
Qed.

(** The bits of the byte [k] of a word. *)
Lemma bitsBelow_byte (v : Z) (k : nat) :
  (0 <= v)%Z ->
  bitsBelow ((v / 2 ^ (8 * Z.of_nat k)) mod 256) 8
  = Z.of_nat (countBelow (fun i => Z.testbit v (Z.of_nat (8 * k + i))) 8).
Proof.
  intros Hv. unfold bitsBelow. f_equal. apply countBelow_ext. intros i Hi.
  change 256%Z with (2 ^ 8)%Z. rewrite Z.mod_pow2_bits_low by lia.
  rewrite Z.div_pow2_bits by lia. f_equal. lia.
Qed.

Lemma bitsBelow_bytes (v : Z) :
  (0 <= v)%Z ->
  bitsBelow v 32
  = (bitsBelow (v mod 256) 8 + bitsBelow ((v / 2 ^ 8) mod 256) 8
     + bitsBelow ((v / 2 ^ 16) mod 256) 8 + bitsBelow ((v / 2 ^ 24) mod 256) 8)%Z.
Proof.
  intros Hv.
  pose proof (bitsBelow_byte v 0 Hv) as B0. pose proof (bitsBelow_byte v 1 Hv) as B1.
  pose proof (bitsBelow_byte v 2 Hv) as B2. pose proof (bitsBelow_byte v 3 Hv) as B3.
  change (8 * Z.of_nat 0)%Z with 0%Z in B0. change (8 * Z.of_nat 1)%Z with 8%Z in B1.
  change (8 * Z.of_nat 2)%Z with 16%Z in B2. change (8 * Z.of_nat 3)%Z with 24%Z in B3.
  change (2 ^ 0)%Z with 1%Z in B0. rewrite Z.div_1_r in B0.
  rewrite B0, B1, B2, B3. unfold bitsBelow.
  change 32%nat with (8 + (8 + (8 + 8)))%nat.
  rewrite !countBelow_add. rewrite !Nat2Z.inj_add.
  rewrite Z.add_assoc, Z.add_assoc.
  repeat f_equal; apply countBelow_ext; intros i _; repeat f_equal; lia.
Qed.

Lemma asr_small (x k : int) :
  (Uint63.to_Z x < 2 ^ 62)%Z -> (Uint63.to_Z k < 62)%Z ->
  Uint63.to_Z (asr x k) = (Uint63.to_Z x / 2 ^ Uint63.to_Z k)%Z.
Proof.
  intros Hx Hk. rewrite asr_lsr by lia. apply Uint63.lsr_spec.
Qed.

(** [popcnt32] counts the set bits among the 32 low bits. *)
Lemma popcnt32_spec (x : int) :
  Uint63.to_Z (Bitboard.popcnt32 x) = bitsBelow (Uint63.to_Z x mod 2 ^ 32) 32.
Proof.
  set (v := (Uint63.to_Z x mod 2 ^ 32)%Z).
  assert (Hv : (0 <= v < 2 ^ 32)%Z) by (apply Z.mod_pos_bound; lia).
  set (b0 := (v mod 256)%Z). set (b1 := ((v / 2 ^ 8) mod 256)%Z).
  set (b2 := ((v / 2 ^ 16) mod 256)%Z). set (b3 := ((v / 2 ^ 24) mod 256)%Z).
  assert (Ev : v = (b0 + 256 * (b1 + 256 * (b2 + 256 * b3)))%Z).
  { unfold b0, b1, b2, b3. clearbody v.
    change (2 ^ 8)%Z with 256%Z. change (2 ^ 16)%Z with 65536%Z.
    change (2 ^ 24)%Z with 16777216%Z. change (2 ^ 32)%Z with 4294967296%Z in Hv.
    Z.div_mod_to_equations. lia. }
  assert (H0 : (0 <= b0 < 256)%Z) by (apply Z.mod_pos_bound; lia).
  assert (H1 : (0 <= b1 < 256)%Z) by (apply Z.mod_pos_bound; lia).
  assert (H2 : (0 <= b2 < 256)%Z) by (apply Z.mod_pos_bound; lia).
  assert (H3 : (0 <= b3 < 256)%Z) by (apply Z.mod_pos_bound; lia).
  rewrite (bitsBelow_bytes v) by lia. fold b0 b1 b2 b3.
  pose proof (popcnt_bytes b0 b1 b2 b3 H0 H1 H2 H3) as P. cbv zeta in P.
  rewrite <- Ev in P. destruct P as (Hm & Hv2 & Hw & <-).
  clearbody b0 b1 b2 b3. clear Ev H0 H1 H2 H3.
  set (x0 := Js.toUint32 x).
  set (x1 := (x0 - ((lsr x0 1) land 0x55555555))%uint63).
  set (x2 := ((x1 land 0x33333333) + ((lsr x1 2) land 0x33333333))%uint63).
  change (Bitboard.popcnt32 x)
    with (asr (Js.toUint32 (((x2 + asr x2 4) land 0xF0F0F0F) * 0x1010101)%uint63) 24).
  assert (Z0 : Uint63.to_Z x0 = v) by apply toUint32_spec.
  assert (Z1 : Uint63.to_Z x1 = (v - Z.land (v / 2) 0x55555555)%Z).
  { unfold x1. rewrite Uint63.sub_spec, Uint63.land_spec', Uint63.lsr_spec, Z0.
    change (Uint63.to_Z 1) with 1%Z. change (Uint63.to_Z 0x55555555) with 0x55555555%Z.
    change (2 ^ 1)%Z with 2%Z. change wB with (2 ^ 63)%Z. apply Z.mod_small. lia. }
  set (v1 := (v - Z.land (v / 2) 0x55555555)%Z) in *.
  assert (Hv1 : (0 <= v1 < 2 ^ 32)%Z) by (unfold v1; lia).
  assert (Z2 : Uint63.to_Z x2
               = (Z.land v1 0x33333333 + Z.land (v1 / 4) 0x33333333)%Z).
  { unfold x2. rewrite Uint63.add_spec, !Uint63.land_spec', Uint63.lsr_spec, Z1.
    change (Uint63.to_Z 2) with 2%Z. change (Uint63.to_Z 0x33333333) with 0x33333333%Z.
    change (2 ^ 2)%Z with 4%Z. change wB with (2 ^ 63)%Z. apply Z.mod_small. lia. }
  set (v2 := (Z.land v1 0x33333333 + Z.land (v1 / 4) 0x33333333)%Z) in *.
  assert (Z3 : Uint63.to_Z ((x2 + asr x2 4) land 0xF0F0F0F)%uint63
               = Z.land (v2 + v2 / 16) 0xF0F0F0F).
  { rewrite Uint63.land_spec', Uint63.add_spec, asr_small, Z2.
    - change (Uint63.to_Z 4) with 4%Z. change (Uint63.to_Z 0xF0F0F0F) with 0xF0F0F0F%Z.
      change (2 ^ 4)%Z with 16%Z. change wB with (2 ^ 63)%Z.
      rewrite Z.mod_small; [reflexivity|].
      assert (0 <= v2 / 16 <= v2)%Z by (split; [apply Z.div_pos; lia|apply Z.div_le_upper_bound; lia]).
      lia.
    - rewrite Z2. lia.
    - change (Uint63.to_Z 4) with 4%Z. lia. }
  set (w := Z.land (v2 + v2 / 16) 0xF0F0F0F) in *.
  rewrite asr_small.
  - rewrite toUint32_spec, Uint63.mul_spec, Z3.
    change (Uint63.to_Z 0x1010101) with 0x1010101%Z. change (Uint63.to_Z 24) with 24%Z.
    change wB with (2 ^ 63)%Z. rewrite (Z.mod_small (w * 0x1010101)) by lia. reflexivity.
  - rewrite toUint32_spec.
    pose proof (Z.mod_pos_bound
                  (Uint63.to_Z (((x2 + asr x2 4) land 0xF0F0F0F) * 0x1010101)%uint63)
                  (2 ^ 32) ltac:(lia)). lia.
  - change (Uint63.to_Z 24) with 24%Z. lia.
Qed.

Lemma popcnt32_count (x : int) :
  Uint63.to_Z (Bitboard.popcnt32 x)
  = Z.of_nat (countBelow (fun i => tb x (Z.of_nat i)) 32).
Proof.
  rewrite popcnt32_spec. unfold bitsBelow. f_equal. apply countBelow_ext. intros i Hi.
  unfold tb. apply Z.mod_pow2_bits_low. lia.
Qed.

Lemma popcnt_length (b : Bitboard.t) :
  Uint63.to_Z (Bitboard.popcnt b) = Z.of_nat (List.length (squaresOf b)).
Proof.
  rewrite squaresOf_eq, length_map, countBelow_filter.
  change 64%nat with (32 + 32)%nat. rewrite countBelow_add, Nat2Z.inj_add.
  rewrite (countBelow_ext (fun n => bitAt b (Z.of_nat n)) (fun i => tb (Bitboard.low b) (Z.of_nat i)) 32).
  2: { intros i Hi. unfold bitAt. destruct (Z.ltb_spec (Z.of_nat i) 32); [reflexivity|lia]. }
  rewrite (countBelow_ext (fun i => bitAt b (Z.of_nat (32 + i)))
             (fun i => tb (Bitboard.high b) (Z.of_nat i)) 32).
  2: { intros i Hi. unfold bitAt. destruct (Z.ltb_spec (Z.of_nat (32 + i)) 32); [lia|].
       f_equal. lia. }
  rewrite <- !popcnt32_count. unfold Bitboard.popcnt.
  rewrite Uint63.add_spec. change wB with (2 ^ 63)%Z. apply Z.mod_small.
  rewrite !popcnt32_count.
  pose proof (countBelow_le (fun i => tb (Bitboard.low b) (Z.of_nat i)) 32).
  pose proof (countBelow_le (fun i => tb (Bitboard.high b) (Z.of_nat i)) 32). lia.
Qed.

(** X29: [popcnt] is the number of set squares of the board, whatever
    its halves hold above their 32 low bits; it is at most 64. *)
Theorem popcnt_squaresOf (b : Bitboard.t) :
  Uint63.to_Z (Bitboard.popcnt b) = Z.of_nat (List.length (squaresOf b))
  /\ (Bitboard.popcnt b <=? 64)%uint63 = true.
Proof.
  pose proof (popcnt_length b) as H. split; [exact H|].
  apply Uint63.leb_spec. rewrite H. change (Uint63.to_Z 64) with 64%Z.
  unfold squaresOf.
  pose proof (filter_length_le (Bitboard.isSet b) squares) as L.
  change (List.length squares) with 64%nat in L. lia.
Qed.

(** ** position.js: the draw by insufficient material *)

Lemma isEmpty_noneSet (b : Bitboard.t) :
  wellFormed b -> (Bitboard.isEmpty b = true <-> noneSet b).
Proof.
  intros Hb. rewrite (isEmpty_bitAt b Hb). unfold noneSet. split.
  - intros H j Hj. rewrite isSet_bitAt by exact Hj. apply H.
    apply isSquare_iff in Hj. pose proof (to_Z_range j). lia.
  - intros H n Hn. specialize (H (Uint63.of_Z n)).
    rewrite isSet_bitAt, of_Z_small in H by (try apply isSquare_iff; rewrite ?of_Z_small; lia).
    apply H. apply isSquare_iff. rewrite of_Z_small; lia.
Qed.

Lemma light_isSet (j : int) :
  isSquare j ->
  Bitboard.isSet Bitboard.LIGHT_SQUARES j = Chess.isLight (Chess.getRank j) (Chess.getFile j)
  /\ Bitboard.isSet Bitboard.DARK_SQUARES j
     = negb (Chess.isLight (Chess.getRank j) (Chess.getFile j)).
Proof.
  intros Hj. split; apply eqb_bool_true.
  - apply (forall_square
             (fun j => Bool.eqb (Bitboard.isSet Bitboard.LIGHT_SQUARES j)
                         (Chess.isLight (Chess.getRank j) (Chess.getFile j))));
      [vm_compute; reflexivity|assumption].
  - apply (forall_square
             (fun j => Bool.eqb (Bitboard.isSet Bitboard.DARK_SQUARES j)
                         (negb (Chess.isLight (Chess.getRank j) (Chess.getFile j)))));
      [vm_compute; reflexivity|assumption].
Qed.

(** [b.dup().and(c).isEqual(b)]: every set square of [b] is one of [c]. *)
Lemma and_isEqual_iff (b c : Bitboard.t) :
  wellFormed b ->
  (Bitboard.isEqual (Bitboard.and_ (Bitboard.dup b) c) b = true
   <-> forall j, isSquare j -> Bitboard.isSet b j = true -> Bitboard.isSet c j = true).
Proof.
  intros Hb. rewrite isEqual_iff. split.
  - intros E j Hj Hset. pose proof Hj as Hj'. apply isSquare_iff in Hj'.
    pose proof (to_Z_range j).
    rewrite <- E in Hset. rewrite isSet_bitAt in Hset |- * by exact Hj.
    rewrite bitAt_and in Hset by lia. apply andb_true_iff in Hset. apply Hset.
  - intros H. apply bitAt_ext; [apply wellFormed_and|exact Hb|]. intros n Hn.
    rewrite bitAt_and, bitAt_dup by lia.
    destruct (bitAt b n) eqn:E; [|reflexivity]. cbn [andb].
    specialize (H (Uint63.of_Z n)).
    rewrite !isSet_bitAt, of_Z_small in H by (try apply isSquare_iff; rewrite ?of_Z_small; lia).
    apply H; [|exact E]. apply isSquare_iff. rewrite of_Z_small; lia.
Qed.

Lemma fewPieces (a b : Bitboard.t) :
  (Bitboard.popcnt a + Bitboard.popcnt b <? 4)%uint63 = true
  <-> (List.length (squaresOf a) + List.length (squaresOf b) < 4)%nat.
Proof.
  rewrite Uint63.ltb_spec, Uint63.add_spec, !popcnt_length.
  change (Uint63.to_Z 4) with 4%Z. change wB with (2 ^ 63)%Z.
  assert (La : (List.length (squaresOf a) <= 64)%nat).
  { unfold squaresOf. pose proof (filter_length_le (Bitboard.isSet a) squares) as L.
    change (List.length squares) with 64%nat in L. exact L. }
  assert (Lb : (List.length (squaresOf b) <= 64)%nat).
  { unfold squaresOf. pose proof (filter_length_le (Bitboard.isSet b) squares) as L.
    change (List.length squares) with 64%nat in L. exact L. }
  rewrite Z.mod_small by lia. lia.
Qed.

(** X30: for a position whose piece boards have 32-bit halves, the draw
    by insufficient material holds exactly when no pawn, rook or queen is
    on the board and either fewer than four pieces are left in all, or no
    knight is left and all the bishops stand on light squares or all on
    dark squares. *)
Theorem isInsufficientMaterialDraw_iff (p : Position.t) :
  pieceBoardsWellFormed p ->
  (Position.isInsufficientMaterialDraw p = true
   <-> noneSet (Position.getPieceBitboard p Chess.Piece.PAWN)
       /\ noneSet (Position.getPieceBitboard p Chess.Piece.ROOK)
       /\ noneSet (Position.getPieceBitboard p Chess.Piece.QUEEN)
       /\ ((List.length (squaresOf (Position.getColorBitboard p Chess.WHITE))
            + List.length (squaresOf (Position.getColorBitboard p Chess.BLACK)) < 4)%nat
           \/ (noneSet (Position.getPieceBitboard p Chess.Piece.KNIGHT)
               /\ ((forall j, isSquare j ->
                      Bitboard.isSet (Position.getPieceBitboard p Chess.Piece.BISHOP) j = true ->
                      Chess.isLight (Chess.getRank j) (Chess.getFile j) = true)
                   \/ (forall j, isSquare j ->
                         Bitboard.isSet (Position.getPieceBitboard p Chess.Piece.BISHOP) j = true ->
                         Chess.isLight (Chess.getRank j) (Chess.getFile j) = false))))).
Proof.
  intros W. unfold pieceBoardsWellFormed in W.
  inversion W as [|? ? Wp W1]; subst. inversion W1 as [|? ? Wn W2]; subst.
  inversion W2 as [|? ? Wb W3]; subst. inversion W3 as [|? ? Wr W4]; subst.
  inversion W4 as [|? ? Wq _]; subst. clear W W1 W2 W3 W4.
  unfold Position.isInsufficientMaterialDraw. cbv zeta.
  rewrite <- (isEmpty_noneSet _ Wp), <- (isEmpty_noneSet _ Wr), <- (isEmpty_noneSet _ Wq),
    <- (isEmpty_noneSet _ Wn), <- fewPieces.
  assert (HL : Bitboard.isEqual
                 (Bitboard.and_ (Bitboard.dup (Position.getPieceBitboard p Chess.Piece.BISHOP))
                    Bitboard.LIGHT_SQUARES)
                 (Position.getPieceBitboard p Chess.Piece.BISHOP) = true
               <-> forall j, isSquare j ->
                     Bitboard.isSet (Position.getPieceBitboard p Chess.Piece.BISHOP) j = true ->
                     Chess.isLight (Chess.getRank j) (Chess.getFile j) = true).
  { rewrite (and_isEqual_iff _ _ Wb). split; intros H j Hj Hs.
    - rewrite <- (proj1 (light_isSet j Hj)). apply H; assumption.
    - rewrite (proj1 (light_isSet j Hj)). apply H; assumption. }
  assert (HD : Bitboard.isEqual
                 (Bitboard.and_ (Bitboard.dup (Position.getPieceBitboard p Chess.Piece.BISHOP))
                    Bitboard.DARK_SQUARES)
                 (Position.getPieceBitboard p Chess.Piece.BISHOP) = true
               <-> forall j, isSquare j ->
                     Bitboard.isSet (Position.getPieceBitboard p Chess.Piece.BISHOP) j = true ->
                     Chess.isLight (Chess.getRank j) (Chess.getFile j) = false).
  { rewrite (and_isEqual_iff _ _ Wb). split; intros H j Hj Hs.
    - apply negb_true_iff. rewrite <- (proj2 (light_isSet j Hj)). apply H; assumption.
    - rewrite (proj2 (light_isSet j Hj)). apply negb_true_iff. apply H; assumption. }
  rewrite <- HL, <- HD. clear HL HD.
  destruct (Bitboard.isEmpty (Position.getPieceBitboard p Chess.Piece.PAWN));
    cbn [negb]; [|split; [discriminate|intros (H & _); discriminate]].
  destruct (Bitboard.isEmpty (Position.getPieceBitboard p Chess.Piece.ROOK));
    cbn [negb]; [|split; [discriminate|intros (_ & H & _); discriminate]].
  destruct (Bitboard.isEmpty (Position.getPieceBitboard p Chess.Piece.QUEEN));
    cbn [negb]; [|split; [discriminate|intros (_ & _ & H & _); discriminate]].
  destruct (Bitboard.popcnt (Position.getColorBitboard p Chess.WHITE)
            + Bitboard.popcnt (Position.getColorBitboard p Chess.BLACK) <? 4)%uint63.
  { split; [intros _|reflexivity]. repeat split. left. reflexivity. }
  destruct (Bitboard.isEmpty (Position.getPieceBitboard p Chess.Piece.KNIGHT)); cbn [negb].
  - destruct (Bitboard.isEqual _ _ || Bitboard.isEqual _ _) eqn:E.
    + split; [intros _|reflexivity]. repeat split. right. split; [reflexivity|].
      apply orb_true_iff in E. exact E.
    + split; [discriminate|]. intros (_ & _ & _ & [H|[_ H]]); [discriminate|].
      apply orb_true_iff in H. rewrite E in H. discriminate.
  - split; [discriminate|]. intros (_ & _ & _ & [H|[H _]]); discriminate.
Qed.

Lemma isInsufficientMaterialDraw_iff_witness :
  pieceBoardsWellFormed foolsMate
  /\ (Position.isInsufficientMaterialDraw foolsMate = true
      <-> noneSet (Position.getPieceBitboard foolsMate Chess.Piece.PAWN)
          /\ noneSet (Position.getPieceBitboard foolsMate Chess.Piece.ROOK)
          /\ noneSet (Position.getPieceBitboard foolsMate Chess.Piece.QUEEN)
          /\ ((List.length (squaresOf (Position.getColorBitboard foolsMate Chess.WHITE))
               + List.length (squaresOf (Position.getColorBitboard foolsMate Chess.BLACK))
               < 4)%nat
              \/ (noneSet (Position.getPieceBitboard foolsMate Chess.Piece.KNIGHT)
                  /\ ((forall j, isSquare j ->
                         Bitboard.isSet (Position.getPieceBitboard foolsMate Chess.Piece.BISHOP) j
                         = true ->
                         Chess.isLight (Chess.getRank j) (Chess.getFile j) = true)
                      \/ (forall j, isSquare j ->
                            Bitboard.isSet
                              (Position.getPieceBitboard foolsMate Chess.Piece.BISHOP) j = true ->
                            Chess.isLight (Chess.getRank j) (Chess.getFile j) = false))))).
Proof.
  assert (W : pieceBoardsWellFormed foolsMate).
  { unfold pieceBoardsWellFormed.
    repeat (apply Forall_cons; [split; vm_compute; reflexivity|]). apply Forall_nil. }
  split; [exact W|exact (isInsufficientMaterialDraw_iff foolsMate W)].
Defined.
